(** * DreamScaler USB controller: the serial protocol engine

    A shallow embedding of [ds_usb_controller/ds_usb_controller.ino]: the
    firmware that reads one command byte at a time from the serial port,
    waits (with a timeout) for the fixed-size payload of the command, and
    applies it to an SK6812 RGBW strip.

    The globals of the sketch, the serial port, the millisecond clock and
    the observable output (bytes written, frames pushed to the strip) are
    the fields of one record, threaded through a state monad. *)

From Stdlib Require Import ZArith Lia Bool List.
From stdpp Require Import base list numbers.
Local Open Scope Z_scope.

(** ** Machine integers

    The sketch targets AVR boards (Uno/Nano/Mega): [int] is 16 bits wide,
    [uint8_t] and [uint16_t] wrap modulo 2^8 and 2^16. *)

Definition u8 (x : Z) : Z := x mod 256.
Definition u16 (x : Z) : Z := x mod 65536.
Definition int16 (x : Z) : Z := (x + 32768) mod 65536 - 32768.

(** [(Serial.read() << 8) | Serial.read()] stored into a [uint16_t]; the
    shift and the or are computed on [int]. *)
Definition be16 (hi lo : Z) : Z := u16 (Z.lor (int16 (Z.shiftl hi 8)) lo).

(** ** The SK6812 driver *)

Module SK6812.

(** Modelled from the spec: [struct RGBW] of SK6812.h, which is not part of
    the sources at hand: a pixel is "four 8-bit channels (red, green, blue,
    white)". *)
Record RGBW := mkRGBW { r : Z; g : Z; b : Z; w : Z }.

(** Modelled from the spec: the driver class of SK6812.h is not part of
    the sources at hand.  The pixel store is "an ordered,
    index-addressable sequence of Pixels" of fixed capacity with one
    output pin; [write(index, color)] "fails [...] if index >= count;
    otherwise overwrites the pixel unconditionally", and [commit()]
    pushes the whole buffer to the hardware and is "side-effect-free on
    the logical buffer". *)
Record t := mk { pixels : list RGBW; output : option Z }.

Definition count_led (s : t) : Z := Z.of_nat (length (pixels s)).

(** Modelled from the spec: [new SK6812(num_leds)], a store of capacity
    [num_leds]; the buffer comes from the heap and holds whatever [mem]
    held. *)
Definition new (num_leds : Z) (mem : nat -> RGBW) : t :=
  {| pixels := mem <$> seq 0 (Z.to_nat num_leds); output := None |}.

(** Modelled from the spec: the store "owns a single mutable output pin
    identifier". *)
Definition set_output (pin : Z) (s : t) : t :=
  {| pixels := pixels s; output := Some pin |}.

(** Modelled from the spec: [write(index, color)], which does nothing to
    the buffer when [index >= count]. *)
Definition set_rgbw (index : Z) (px_value : RGBW) (s : t) : t :=
  if index <? count_led s
  then {| pixels := <[Z.to_nat index := px_value]> (pixels s);
          output := output s |}
  else s.

End SK6812.

Export SK6812 (RGBW, mkRGBW, r, g, b, w).

(** ** Configuration and wire constants *)

Definition DEFAULT_LED_COUNT : Z := 107.
Definition DEFAULT_LED_PIN : Z := 6.
Definition PROTOCOL_VERSION : Z := 11.

Definition CMD_PING : Z := 0x01.
Definition CMD_GET_INFO : Z := 0x02.
Definition CMD_RESET : Z := 0x03.
Definition CMD_SET_LED_COUNT : Z := 0x10.
Definition CMD_SET_LED_PIN : Z := 0x11.
Definition CMD_INIT_STRIP : Z := 0x12.
Definition CMD_SET_PIXEL_RGBW : Z := 0x20.
Definition CMD_SET_PIXEL_RGB : Z := 0x21.
Definition CMD_SET_PIXEL_W : Z := 0x22.
Definition CMD_SET_RANGE_RGBW : Z := 0x30.
Definition CMD_SET_ALL_RGBW : Z := 0x31.
Definition CMD_CLEAR_ALL : Z := 0x32.
Definition CMD_BUFFER_START : Z := 0x40.
Definition CMD_BUFFER_PIXEL : Z := 0x41.
Definition CMD_BUFFER_END : Z := 0x42.
Definition CMD_STREAM_START : Z := 0x50.
Definition CMD_STREAM_DATA : Z := 0x51.
Definition CMD_STREAM_END : Z := 0x52.
Definition CMD_BULK_UPDATE : Z := 0x55.
Definition CMD_SYNC : Z := 0x60.
Definition CMD_FILL_GRADIENT : Z := 0x70.
Definition CMD_BRIGHTNESS : Z := 0x71.
Definition RESP_OK : Z := 0xF0.
Definition RESP_PONG : Z := 0xF1.
Definition RESP_INFO : Z := 0xF2.
Definition RESP_ERROR : Z := 0xFE.
Definition RESP_UNKNOWN_CMD : Z := 0xFF.

Definition ERR_BUFFER_OVERFLOW : Z := 0x01.
Definition ERR_INVALID_PARAM : Z := 0x02.
Definition ERR_NOT_INITIALIZED : Z := 0x03.
Definition ERR_OUT_OF_RANGE : Z := 0x04.
Definition ERR_TIMEOUT : Z := 0x05.

(** ** The state of the board *)

(** What the outside world sees, in the order it happens: a byte written
    to the serial port, or a frame pushed to the strip by [sync()]. *)
Inductive Event :=
| Tx (byte : Z)
| Commit (frame : list RGBW) (pin : option Z).

Record State := mkState {
  (* globals of the sketch *)
  ledStrip : option SK6812.t;
  ledCount : Z;
  ledPin : Z;
  stripInitialized : bool;
  globalBrightness : Z;
  cmdBufferPos : Z;
  streamMode : bool;
  streamIndex : Z;
  streamCount : Z;
  (* the world around it *)
  rx : list (Z * Z);       (* bytes on the wire, each with its arrival time *)
  clock : Z;               (* milliseconds since power-up *)
  trace : list Event;      (* oldest first *)
  fresh_mem : nat -> RGBW  (* contents of memory handed out by the heap *)
}.

Definition set_ledStrip (v : option SK6812.t) (s : State) : State :=
  mkState v (ledCount s) (ledPin s) (stripInitialized s) (globalBrightness s)
    (cmdBufferPos s) (streamMode s) (streamIndex s) (streamCount s)
    (rx s) (clock s) (trace s) (fresh_mem s).
Definition set_ledCount (v : Z) (s : State) : State :=
  mkState (ledStrip s) v (ledPin s) (stripInitialized s) (globalBrightness s)
    (cmdBufferPos s) (streamMode s) (streamIndex s) (streamCount s)
    (rx s) (clock s) (trace s) (fresh_mem s).
Definition set_ledPin (v : Z) (s : State) : State :=
  mkState (ledStrip s) (ledCount s) v (stripInitialized s) (globalBrightness s)
    (cmdBufferPos s) (streamMode s) (streamIndex s) (streamCount s)
    (rx s) (clock s) (trace s) (fresh_mem s).
Definition set_stripInitialized (v : bool) (s : State) : State :=
  mkState (ledStrip s) (ledCount s) (ledPin s) v (globalBrightness s)
    (cmdBufferPos s) (streamMode s) (streamIndex s) (streamCount s)
    (rx s) (clock s) (trace s) (fresh_mem s).
Definition set_globalBrightness (v : Z) (s : State) : State :=
  mkState (ledStrip s) (ledCount s) (ledPin s) (stripInitialized s) v
    (cmdBufferPos s) (streamMode s) (streamIndex s) (streamCount s)
    (rx s) (clock s) (trace s) (fresh_mem s).
Definition set_cmdBufferPos (v : Z) (s : State) : State :=
  mkState (ledStrip s) (ledCount s) (ledPin s) (stripInitialized s)
    (globalBrightness s) v (streamMode s) (streamIndex s) (streamCount s)
    (rx s) (clock s) (trace s) (fresh_mem s).
Definition set_streamMode (v : bool) (s : State) : State :=
  mkState (ledStrip s) (ledCount s) (ledPin s) (stripInitialized s)
    (globalBrightness s) (cmdBufferPos s) v (streamIndex s) (streamCount s)
    (rx s) (clock s) (trace s) (fresh_mem s).
Definition set_streamIndex (v : Z) (s : State) : State :=
  mkState (ledStrip s) (ledCount s) (ledPin s) (stripInitialized s)
    (globalBrightness s) (cmdBufferPos s) (streamMode s) v (streamCount s)
    (rx s) (clock s) (trace s) (fresh_mem s).
Definition set_streamCount (v : Z) (s : State) : State :=
  mkState (ledStrip s) (ledCount s) (ledPin s) (stripInitialized s)
    (globalBrightness s) (cmdBufferPos s) (streamMode s) (streamIndex s) v
    (rx s) (clock s) (trace s) (fresh_mem s).
Definition set_rx (v : list (Z * Z)) (s : State) : State :=
  mkState (ledStrip s) (ledCount s) (ledPin s) (stripInitialized s)
    (globalBrightness s) (cmdBufferPos s) (streamMode s) (streamIndex s)
    (streamCount s) v (clock s) (trace s) (fresh_mem s).
Definition set_clock (v : Z) (s : State) : State :=
  mkState (ledStrip s) (ledCount s) (ledPin s) (stripInitialized s)
    (globalBrightness s) (cmdBufferPos s) (streamMode s) (streamIndex s)
    (streamCount s) (rx s) v (trace s) (fresh_mem s).
Definition set_trace (v : list Event) (s : State) : State :=
  mkState (ledStrip s) (ledCount s) (ledPin s) (stripInitialized s)
    (globalBrightness s) (cmdBufferPos s) (streamMode s) (streamIndex s)
    (streamCount s) (rx s) (clock s) v (fresh_mem s).

(** The board as it comes out of reset: the initial values of the globals. *)
Definition power_on (wire : list (Z * Z)) (mem : nat -> RGBW) : State :=
  {| ledStrip := None;
     ledCount := DEFAULT_LED_COUNT;
     ledPin := DEFAULT_LED_PIN;
     stripInitialized := false;
     globalBrightness := 255;
     cmdBufferPos := 0;
     streamMode := false;
     streamIndex := 0;
     streamCount := 0;
     rx := wire;
     clock := 0;
     trace := [];
     fresh_mem := mem |}.

(** ** A state monad for the sketch *)

Definition M (A : Type) : Type := State -> A * State.

Definition ret {A} (a : A) : M A := fun st => (a, st).
Definition bind {A B} (m : M A) (k : A -> M B) : M B :=
  fun st => let (a, st') := m st in k a st'.

Notation "x <- m ;; k" := (bind m (fun x => k))
  (at level 100, m at next level, right associativity).
Notation "m ;; k" := (bind m (fun _ => k))
  (at level 100, right associativity).

Definition get {A} (f : State -> A) : M A := fun st => (f st, st).
Definition modify (f : State -> State) : M unit := fun st => (tt, f st).

(** The state a command leaves behind. *)
Definition exec {A} (m : M A) (st : State) : State := snd (m st).

(** ** Serial port and clock *)

(** How many bytes at the head of the queue have arrived by [now]. *)
Fixpoint arrived (now : Z) (q : list (Z * Z)) : Z :=
  match q with
  | (t, _) :: q' => if t <=? now then 1 + arrived now q' else 0
  | [] => 0
  end.

Module Serial.

Definition available : M Z :=
  fun st => (arrived (clock st) (rx st), st).

(** [Serial.read()] is [-1] when nothing is there to be read. *)
Definition read : M Z :=
  fun st =>
    match rx st with
    | (t, x) :: q' =>
        if t <=? clock st then (x, set_rx q' st) else (-1, st)
    | [] => (-1, st)
    end.

Definition write (x : Z) : M unit :=
  modify (fun st => set_trace (trace st ++ [Tx (u8 x)]) st).

End Serial.

Definition millis : M Z := get clock.
Definition delay (ms : Z) : M unit :=
  modify (fun st => set_clock (clock st + ms) st).

(** ** Calls through the [ledStrip] pointer *)

Definition ledStrip_set_rgbw (index : Z) (color : RGBW) : M unit :=
  modify (fun st =>
    set_ledStrip (SK6812.set_rgbw index color <$> ledStrip st) st).

Definition ledStrip_set_output (pin : Z) : M unit :=
  modify (fun st => set_ledStrip (SK6812.set_output pin <$> ledStrip st) st).

Definition ledStrip_sync : M unit :=
  modify (fun st =>
    match ledStrip st with
    | Some s =>
        set_trace (trace st ++ [Commit (SK6812.pixels s) (SK6812.output s)]) st
    | None => st
    end).

(** ** Loops *)

(** [for (uint16_t i = from; ...; i++) body(i)], run [n] times. *)
Fixpoint for_loop (n : nat) (i : Z) (body : Z -> M unit) : M unit :=
  match n with
  | O => ret tt
  | S k => body i ;; for_loop k (i + 1) body
  end.

(** ** Utility functions of the sketch *)

Definition sendResponse (response : Z) : M unit := Serial.write response.

Definition sendError (errorCode : Z) : M unit :=
  Serial.write RESP_ERROR ;; Serial.write errorCode.

Definition sendInfo : M unit :=
  n <- get ledCount ;;
  pin <- get ledPin ;;
  init <- get stripInitialized ;;
  br <- get globalBrightness ;;
  Serial.write RESP_INFO ;;
  Serial.write PROTOCOL_VERSION ;;
  Serial.write (Z.land (Z.shiftr n 8) 0xFF) ;;
  Serial.write (Z.land n 0xFF) ;;
  Serial.write pin ;;
  Serial.write (if init then 1 else 0) ;;
  Serial.write br.

(** One channel of [applyBrightness]: [(c * globalBrightness) >> 8], the
    product computed on [int], the result stored into a [uint8_t]. *)
Definition scale (c brightness : Z) : Z :=
  u8 (Z.shiftr (int16 (c * brightness)) 8).

Definition applyBrightness (color : RGBW) : M RGBW :=
  gb <- get globalBrightness ;;
  if gb <? 255
  then ret (mkRGBW (scale (r color) gb) (scale (g color) gb)
                   (scale (b color) gb) (scale (w color) gb))
  else ret color.

(** The polling loop shared by [waitForBytes] and [cmdBulkUpdate]:

      while (Serial.available() < count) {
        if (millis() - startTime > timeout) { sendError(ERR_TIMEOUT); return false; }
      }

    The clock is read once per millisecond.  [budget] counts the polls left
    before [millis() - startTime] exceeds [timeout]: it is
    [startTime + timeout + 1 - millis()], so the test of the source is
    [budget = 0]. *)
Fixpoint wait_loop (budget : nat) (count : Z) : M bool :=
  fun st =>
    if arrived (clock st) (rx st) <? count then
      match budget with
      | O => (sendError ERR_TIMEOUT ;; ret false) st
      | S k => wait_loop k count (set_clock (clock st + 1) st)
      end
    else (true, st).

Definition wait_until (count startTime timeout : Z) : M bool :=
  now <- millis ;;
  wait_loop (Z.to_nat (startTime + timeout + 1 - now)) count.

Definition waitForBytes (count timeout : Z) : M bool :=
  startTime <- millis ;;
  wait_until count startTime timeout.

(** Modelled from the spec: [map] of the Arduino core is not part of the
    sources at hand; it is the "integer linear mapping
    (value = A + (B - A) * (i - start) / (end - start), truncating)",
    computed on [long].  With [in_max = in_min] it divides by zero, which C
    leaves undefined: [map] has no value there. *)
Definition map (x in_min in_max out_min out_max : Z) : option Z :=
  if in_max - in_min =? 0 then None
  else Some (Z.quot ((x - in_min) * (out_max - out_min)) (in_max - in_min)
             + out_min).

(** A step that uses a value C may leave undefined.  Where the value is
    undefined the model lets the step do nothing, so that whatever is
    shown about the effect of the step shows that the value was defined. *)
Definition defined {A} (v : option A) (k : A -> M unit) : M unit :=
  match v with
  | Some a => k a
  | None => ret tt
  end.

(** ** Initialisation *)

Definition initializeStrip (count pin : Z) : M unit :=
  (* delete the old strip, if there is one *)
  modify (set_ledStrip None) ;;
  modify (set_ledCount count) ;;
  modify (set_ledPin pin) ;;
  n <- get ledCount ;;
  modify (fun st => set_ledStrip (Some (SK6812.new n (fresh_mem st))) st) ;;
  p <- get ledPin ;;
  ledStrip_set_output p ;;
  let off := mkRGBW 0 0 0 0 in
  for_loop (Z.to_nat n) 0 (fun i => ledStrip_set_rgbw i off) ;;
  ledStrip_sync ;;
  modify (set_stripInitialized true).

(** ** Command handlers *)

Definition cmdSetLedCount : M unit :=
  ok <- waitForBytes 2 1000 ;;
  if ok then
    hi <- Serial.read ;;
    lo <- Serial.read ;;
    let count := be16 hi lo in
    if (count >? 0) && (count <=? 1000) then
      modify (set_ledCount count) ;;
      sendResponse RESP_OK
    else sendError ERR_INVALID_PARAM
  else ret tt.

Definition cmdSetLedPin : M unit :=
  ok <- waitForBytes 1 1000 ;;
  if ok then
    x <- Serial.read ;;
    let pin := u8 x in
    if pin <? 20 then
      modify (set_ledPin pin) ;;
      sendResponse RESP_OK
    else sendError ERR_INVALID_PARAM
  else ret tt.

Definition cmdSetPixelRGBW : M unit :=
  init <- get stripInitialized ;;
  if negb init then sendError ERR_NOT_INITIALIZED
  else
    ok <- waitForBytes 6 1000 ;;
    if ok then
      hi <- Serial.read ;;
      lo <- Serial.read ;;
      let index := be16 hi lo in
      cr <- Serial.read ;;
      cg <- Serial.read ;;
      cb <- Serial.read ;;
      cw <- Serial.read ;;
      color <- applyBrightness (mkRGBW (u8 cr) (u8 cg) (u8 cb) (u8 cw)) ;;
      n <- get ledCount ;;
      if index <? n then
        ledStrip_set_rgbw index color ;;
        ledStrip_sync ;;
        sendResponse RESP_OK
      else sendError ERR_OUT_OF_RANGE
    else ret tt.

Definition cmdSetPixelRGB : M unit :=
  init <- get stripInitialized ;;
  if negb init then sendError ERR_NOT_INITIALIZED
  else
    ok <- waitForBytes 5 1000 ;;
    if ok then
      hi <- Serial.read ;;
      lo <- Serial.read ;;
      let index := be16 hi lo in
      cr <- Serial.read ;;
      cg <- Serial.read ;;
      cb <- Serial.read ;;
      color <- applyBrightness (mkRGBW (u8 cr) (u8 cg) (u8 cb) 0) ;;
      n <- get ledCount ;;
      if index <? n then
        ledStrip_set_rgbw index color ;;
        ledStrip_sync ;;
        sendResponse RESP_OK
      else sendError ERR_OUT_OF_RANGE
    else ret tt.

Definition cmdSetPixelW : M unit :=
  init <- get stripInitialized ;;
  if negb init then sendError ERR_NOT_INITIALIZED
  else
    ok <- waitForBytes 3 1000 ;;
    if ok then
      hi <- Serial.read ;;
      lo <- Serial.read ;;
      let index := be16 hi lo in
      cw <- Serial.read ;;
      color <- applyBrightness (mkRGBW 0 0 0 (u8 cw)) ;;
      n <- get ledCount ;;
      if index <? n then
        ledStrip_set_rgbw index color ;;
        ledStrip_sync ;;
        sendResponse RESP_OK
      else sendError ERR_OUT_OF_RANGE
    else ret tt.

Definition cmdSetRangeRGBW : M unit :=
  init <- get stripInitialized ;;
  if negb init then sendError ERR_NOT_INITIALIZED
  else
    ok <- waitForBytes 8 1000 ;;
    if ok then
      shi <- Serial.read ;;
      slo <- Serial.read ;;
      let start := be16 shi slo in
      ehi <- Serial.read ;;
      elo <- Serial.read ;;
      let end_ := be16 ehi elo in
      cr <- Serial.read ;;
      cg <- Serial.read ;;
      cb <- Serial.read ;;
      cw <- Serial.read ;;
      color <- applyBrightness (mkRGBW (u8 cr) (u8 cg) (u8 cb) (u8 cw)) ;;
      n <- get ledCount ;;
      if (start <? n) && (end_ <? n) && (start <=? end_) then
        for_loop (Z.to_nat (end_ - start + 1)) start
          (fun i => ledStrip_set_rgbw i color) ;;
        ledStrip_sync ;;
        sendResponse RESP_OK
      else sendError ERR_OUT_OF_RANGE
    else ret tt.

Definition cmdSetAllRGBW : M unit :=
  init <- get stripInitialized ;;
  if negb init then sendError ERR_NOT_INITIALIZED
  else
    ok <- waitForBytes 4 1000 ;;
    if ok then
      cr <- Serial.read ;;
      cg <- Serial.read ;;
      cb <- Serial.read ;;
      cw <- Serial.read ;;
      color <- applyBrightness (mkRGBW (u8 cr) (u8 cg) (u8 cb) (u8 cw)) ;;
      n <- get ledCount ;;
      for_loop (Z.to_nat n) 0 (fun i => ledStrip_set_rgbw i color) ;;
      ledStrip_sync ;;
      sendResponse RESP_OK
    else ret tt.

Definition cmdClearAll : M unit :=
  init <- get stripInitialized ;;
  if negb init then sendError ERR_NOT_INITIALIZED
  else
    let off := mkRGBW 0 0 0 0 in
    n <- get ledCount ;;
    for_loop (Z.to_nat n) 0 (fun i => ledStrip_set_rgbw i off) ;;
    ledStrip_sync ;;
    sendResponse RESP_OK.

Definition cmdBufferStart : M unit :=
  modify (set_cmdBufferPos 0) ;;
  sendResponse RESP_OK.

Definition cmdBufferPixel : M unit :=
  init <- get stripInitialized ;;
  if negb init then sendError ERR_NOT_INITIALIZED
  else
    ok <- waitForBytes 6 1000 ;;
    if ok then
      hi <- Serial.read ;;
      lo <- Serial.read ;;
      let index := be16 hi lo in
      cr <- Serial.read ;;
      cg <- Serial.read ;;
      cb <- Serial.read ;;
      cw <- Serial.read ;;
      color <- applyBrightness (mkRGBW (u8 cr) (u8 cg) (u8 cb) (u8 cw)) ;;
      n <- get ledCount ;;
      if index <? n then
        ledStrip_set_rgbw index color ;;
        sendResponse RESP_OK
      else sendError ERR_OUT_OF_RANGE
    else ret tt.

Definition cmdBufferEnd : M unit :=
  init <- get stripInitialized ;;
  if negb init then sendError ERR_NOT_INITIALIZED
  else
    ledStrip_sync ;;
    modify (set_cmdBufferPos 0) ;;
    sendResponse RESP_OK.

Definition cmdStreamStart : M unit :=
  init <- get stripInitialized ;;
  if negb init then sendError ERR_NOT_INITIALIZED
  else
    ok <- waitForBytes 2 1000 ;;
    if ok then
      hi <- Serial.read ;;
      lo <- Serial.read ;;
      modify (set_streamCount (be16 hi lo)) ;;
      modify (set_streamIndex 0) ;;
      modify (set_streamMode true) ;;
      sendResponse RESP_OK
    else ret tt.

Definition cmdStreamData : M unit :=
  init <- get stripInitialized ;;
  mode <- get streamMode ;;
  if negb init || negb mode then sendError ERR_NOT_INITIALIZED
  else
    ok <- waitForBytes 4 1000 ;;
    if ok then
      cr <- Serial.read ;;
      cg <- Serial.read ;;
      cb <- Serial.read ;;
      cw <- Serial.read ;;
      color <- applyBrightness (mkRGBW (u8 cr) (u8 cg) (u8 cb) (u8 cw)) ;;
      i <- get streamIndex ;;
      n <- get ledCount ;;
      total <- get streamCount ;;
      if (i <? n) && (i <? total) then
        ledStrip_set_rgbw i color ;;
        modify (set_streamIndex (u16 (i + 1))) ;;
        sendResponse RESP_OK
      else sendError ERR_OUT_OF_RANGE
    else ret tt.

Definition cmdStreamEnd : M unit :=
  init <- get stripInitialized ;;
  if negb init then sendError ERR_NOT_INITIALIZED
  else
    ledStrip_sync ;;
    modify (set_streamMode false) ;;
    modify (set_streamIndex 0) ;;
    modify (set_streamCount 0) ;;
    sendResponse RESP_OK.

(** The pixel loop of [cmdBulkUpdate]; it answers whether all [n] pixels
    were read ([false]: the handler returned from inside the loop). *)
Fixpoint bulk_loop (n : nat) (i : Z) (startTime timeout : Z) : M bool :=
  match n with
  | O => ret true
  | S k =>
      ok <- wait_until 4 startTime timeout ;;
      if ok then
        cr <- Serial.read ;;
        cg <- Serial.read ;;
        cb <- Serial.read ;;
        cw <- Serial.read ;;
        color <- applyBrightness (mkRGBW (u8 cr) (u8 cg) (u8 cb) (u8 cw)) ;;
        ledStrip_set_rgbw i color ;;
        startTime' <- millis ;;
        bulk_loop k (i + 1) startTime' timeout
      else ret false
  end.

Definition cmdBulkUpdate : M unit :=
  init <- get stripInitialized ;;
  if negb init then sendError ERR_NOT_INITIALIZED
  else
    ok <- waitForBytes 2 1000 ;;
    if ok then
      hi <- Serial.read ;;
      lo <- Serial.read ;;
      let count := be16 hi lo in
      n <- get ledCount ;;
      if count >? n then sendError ERR_OUT_OF_RANGE
      else
        sendResponse RESP_OK ;;
        let timeout := 1000 in
        startTime <- millis ;;
        done <- bulk_loop (Z.to_nat count) 0 startTime timeout ;;
        if done then
          ledStrip_sync ;;
          sendResponse RESP_OK
        else ret tt
    else ret tt.

Definition cmdFillGradient : M unit :=
  init <- get stripInitialized ;;
  if negb init then sendError ERR_NOT_INITIALIZED
  else
    ok <- waitForBytes 12 1000 ;;
    if ok then
      shi <- Serial.read ;;
      slo <- Serial.read ;;
      let start := be16 shi slo in
      ehi <- Serial.read ;;
      elo <- Serial.read ;;
      let end_ := be16 ehi elo in
      r1 <- Serial.read ;;
      g1 <- Serial.read ;;
      b1 <- Serial.read ;;
      w1 <- Serial.read ;;
      let color1 := mkRGBW (u8 r1) (u8 g1) (u8 b1) (u8 w1) in
      r2 <- Serial.read ;;
      g2 <- Serial.read ;;
      b2 <- Serial.read ;;
      w2 <- Serial.read ;;
      let color2 := mkRGBW (u8 r2) (u8 g2) (u8 b2) (u8 w2) in
      n <- get ledCount ;;
      if (start <? n) && (end_ <? n) && (start <=? end_) then
        let steps := u16 (end_ - start) in
        for_loop (Z.to_nat (steps + 1)) 0 (fun i =>
          defined
            (if steps >? 0 then
               vr ← map i 0 steps (r color1) (r color2);
               vg ← map i 0 steps (g color1) (g color2);
               vb ← map i 0 steps (b color1) (b color2);
               vw ← map i 0 steps (w color1) (w color2);
               Some (mkRGBW (u8 vr) (u8 vg) (u8 vb) (u8 vw))
             else Some color1)
            (fun interpolated =>
               color <- applyBrightness interpolated ;;
               ledStrip_set_rgbw (u16 (start + i)) color)) ;;
        ledStrip_sync ;;
        sendResponse RESP_OK
      else sendError ERR_OUT_OF_RANGE
    else ret tt.

Definition cmdSetBrightness : M unit :=
  ok <- waitForBytes 1 1000 ;;
  if ok then
    x <- Serial.read ;;
    modify (set_globalBrightness (u8 x)) ;;
    sendResponse RESP_OK
  else ret tt.

(** ** Dispatch *)

Definition processCommand (cmd : Z) : M unit :=
  if cmd =? CMD_PING then sendResponse RESP_PONG
  else if cmd =? CMD_GET_INFO then sendInfo
  else if cmd =? CMD_RESET then
    initializeStrip DEFAULT_LED_COUNT DEFAULT_LED_PIN ;;
    modify (set_globalBrightness 255) ;;
    sendResponse RESP_OK
  else if cmd =? CMD_SET_LED_COUNT then cmdSetLedCount
  else if cmd =? CMD_SET_LED_PIN then cmdSetLedPin
  else if cmd =? CMD_INIT_STRIP then
    n <- get ledCount ;;
    pin <- get ledPin ;;
    initializeStrip n pin ;;
    sendResponse RESP_OK
  else if cmd =? CMD_SET_PIXEL_RGBW then cmdSetPixelRGBW
  else if cmd =? CMD_SET_PIXEL_RGB then cmdSetPixelRGB
  else if cmd =? CMD_SET_PIXEL_W then cmdSetPixelW
  else if cmd =? CMD_SET_RANGE_RGBW then cmdSetRangeRGBW
  else if cmd =? CMD_SET_ALL_RGBW then cmdSetAllRGBW
  else if cmd =? CMD_CLEAR_ALL then cmdClearAll
  else if cmd =? CMD_BUFFER_START then cmdBufferStart
  else if cmd =? CMD_BUFFER_PIXEL then cmdBufferPixel
  else if cmd =? CMD_BUFFER_END then cmdBufferEnd
  else if cmd =? CMD_STREAM_START then cmdStreamStart
  else if cmd =? CMD_STREAM_DATA then cmdStreamData
  else if cmd =? CMD_STREAM_END then cmdStreamEnd
  else if cmd =? CMD_BULK_UPDATE then cmdBulkUpdate
  else if cmd =? CMD_SYNC then
    init <- get stripInitialized ;;
    if init then
      ledStrip_sync ;;
      sendResponse RESP_OK
    else sendError ERR_NOT_INITIALIZED
  else if cmd =? CMD_FILL_GRADIENT then cmdFillGradient
  else if cmd =? CMD_BRIGHTNESS then cmdSetBrightness
  else sendResponse RESP_UNKNOWN_CMD.

(** ** [setup] and [loop] *)

Definition setup : M unit :=
  n <- get ledCount ;;
  pin <- get ledPin ;;
  initializeStrip n pin ;;
  init <- get stripInitialized ;;
  if init then
    let flash := mkRGBW 0 0 0 50 in
    let off := mkRGBW 0 0 0 0 in
    for_loop 3 0 (fun _ =>
      ledStrip_set_rgbw 0 flash ;;
      ledStrip_sync ;;
      delay 50 ;;
      ledStrip_set_rgbw 0 off ;;
      ledStrip_sync ;;
      delay 50)
  else ret tt.

Definition loop : M unit :=
  n <- Serial.available ;;
  if n >? 0 then
    cmd <- Serial.read ;;
    processCommand (u8 cmd)
  else ret tt.

(** [loop()] called [n] times in a row. *)
Fixpoint loops (n : nat) : M unit :=
  match n with
  | O => ret tt
  | S k => loop ;; loops k
  end.

(** * The host's side of the wire

    What follows is used to state the properties: the requests a host can
    send, how they are laid out on the wire (the layouts are those given
    next to each command identifier in the sketch), and what an accepted
    request asks the strip to hold. *)

Definition byte (x : Z) : Prop := 0 <= x < 256.

Definition byte_color (c : RGBW) : Prop :=
  byte (r c) /\ byte (g c) /\ byte (b c) /\ byte (w c).

Definition word (x : Z) : Prop := 0 <= x < 65536.

Inductive Request :=
| Ping
| GetInfo
| Reset
| SetLedCount (count : Z)
| SetLedPin (pin : Z)
| InitStrip
| SetPixelRGBW (index : Z) (c : RGBW)
| SetPixelRGB (index : Z) (cr cg cb : Z)
| SetPixelW (index : Z) (cw : Z)
| SetRange (first last : Z) (c : RGBW)
| SetAll (c : RGBW)
| ClearAll
| BufferStart
| BufferPixel (index : Z) (c : RGBW)
| BufferEnd
| StreamStart (count : Z)
| StreamData (c : RGBW)
| StreamEnd
| BulkUpdate (cs : list RGBW)
| Sync
| FillGradient (first last : Z) (c1 c2 : RGBW)
| Brightness (value : Z).

Definition opcode (req : Request) : Z :=
  match req with
  | Ping => CMD_PING
  | GetInfo => CMD_GET_INFO
  | Reset => CMD_RESET
  | SetLedCount _ => CMD_SET_LED_COUNT
  | SetLedPin _ => CMD_SET_LED_PIN
  | InitStrip => CMD_INIT_STRIP
  | SetPixelRGBW _ _ => CMD_SET_PIXEL_RGBW
  | SetPixelRGB _ _ _ _ => CMD_SET_PIXEL_RGB
  | SetPixelW _ _ => CMD_SET_PIXEL_W
  | SetRange _ _ _ => CMD_SET_RANGE_RGBW
  | SetAll _ => CMD_SET_ALL_RGBW
  | ClearAll => CMD_CLEAR_ALL
  | BufferStart => CMD_BUFFER_START
  | BufferPixel _ _ => CMD_BUFFER_PIXEL
  | BufferEnd => CMD_BUFFER_END
  | StreamStart _ => CMD_STREAM_START
  | StreamData _ => CMD_STREAM_DATA
  | StreamEnd => CMD_STREAM_END
  | BulkUpdate _ => CMD_BULK_UPDATE
  | Sync => CMD_SYNC
  | FillGradient _ _ _ _ => CMD_FILL_GRADIENT
  | Brightness _ => CMD_BRIGHTNESS
  end.

(** A 16-bit value, high byte first. *)
Definition wire16 (x : Z) : list Z := [x / 256; x mod 256].

Definition wire_color (c : RGBW) : list Z := [r c; g c; b c; w c].

Definition payload (req : Request) : list Z :=
  match req with
  | SetLedCount count => wire16 count
  | SetLedPin pin => [pin]
  | SetPixelRGBW index c => wire16 index ++ wire_color c
  | SetPixelRGB index cr cg cb => wire16 index ++ [cr; cg; cb]
  | SetPixelW index cw => wire16 index ++ [cw]
  | SetRange first last c => wire16 first ++ wire16 last ++ wire_color c
  | SetAll c => wire_color c
  | BufferPixel index c => wire16 index ++ wire_color c
  | StreamStart count => wire16 count
  | StreamData c => wire_color c
  | BulkUpdate cs =>
      wire16 (Z.of_nat (length cs)) ++ concat (wire_color <$> cs)
  | FillGradient first last c1 c2 =>
      wire16 first ++ wire16 last ++ wire_color c1 ++ wire_color c2
  | Brightness value => [value]
  | _ => []
  end.

(** A request that can be put on the wire: indices and counts fit sixteen
    bits, everything else fits a byte. *)
Definition well_formed (req : Request) : Prop :=
  match req with
  | SetLedCount count => word count
  | SetLedPin pin => byte pin
  | SetPixelRGBW index c => word index /\ byte_color c
  | SetPixelRGB index cr cg cb => word index /\ byte cr /\ byte cg /\ byte cb
  | SetPixelW index cw => word index /\ byte cw
  | SetRange first last c => word first /\ word last /\ byte_color c
  | SetAll c => byte_color c
  | BufferPixel index c => word index /\ byte_color c
  | StreamStart count => word count
  | StreamData c => byte_color c
  | BulkUpdate cs => word (Z.of_nat (length cs)) /\ Forall byte_color cs
  | FillGradient first last c1 c2 =>
      word first /\ word last /\ byte_color c1 /\ byte_color c2
  | Brightness value => byte value
  | _ => True
  end.

(** The bytes of a sequence of requests, as they follow each other on the
    wire. *)
Definition frames (reqs : list Request) : list Z :=
  concat ((fun req => opcode req :: payload req) <$> reqs).

(** ** Arrival of the payload *)

(** When the last byte of [q] is there, for someone who starts to wait at
    [now]. *)
Definition latest (now : Z) (q : list (Z * Z)) : Z :=
  foldr (fun p acc => Z.max p.1 acc) now q.

Definition in_time (deadline : Z) (q : list (Z * Z)) : Prop :=
  Forall (fun p => p.1 <= deadline) q.

(** The next bytes on the wire are [bytes], they arrive as [q] says, each
    within the 1000 ms a handler waits for its payload, and [rest] follows
    them. *)
Definition delivers (st : State) (q : list (Z * Z)) (bytes : list Z)
    (rest : list (Z * Z)) : Prop :=
  rx st = q ++ rest /\ q.*2 = bytes /\ in_time (clock st + 1000) q.

(** The state once the payload [q] has been waited for and read. *)
Definition received (q rest : list (Z * Z)) (st : State) : State :=
  set_rx rest (set_clock (latest (clock st) q) st).

(** The pixels of a bulk update arrive one group of four bytes after the
    other; each group has 1000 ms from the moment the one before it was
    stored. *)
Fixpoint paced (now : Z) (groups : list (list (Z * Z))) : Prop :=
  match groups with
  | [] => True
  | q :: qs => in_time (now + 1000) q /\ paced (latest now q) qs
  end.

Fixpoint finished (now : Z) (groups : list (list (Z * Z))) : Z :=
  match groups with
  | [] => now
  | q :: qs => finished (latest now q) qs
  end.

(** ** What a request asks for *)

(** [applyBrightness] as a function of the brightness in force. *)
Definition scaled (gb : Z) (color : RGBW) : RGBW :=
  if gb <? 255
  then mkRGBW (scale (r color) gb) (scale (g color) gb)
              (scale (b color) gb) (scale (w color) gb)
  else color.

(** The spec's brightness rule for one channel: [floor (v * b / 256)], and
    no scaling at all at [b = 255]. *)
Definition dimmed (gb v : Z) : Z :=
  if gb =? 255 then v else v * gb / 256.

Definition dimmed_color (gb : Z) (c : RGBW) : RGBW :=
  mkRGBW (dimmed gb (r c)) (dimmed gb (g c)) (dimmed gb (b c)) (dimmed gb (w c)).

(** The spec's gradient: [A + (B - A) * i / (end - start)], truncating, and
    colour A alone when the range is a single index. *)
Definition lerp (a b i steps : Z) : Z := a + Z.quot ((b - a) * i) steps.

Definition gradient (c1 c2 : RGBW) (steps i : Z) : RGBW :=
  if steps =? 0 then c1
  else mkRGBW (lerp (r c1) (r c2) i steps) (lerp (g c1) (g c2) i steps)
              (lerp (b c1) (b c2) i steps) (lerp (w c1) (w c2) i steps).

(** The writes a request asks for, in order: index and colour as sent,
    before any scaling. *)
Definition asked (st : State) (req : Request) : list (Z * RGBW) :=
  match req with
  | SetPixelRGBW index c => [(index, c)]
  | SetPixelRGB index cr cg cb => [(index, mkRGBW cr cg cb 0)]
  | SetPixelW index cw => [(index, mkRGBW 0 0 0 cw)]
  | SetRange first last c => (fun i => (i, c)) <$> seqZ first (last - first + 1)
  | SetAll c => (fun i => (i, c)) <$> seqZ 0 (ledCount st)
  | ClearAll => (fun i => (i, mkRGBW 0 0 0 0)) <$> seqZ 0 (ledCount st)
  | BufferPixel index c => [(index, c)]
  | StreamData c => [(streamIndex st, c)]
  | BulkUpdate cs => zip (seqZ 0 (Z.of_nat (length cs))) cs
  | FillGradient first last c1 c2 =>
      (fun i => (first + i, gradient c1 c2 (last - first) i))
        <$> seqZ 0 (last - first + 1)
  | _ => []
  end.

(** Whether the engine lets the writes of a request through. *)
Definition in_range (st : State) (req : Request) : bool :=
  match req with
  | SetPixelRGBW index _ | SetPixelRGB index _ _ _ | SetPixelW index _
  | BufferPixel index _ => index <? ledCount st
  | SetRange first last _ | FillGradient first last _ _ =>
      (first <? ledCount st) && (last <? ledCount st) && (first <=? last)
  | StreamData _ =>
      (streamIndex st <? ledCount st) && (streamIndex st <? streamCount st)
  | BulkUpdate cs => Z.of_nat (length cs) <=? ledCount st
  | _ => true
  end.

(** The strip after the writes [ws], each colour scaled by [gb]. *)
Definition paint (gb : Z) (ws : list (Z * RGBW)) (s : SK6812.t) : SK6812.t :=
  foldl (fun s iw => SK6812.set_rgbw iw.1 (scaled gb iw.2) s) s ws.

(** The requests that write pixels, and those among them that name the
    indices they write to. *)
Definition writes (req : Request) : bool :=
  match req with
  | SetPixelRGBW _ _ | SetPixelRGB _ _ _ _ | SetPixelW _ _ | SetRange _ _ _
  | SetAll _ | ClearAll | BufferPixel _ _ | StreamData _ | BulkUpdate _
  | FillGradient _ _ _ _ => true
  | _ => false
  end.

Definition indices (req : Request) : list Z :=
  match req with
  | SetPixelRGBW index _ | SetPixelRGB index _ _ _ | SetPixelW index _
  | BufferPixel index _ => [index]
  | SetRange first last _ | FillGradient first last _ _ => [first; last]
  | _ => []
  end.

(** The three variants of set_pixel, with the full colour they stand for. *)
Definition set_pixel (req : Request) : option (Z * RGBW) :=
  match req with
  | SetPixelRGBW index c => Some (index, c)
  | SetPixelRGB index cr cg cb => Some (index, mkRGBW cr cg cb 0)
  | SetPixelW index cw => Some (index, mkRGBW 0 0 0 cw)
  | _ => None
  end.

(** Stream data is only looked at while a stream is open. *)
Definition streaming (st : State) (req : Request) : Prop :=
  match req with
  | StreamData _ => streamMode st = true
  | _ => True
  end.

(** What [sync()] shows of a state. *)
Definition frame (st : State) : list Event :=
  match ledStrip st with
  | Some s => [Commit (SK6812.pixels s) (SK6812.output s)]
  | None => []
  end.

(** What the outside world sees of an accepted write: buffer_pixel and
    stream_data answer without a commit, bulk_update answers twice. *)
Definition answer (req : Request) (st : State) : list Event :=
  match req with
  | BufferPixel _ _ | StreamData _ => [Tx RESP_OK]
  | BulkUpdate _ => [Tx RESP_OK] ++ frame st ++ [Tx RESP_OK]
  | _ => frame st ++ [Tx RESP_OK]
  end.

(** What a write request is to do to a state in which its payload has been
    read. *)
Definition outcome (req : Request) (st : State) : State :=
  if in_range st req then
    let st' :=
      set_ledStrip
        (paint (globalBrightness st) (asked st req) <$> ledStrip st) st in
    let st'' :=
      match req with
      | StreamData _ => set_streamIndex (u16 (streamIndex st + 1)) st'
      | _ => st'
      end in
    set_trace (trace st ++ answer req st') st''
  else set_trace (trace st ++ [Tx RESP_ERROR; Tx ERR_OUT_OF_RANGE]) st.

(** ** Observations *)

Definition pixel (st : State) (i : Z) : option RGBW :=
  if i <? 0 then None
  else s ← ledStrip st; SK6812.pixels s !! Z.to_nat i.

(** The number of pixels the strip was created with. *)
Definition capacity (st : State) : Z :=
  from_option SK6812.count_led 0 (ledStrip st).

(** The frames pushed to the strip, oldest first. *)
Definition commits (tr : list Event) : list (list RGBW) :=
  omap (fun e => match e with Commit frame _ => Some frame | Tx _ => None end) tr.

(** The bytes sent to the host, oldest first. *)
Definition sent (tr : list Event) : list Z :=
  omap (fun e => match e with Tx x => Some x | Commit _ _ => None end) tr.

(** The commands that start by testing [stripInitialized]. *)
Definition guarded : list Z :=
  [CMD_SET_PIXEL_RGBW; CMD_SET_PIXEL_RGB; CMD_SET_PIXEL_W;
   CMD_SET_RANGE_RGBW; CMD_SET_ALL_RGBW; CMD_CLEAR_ALL;
   CMD_BUFFER_PIXEL; CMD_BUFFER_END;
   CMD_STREAM_START; CMD_STREAM_DATA; CMD_STREAM_END;
   CMD_BULK_UPDATE; CMD_SYNC; CMD_FILL_GRADIENT].

(** The stream session: active flag, cursor, expected count. *)
Definition session (st : State) : bool * Z * Z :=
  (streamMode st, streamIndex st, streamCount st).

(** A command that leaves an observation of the state as it found it. *)
Definition preserves {A B} (f : State -> B) (m : M A) : Prop :=
  forall st, f (m st).2 = f st.

(** * Scenarios and reference functions *)

(** A board just powered on: nothing on the wire yet, and a heap that still
    holds whatever was there before. *)
Definition idle_board : State :=
  power_on [] (fun _ => mkRGBW 170 85 170 85).

(** A board that has run [setup] and finds [wire] in its receive buffer. *)
Definition board (wire : list Z) : State :=
  set_rx ((fun x => (0, x)) <$> wire) (exec setup idle_board).

(** A board on which a stream of 5 pixels has been opened and two of them
    have been sent; one more colour is waiting on the wire. *)
Definition mid_stream : State :=
  set_rx [(0, 10); (0, 20); (0, 30); (0, 40)]
    (set_streamMode true (set_streamIndex 2 (set_streamCount 5
       (exec setup idle_board)))).

(** Two pixels sent in bulk, the second more than a second after the
    command, each less than a second after what came before it. *)
Definition slow_bulk : State :=
  set_rx [(0, 0); (0, 2);
          (1200, 10); (1200, 20); (1200, 30); (1200, 40);
          (2100, 50); (2100, 60); (2100, 70); (2100, 80)]
    (exec setup idle_board).

(** Five colours and a sixth, as a host streams them. *)
Definition six_colours : list RGBW :=
  [mkRGBW 1 2 3 4; mkRGBW 5 6 7 8; mkRGBW 9 10 11 12; mkRGBW 13 14 15 16;
   mkRGBW 17 18 19 20; mkRGBW 21 22 23 24].

Definition stream_of_six : list Request :=
  StreamStart 5 :: (StreamData <$> six_colours).

(** The indices of an indexed write are below [n]; for the two commands
    that take a range, the range is ascending. *)
Definition within (n : Z) (req : Request) : Prop :=
  match req with
  | SetPixelRGBW index _ | SetPixelRGB index _ _ _ | SetPixelW index _
  | BufferPixel index _ => index < n
  | SetRange first last _ | FillGradient first last _ _ => first <= last < n
  | _ => False
  end.

(** The strip after the writes [ws], each colour dimmed by the spec's
    rule. *)
Definition store (gb : Z) (ws : list (Z * RGBW)) (s : SK6812.t) : SK6812.t :=
  foldl (fun s iw => SK6812.set_rgbw iw.1 (dimmed_color gb iw.2) s) s ws.

(** A board that is told to drive 200 pixels, is not reinitialized, and is
    then asked to set pixel 150. *)
Definition grown : State :=
  board (payload (SetLedCount 200) ++
         payload (SetPixelRGBW 150 (mkRGBW 1 2 3 4))).

(** A board that is told to drive 200 pixels, is not reinitialized, and is
    then asked for a gradient from pixel 105 to pixel 110. *)
Definition grown_gradient : State :=
  board (payload (SetLedCount 200) ++
         payload (FillGradient 105 110 (mkRGBW 250 0 0 0) (mkRGBW 0 0 250 0))).

(** A board at half brightness, about to be asked for one colour on every
    pixel. *)
Definition half_bright : State :=
  set_globalBrightness 128 (board (payload (SetAll (mkRGBW 255 127 0 255)))).

(** * Further observations *)

(** The number of bytes the handler of a command waits for before it reads
    its payload: the first argument of its call of [waitForBytes]. *)
Definition payload_sizes : list (Z * Z) :=
  [(CMD_SET_LED_COUNT, 2); (CMD_SET_LED_PIN, 1);
   (CMD_SET_PIXEL_RGBW, 6); (CMD_SET_PIXEL_RGB, 5); (CMD_SET_PIXEL_W, 3);
   (CMD_SET_RANGE_RGBW, 8); (CMD_SET_ALL_RGBW, 4); (CMD_BUFFER_PIXEL, 6);
   (CMD_STREAM_START, 2); (CMD_STREAM_DATA, 4); (CMD_BULK_UPDATE, 2);
   (CMD_FILL_GRADIENT, 12); (CMD_BRIGHTNESS, 1)].

(** What a timeout leaves behind: the two bytes of the error, and a clock
    that has run [ms] milliseconds. *)
Definition timed_out (ms : Z) (st : State) : State :=
  set_trace (trace st ++ [Tx RESP_ERROR; Tx ERR_TIMEOUT])
    (set_clock (clock st + ms) st).

(** A board that is asked to set a pixel and gets three of the six bytes
    of the payload, the third of them late. *)
Definition starved : State :=
  set_rx [(0, 0); (0, 5); (1500, 200)] (exec setup idle_board).

(** The command bytes the dispatcher knows. *)
Definition commands : list Z :=
  [CMD_PING; CMD_GET_INFO; CMD_RESET;
   CMD_SET_LED_COUNT; CMD_SET_LED_PIN; CMD_INIT_STRIP;
   CMD_SET_PIXEL_RGBW; CMD_SET_PIXEL_RGB; CMD_SET_PIXEL_W;
   CMD_SET_RANGE_RGBW; CMD_SET_ALL_RGBW; CMD_CLEAR_ALL;
   CMD_BUFFER_START; CMD_BUFFER_PIXEL; CMD_BUFFER_END;
   CMD_STREAM_START; CMD_STREAM_DATA; CMD_STREAM_END;
   CMD_BULK_UPDATE; CMD_SYNC; CMD_FILL_GRADIENT; CMD_BRIGHTNESS].

Definition black : RGBW := mkRGBW 0 0 0 0.

(** A board with a pin number waiting on the wire. *)
Definition repinned (pin : Z) : State := board [pin].

(** The buffered pixels [ws] as a host sends them: buffer_start, one
    buffer_pixel for each, buffer_end. *)
Definition buffered (ws : list (Z * RGBW)) : list Request :=
  BufferStart :: ((fun iw => BufferPixel iw.1 iw.2) <$> ws) ++ [BufferEnd].

Definition two_pixels : list (Z * RGBW) :=
  [(3, mkRGBW 10 20 30 40); (1, mkRGBW 50 60 70 80)].

(** A bulk update of three pixels of which only the first arrives. *)
Definition cut_short : State :=
  set_rx [(0, 0); (0, 3); (0, 10); (0, 20); (0, 30); (0, 40); (0, 50)]
    (exec setup idle_board).

(** The commands that write pixels, with the two that create the strip
    anew. *)
Definition repainting : list Z :=
  [CMD_RESET; CMD_INIT_STRIP;
   CMD_SET_PIXEL_RGBW; CMD_SET_PIXEL_RGB; CMD_SET_PIXEL_W;
   CMD_SET_RANGE_RGBW; CMD_SET_ALL_RGBW; CMD_CLEAR_ALL;
   CMD_BUFFER_PIXEL; CMD_STREAM_DATA; CMD_BULK_UPDATE; CMD_FILL_GRADIENT].

(** Whether the [ledStrip] pointer points to a strip. *)
Definition allocated (st : State) : bool :=
  match ledStrip st with Some _ => true | None => false end.

(** What a strip is, apart from the colours it holds: whether it is there,
    how long it is, and the pin it drives. *)
Definition shape (st : State) : bool * Z * option Z :=
  (allocated st, capacity st, s ← ledStrip st; SK6812.output s).

(** The initialized flag being set means that the [ledStrip] pointer is
    not null. *)
Definition strip_safe (st : State) : Prop :=
  stripInitialized st = true -> allocated st = true.

(** A command that only adds to what the outside world has seen. *)
Definition extends {A} (m : M A) : Prop :=
  forall st, exists evs, trace (m st).2 = trace st ++ evs.

(** A command that sends at least one byte to the host. *)
Definition replies {A} (m : M A) : Prop :=
  forall st, exists evs x, trace (m st).2 = trace st ++ evs /\ Tx x ∈ evs.

(** A test that has sent a byte to the host whenever it answers [false]. *)
Definition replies_unless (m : M bool) : Prop :=
  forall st, exists evs,
    trace (m st).2 = trace st ++ evs /\
    ((m st).1 = false -> exists x, Tx x ∈ evs).

Definition channels (c : RGBW) : list Z := [r c; g c; b c; w c].

(** The cursor of a stream is within the count the stream was opened
    with. *)
Definition cursor_ok (st : State) : Prop :=
  0 <= streamIndex st <= streamCount st /\ streamCount st < 65536.

(** A command that keeps the cursor within the count. *)
Definition keeps_cursor {A} (m : M A) : Prop :=
  forall st, cursor_ok st -> cursor_ok (m st).2.

(** * Machine arithmetic *)

Lemma u8_small x : byte x -> u8 x = x.
Proof. unfold byte, u8. intros. apply Z.mod_small. lia. Qed.

Lemma u8_byte x : byte (u8 x).
Proof. unfold byte, u8. apply Z.mod_pos_bound. lia. Qed.

Lemma u16_small x : word x -> u16 x = x.
Proof. unfold word, u16. intros. apply Z.mod_small. lia. Qed.

Lemma lor_shifted a lo : byte lo -> Z.lor (a * 256) lo = a * 256 + lo.
Proof.
  unfold byte. intros Hlo. symmetry. apply Z.add_nocarry_lor.
  apply Z.bits_inj'. intros n Hn. rewrite Z.land_spec, Z.bits_0.
  destruct (Z.lt_ge_cases n 8) as [Hlt|Hge].
  - change 256 with (2 ^ 8). rewrite Z.mul_pow2_bits_low by lia. reflexivity.
  - rewrite (Z.bits_above_log2 lo n), andb_false_r; [reflexivity|lia|].
    destruct (Z.eq_dec lo 0) as [->|]; [simpl; lia|].
    apply Z.log2_lt_pow2; [lia|].
    apply Z.lt_le_trans with (2 ^ 8); [simpl; lia|].
    apply Z.pow_le_mono_r; lia.
Qed.

(** The detour through a 16-bit [int] does not show: two bytes read high
    byte first give the number they spell. *)
Lemma be16_spec hi lo : byte hi -> byte lo -> be16 hi lo = 256 * hi + lo.
Proof.
  intros Hhi Hlo. pose proof Hhi as Hhi'. pose proof Hlo as Hlo'.
  unfold byte in Hhi', Hlo'. unfold be16, int16, u16.
  rewrite Z.shiftl_mul_pow2 by lia. change (2 ^ 8) with 256.
  destruct (Z.lt_ge_cases hi 128).
  - rewrite (Z.mod_small (hi * 256 + 32768)) by lia.
    replace (hi * 256 + 32768 - 32768) with (hi * 256) by lia.
    rewrite lor_shifted by assumption. rewrite Z.mod_small; lia.
  - replace (hi * 256 + 32768) with ((hi * 256 - 32768) + 1 * 65536) by lia.
    rewrite Z.mod_add by lia. rewrite (Z.mod_small (hi * 256 - 32768)) by lia.
    replace (hi * 256 - 32768 - 32768) with ((hi - 256) * 256) by lia.
    rewrite lor_shifted by assumption.
    replace ((hi - 256) * 256 + lo) with (256 * hi + lo + (-1) * 65536) by lia.
    rewrite Z.mod_add by lia. rewrite Z.mod_small; lia.
Qed.

Lemma wire16_bytes x : word x -> byte (x / 256) /\ byte (x mod 256).
Proof.
  unfold word, byte. intros Hx. split.
  - split; [apply Z.div_pos; lia | apply Z.div_lt_upper_bound; lia].
  - apply Z.mod_pos_bound. lia.
Qed.

Lemma be16_wire16 x : word x -> be16 (x / 256) (x mod 256) = x.
Proof.
  intros Hx. destruct (wire16_bytes x Hx). rewrite be16_spec by assumption.
  pose proof (Z.div_mod x 256). lia.
Qed.

(** Nor does it show in the product of [applyBrightness]. *)
Lemma scale_spec c gb : byte c -> byte gb -> scale c gb = c * gb / 256.
Proof.
  unfold byte. intros Hc Hb. unfold scale, int16, u8.
  rewrite Z.shiftr_div_pow2 by lia. change (2 ^ 8) with 256.
  assert (Hp : 0 <= c * gb <= 255 * 255) by nia.
  destruct (Z.lt_ge_cases (c * gb) 32768).
  - rewrite (Z.mod_small (c * gb + 32768)) by lia.
    replace (c * gb + 32768 - 32768) with (c * gb) by lia.
    apply Z.mod_small.
    split; [apply Z.div_pos; lia | apply Z.div_lt_upper_bound; lia].
  - replace (c * gb + 32768) with ((c * gb - 32768) + 1 * 65536) by lia.
    rewrite Z.mod_add by lia. rewrite (Z.mod_small (c * gb - 32768)) by lia.
    replace (c * gb - 32768 - 32768) with (c * gb + (-256) * 256) by lia.
    rewrite Z.div_add by lia.
    replace (c * gb / 256 + -256) with (c * gb / 256 + (-1) * 256) by lia.
    rewrite Z.mod_add by lia.
    apply Z.mod_small.
    split; [apply Z.div_pos; lia | apply Z.div_lt_upper_bound; lia].
Qed.

Lemma scale_byte c gb : byte (scale c gb).
Proof. apply u8_byte. Qed.

Lemma scaled_dimmed gb c :
  byte gb -> byte_color c -> scaled gb c = dimmed_color gb c.
Proof.
  intros Hgb (Hr & Hg & Hb & Hw). unfold scaled, dimmed_color, dimmed.
  pose proof Hgb as Hgb'. unfold byte in Hgb'.
  destruct (Z.ltb_spec gb 255), (Z.eqb_spec gb 255); try lia.
  - rewrite !scale_spec by assumption. reflexivity.
  - destruct c; reflexivity.
Qed.

Lemma scaled_byte gb c : byte_color c -> byte_color (scaled gb c).
Proof.
  intros Hc. unfold scaled. destruct (gb <? 255); [|exact Hc].
  repeat split; apply scale_byte.
Qed.

Lemma scaled_off gb : scaled gb (mkRGBW 0 0 0 0) = mkRGBW 0 0 0 0.
Proof. unfold scaled. destruct (gb <? 255); reflexivity. Qed.

(** [map] from [0 .. steps] is the spec's interpolation wherever it has a
    value, that is for every [steps] but 0, and it stays between its two
    ends. *)
Lemma map_lerp i steps a b :
  steps <> 0 -> map i 0 steps a b = Some (lerp a b i steps).
Proof.
  intros Hs. unfold map, lerp. rewrite !Z.sub_0_r.
  rewrite (proj2 (Z.eqb_neq _ _) Hs), (Z.mul_comm i). f_equal. lia.
Qed.

Lemma map_undefined x m a b : map x m m a b = None.
Proof. unfold map. rewrite Z.sub_diag. reflexivity. Qed.

Lemma lerp_between a b i steps :
  0 <= i <= steps -> 0 < steps ->
  Z.min a b <= lerp a b i steps <= Z.max a b.
Proof.
  intros Hi Hs. unfold lerp.
  destruct (Z.le_gt_cases a b) as [Hab|Hab].
  - rewrite Z.quot_div_nonneg by nia.
    assert (0 <= (b - a) * i / steps <= b - a); [|lia].
    split; [apply Z.div_pos; nia|].
    apply Z.div_le_upper_bound; nia.
  - replace ((b - a) * i) with (- ((a - b) * i)) by lia.
    rewrite Z.quot_opp_l by lia. rewrite Z.quot_div_nonneg by nia.
    assert (0 <= (a - b) * i / steps <= a - b); [|lia].
    split; [apply Z.div_pos; nia|].
    apply Z.div_le_upper_bound; nia.
Qed.

Lemma lerp_byte a b i steps :
  byte a -> byte b -> 0 <= i <= steps -> 0 < steps -> byte (lerp a b i steps).
Proof.
  unfold byte. intros Ha Hb Hi Hs.
  pose proof (lerp_between a b i steps Hi Hs). lia.
Qed.

(** * The serial port *)

Local Arguments u8 : simpl never.
Local Arguments u16 : simpl never.
Local Arguments be16 : simpl never.
Local Arguments scale : simpl never.
Local Arguments map : simpl never.
Local Arguments latest : simpl never.
Local Arguments waitForBytes : simpl never.
Local Arguments wait_until : simpl never.
Local Arguments applyBrightness : simpl never.
Local Arguments Z.leb : simpl never.
Local Arguments Z.ltb : simpl never.
Local Arguments Z.gtb : simpl never.
Local Arguments Z.eqb : simpl never.

Lemma latest_cons now t x q :
  latest now ((t, x) :: q) = Z.max t (latest now q).
Proof. reflexivity. Qed.

Lemma latest_ge now q : now <= latest now q.
Proof. induction q as [|[t x] q IH]; [reflexivity|]. rewrite latest_cons. lia. Qed.

Lemma latest_le now d q : now <= d -> in_time d q -> latest now q <= d.
Proof.
  intros Hn H. induction H as [|[t x] q Ht _ IH]; [exact Hn|].
  rewrite latest_cons. simpl in Ht. lia.
Qed.

Lemma latest_in now q : in_time (latest now q) q.
Proof.
  unfold in_time. induction q as [|[t x] q IH]; [constructor|].
  rewrite latest_cons. constructor; simpl; [lia|].
  eapply List.Forall_impl; [|exact IH]. simpl. intros. lia.
Qed.

(** For bytes that are already there, there is nothing to wait for. *)
Lemma latest_buffered now q : in_time now q -> latest now q = now.
Proof.
  intros H. pose proof (latest_le now now q ltac:(lia) H).
  pose proof (latest_ge now q). lia.
Qed.

Lemma latest_later now now' q :
  now <= now' <= latest now q -> latest now' q = latest now q.
Proof.
  intros H. apply Z.le_antisymm.
  - apply latest_le; [lia|]. apply latest_in.
  - apply latest_le; [pose proof (latest_ge now' q); lia|]. apply latest_in.
Qed.

Lemma in_time_cons d t x q :
  in_time d ((t, x) :: q) -> t <= d /\ in_time d q.
Proof. intros H. inversion H; subst. split; assumption. Qed.

Lemma in_time_app d q1 q2 :
  in_time d (q1 ++ q2) <-> in_time d q1 /\ in_time d q2.
Proof. apply Forall_app. Qed.

Lemma in_time_mono d d' q : d <= d' -> in_time d q -> in_time d' q.
Proof.
  intros Hd H. eapply List.Forall_impl; [|exact H]. simpl. intros. lia.
Qed.

Lemma arrived_nonneg now q : 0 <= arrived now q.
Proof.
  induction q as [|[t x] q IH]; simpl; [lia|]. destruct (t <=? now); lia.
Qed.

Lemma arrived_all now q rest :
  latest now q <= now ->
  arrived now (q ++ rest) = Z.of_nat (length q) + arrived now rest.
Proof.
  induction q as [|[t x] q IH]; intros H; [simpl; lia|].
  rewrite latest_cons in H. pose proof (latest_ge now q).
  simpl. rewrite (proj2 (Z.leb_le t now)) by lia. rewrite IH by lia. lia.
Qed.

Lemma arrived_some now q rest :
  now < latest now q -> arrived now (q ++ rest) < Z.of_nat (length q).
Proof.
  induction q as [|[t x] q IH]; intros H; [unfold latest in H; simpl in *; lia|].
  rewrite latest_cons in H. simpl.
  destruct (Z.leb_spec t now); [|lia].
  assert (now < latest now q) as Hq by lia. specialize (IH Hq). lia.
Qed.

Lemma set_clock_id st : set_clock (clock st) st = st.
Proof. destruct st; reflexivity. Qed.

(** The polling loop comes back with [true] as soon as the last of the
    awaited bytes is there, provided that is before the budget runs out. *)
Lemma wait_loop_ok budget : forall st q rest,
  rx st = q ++ rest ->
  latest (clock st) q <= clock st + Z.of_nat budget ->
  wait_loop budget (Z.of_nat (length q)) st
  = (true, set_clock (latest (clock st) q) st).
Proof.
  induction budget as [|k IH]; intros st q rest Hrx Hlate;
    pose proof (latest_ge (clock st) q) as Hge;
    pose proof (arrived_nonneg (clock st) rest) as Hnn;
    cbn [wait_loop]; rewrite Hrx.
  - rewrite arrived_all by lia. rewrite (proj2 (Z.ltb_ge _ _)) by lia.
    replace (latest (clock st) q) with (clock st) by lia.
    rewrite set_clock_id. reflexivity.
  - destruct (Z.le_gt_cases (latest (clock st) q) (clock st)) as [Hle|Hgt].
    + rewrite arrived_all by lia. rewrite (proj2 (Z.ltb_ge _ _)) by lia.
      replace (latest (clock st) q) with (clock st) by lia.
      rewrite set_clock_id. reflexivity.
    + rewrite (proj2 (Z.ltb_lt _ _)) by (apply arrived_some; lia).
      assert (Hnext : latest (clock st + 1) q = latest (clock st) q)
        by (apply latest_later; lia).
      rewrite (IH (set_clock (clock st + 1) st) q rest Hrx).
      * cbn [clock set_clock]. rewrite Hnext. destruct st; reflexivity.
      * cbn [clock set_clock]. rewrite Hnext. lia.
Qed.

Lemma wait_until_ok st q rest count timeout :
  rx st = q ++ rest -> Z.of_nat (length q) = count -> 0 <= timeout ->
  in_time (clock st + timeout) q ->
  wait_until count (clock st) timeout st
  = (true, set_clock (latest (clock st) q) st).
Proof.
  intros Hrx <- Ht Hin. unfold wait_until, millis, get, bind.
  apply (wait_loop_ok _ _ _ rest Hrx).
  pose proof (latest_le (clock st) (clock st + timeout) q ltac:(lia) Hin). lia.
Qed.

Lemma waitForBytes_ok st q rest count timeout :
  rx st = q ++ rest -> Z.of_nat (length q) = count -> 0 <= timeout ->
  in_time (clock st + timeout) q ->
  waitForBytes count timeout st
  = (true, set_clock (latest (clock st) q) st).
Proof.
  intros. unfold waitForBytes, bind, millis, get.
  apply wait_until_ok with (rest := rest); assumption.
Qed.

Lemma applyBrightness_eq color st :
  applyBrightness color st = (scaled (globalBrightness st) color, st).
Proof.
  unfold applyBrightness, scaled, bind, get, ret.
  destruct (_ <? _); reflexivity.
Qed.

(** * Running a handler, one bind at a time *)

Section Run.
Context {A : Type}.

Lemma run_get {B} (f : State -> B) (k : B -> M A) st :
  (x <- get f ;; k x) st = k (f st) st.
Proof. reflexivity. Qed.

Lemma run_modify (f : State -> State) (k : M A) st :
  (modify f ;; k) st = k (f st).
Proof. reflexivity. Qed.

Lemma run_read t x q (k : Z -> M A) st :
  rx st = (t, x) :: q -> t <= clock st ->
  (v <- Serial.read ;; k v) st = k x (set_rx q st).
Proof.
  intros Hrx Ht. unfold bind, Serial.read. rewrite Hrx.
  rewrite (proj2 (Z.leb_le _ _)) by assumption. reflexivity.
Qed.

Lemma run_waitForBytes q rest count timeout (k : bool -> M A) st :
  rx st = q ++ rest -> Z.of_nat (length q) = count -> 0 <= timeout ->
  in_time (clock st + timeout) q ->
  (ok <- waitForBytes count timeout ;; k ok) st
  = k true (set_clock (latest (clock st) q) st).
Proof.
  intros. unfold bind. erewrite waitForBytes_ok by eassumption. reflexivity.
Qed.

Lemma run_applyBrightness color (k : RGBW -> M A) st :
  (c <- applyBrightness color ;; k c) st
  = k (scaled (globalBrightness st) color) st.
Proof. unfold bind. rewrite applyBrightness_eq. reflexivity. Qed.

End Run.

(** A handler returns nothing: it is known by the state it leaves. *)
Lemma run_unit (m : M unit) st st' : exec m st = st' -> m st = (tt, st').
Proof. unfold exec. destruct (m st) as [[] s]. cbn. congruence. Qed.

(** A payload of known length, byte by byte. *)
Ltac explode q Hq :=
  repeat (destruct q as [|[? ?] q]; try discriminate Hq);
  cbn in Hq; simplify_eq.

Ltac split_in_time :=
  repeat match goal with
         | H : in_time _ (_ :: _) |- _ => apply in_time_cons in H as [? H]
         end.

Ltac destruct_state st :=
  let strip0 := fresh "strip0" in let n0 := fresh "n0" in
  let pin0 := fresh "pin0" in let init0 := fresh "init0" in
  let gb0 := fresh "gb0" in let pos0 := fresh "pos0" in
  let mode0 := fresh "mode0" in let idx0 := fresh "idx0" in
  let cnt0 := fresh "cnt0" in let rx0 := fresh "rx0" in
  let clk0 := fresh "clk0" in let tr0 := fresh "tr0" in
  let mem0 := fresh "mem0" in
  destruct st as [strip0 n0 pin0 init0 gb0 pos0 mode0 idx0 cnt0 rx0 clk0 tr0 mem0];
  cbn in *; subst.

Ltac squash :=
  cbv beta iota delta [set_ledStrip set_ledCount set_ledPin set_stripInitialized
       set_globalBrightness set_cmdBufferPos set_streamMode set_streamIndex
       set_streamCount set_rx set_clock set_trace
       ledStrip ledCount ledPin stripInitialized globalBrightness
       cmdBufferPos streamMode streamIndex streamCount rx clock trace
       fresh_mem].

(** Wait for the payload [q] of [n] bytes and read all of it. *)
Ltac read_payload st q rest Hrx Hq Hin :=
  unfold received;
  erewrite (run_waitForBytes q rest);
    [ | exact Hrx | rewrite <- (length_fmap snd), Hq; reflexivity | lia
      | exact Hin ];
  let HL := fresh "HL" in
  pose proof (latest_in (clock st) q) as HL;
  generalize dependent (latest (clock st) q); intros;
  explode q Hq; split_in_time;
  destruct_state st;
  repeat (erewrite run_read; [ | reflexivity | cbn; lia ]);
  squash.


(** * Loops that write to the strip *)

Lemma for_loop_paint gb (ws : Z -> Z * RGBW) body n : forall i st,
  globalBrightness st = gb ->
  (forall k st', i <= k < i + Z.of_nat n -> globalBrightness st' = gb ->
     body k st'
     = (tt, set_ledStrip
              (SK6812.set_rgbw (ws k).1 (scaled gb (ws k).2) <$> ledStrip st')
              st')) ->
  for_loop n i body st
  = (tt, set_ledStrip
           (paint gb (ws <$> seqZ i (Z.of_nat n)) <$> ledStrip st) st).
Proof.
  induction n as [|n IH]; intros i st Hgb Hbody.
  - destruct st as [[s|] ? ? ? ? ? ? ? ? ? ? ? ?]; reflexivity.
  - cbn [for_loop]. unfold bind at 1. rewrite Hbody; [ | lia | exact Hgb ].
    rewrite IH.
    + rewrite (seqZ_cons i (Z.of_nat (S n))) by lia.
      replace (Z.pred (Z.of_nat (S n))) with (Z.of_nat n) by lia.
      replace (Z.succ i) with (i + 1) by lia.
      destruct st as [[s|] ? ? ? ? ? ? ? ? ? ? ? ?]; reflexivity.
    + destruct st; exact Hgb.
    + intros k st' Hk Hgb'. apply Hbody; [lia|exact Hgb'].
Qed.

(** Writing one colour from [i] on, as [cmdSetRangeRGBW], [cmdSetAllRGBW]
    and [cmdClearAll] do. *)
Lemma for_loop_fill gb c n i st :
  globalBrightness st = gb ->
  for_loop n i (fun k => ledStrip_set_rgbw k (scaled gb c)) st
  = (tt, set_ledStrip
           (paint gb ((fun k => (k, c)) <$> seqZ i (Z.of_nat n)) <$> ledStrip st)
           st).
Proof.
  intros Hgb. apply (for_loop_paint gb (fun k => (k, c))); [exact Hgb|].
  reflexivity.
Qed.

(** * The handlers, once their payload is there *)

Ltac unpack_wire :=
  repeat match goal with
         | H : delivers _ _ _ _ |- _ => destruct H as (? & ? & ?)
         | H : byte_color _ |- _ => destruct H as (? & ? & ? & ?)
         | H : word ?x |- _ =>
             lazymatch goal with
             | _ : byte (x / 256) |- _ => fail
             | _ => pose proof (wire16_bytes x H) as [? ?]
             end
         end;
  unfold wire16, wire_color in *; cbn [app r g b w] in *.

Ltac normalize_wire :=
  repeat first [ rewrite be16_wire16 by assumption
               | rewrite u8_small by assumption ].

Lemma cmdSetLedCount_run st q rest count :
  word count -> delivers st q (wire16 count) rest ->
  cmdSetLedCount st =
  (tt, let st1 := received q rest st in
       if (count >? 0) && (count <=? 1000)
       then exec (modify (set_ledCount count) ;; sendResponse RESP_OK) st1
       else exec (sendError ERR_INVALID_PARAM) st1).
Proof.
  intros Hw Hd. unpack_wire. unfold cmdSetLedCount.
  read_payload st q rest H H0 H1. normalize_wire.
  destruct (_ && _); reflexivity.
Qed.

Lemma cmdSetBrightness_run st q rest value :
  byte value -> delivers st q [value] rest ->
  cmdSetBrightness st =
  (tt, exec (modify (set_globalBrightness value) ;; sendResponse RESP_OK)
         (received q rest st)).
Proof.
  intros Hw Hd. unpack_wire. unfold cmdSetBrightness.
  read_payload st q rest H H0 H1. normalize_wire. reflexivity.
Qed.

Lemma cmdSetPixelRGBW_run st q rest index c :
  stripInitialized st = true -> word index -> byte_color c ->
  delivers st q (wire16 index ++ wire_color c) rest ->
  cmdSetPixelRGBW st =
  (tt, let st1 := received q rest st in
       if index <? ledCount st
       then exec (ledStrip_set_rgbw index (scaled (globalBrightness st) c) ;;
                  ledStrip_sync ;; sendResponse RESP_OK) st1
       else exec (sendError ERR_OUT_OF_RANGE) st1).
Proof.
  intros Hinit Hw Hc Hd. destruct c as [cr cg cb cw]. unpack_wire.
  unfold cmdSetPixelRGBW. rewrite run_get, Hinit. cbn [negb].
  read_payload st q rest H H0 H1.
  rewrite run_applyBrightness, run_get. normalize_wire.
  cbn [globalBrightness ledCount set_rx set_clock].
  destruct (_ <? _); reflexivity.
Qed.

Lemma cmdSetPixelRGB_run st q rest index cr cg cb :
  stripInitialized st = true -> word index -> byte cr -> byte cg -> byte cb ->
  delivers st q (wire16 index ++ [cr; cg; cb]) rest ->
  cmdSetPixelRGB st =
  (tt, let st1 := received q rest st in
       if index <? ledCount st
       then exec (ledStrip_set_rgbw index
                    (scaled (globalBrightness st) (mkRGBW cr cg cb 0)) ;;
                  ledStrip_sync ;; sendResponse RESP_OK) st1
       else exec (sendError ERR_OUT_OF_RANGE) st1).
Proof.
  intros Hinit Hw Hr Hg Hb Hd. unpack_wire.
  unfold cmdSetPixelRGB. rewrite run_get, Hinit. cbn [negb].
  read_payload st q rest H H0 H1.
  rewrite run_applyBrightness, run_get. normalize_wire.
  cbn [globalBrightness ledCount set_rx set_clock].
  destruct (_ <? _); reflexivity.
Qed.

Lemma cmdSetPixelW_run st q rest index cw :
  stripInitialized st = true -> word index -> byte cw ->
  delivers st q (wire16 index ++ [cw]) rest ->
  cmdSetPixelW st =
  (tt, let st1 := received q rest st in
       if index <? ledCount st
       then exec (ledStrip_set_rgbw index
                    (scaled (globalBrightness st) (mkRGBW 0 0 0 cw)) ;;
                  ledStrip_sync ;; sendResponse RESP_OK) st1
       else exec (sendError ERR_OUT_OF_RANGE) st1).
Proof.
  intros Hinit Hw Hcw Hd. unpack_wire.
  unfold cmdSetPixelW. rewrite run_get, Hinit. cbn [negb].
  read_payload st q rest H H0 H1.
  rewrite run_applyBrightness, run_get. normalize_wire.
  cbn [globalBrightness ledCount set_rx set_clock].
  destruct (_ <? _); reflexivity.
Qed.

Lemma cmdBufferPixel_run st q rest index c :
  stripInitialized st = true -> word index -> byte_color c ->
  delivers st q (wire16 index ++ wire_color c) rest ->
  cmdBufferPixel st =
  (tt, let st1 := received q rest st in
       if index <? ledCount st
       then exec (ledStrip_set_rgbw index (scaled (globalBrightness st) c) ;;
                  sendResponse RESP_OK) st1
       else exec (sendError ERR_OUT_OF_RANGE) st1).
Proof.
  intros Hinit Hw Hc Hd. destruct c as [cr cg cb cw]. unpack_wire.
  unfold cmdBufferPixel. rewrite run_get, Hinit. cbn [negb].
  read_payload st q rest H H0 H1.
  rewrite run_applyBrightness, run_get. normalize_wire.
  cbn [globalBrightness ledCount set_rx set_clock].
  destruct (_ <? _); reflexivity.
Qed.

Lemma cmdSetRangeRGBW_run st q rest first last c :
  stripInitialized st = true -> word first -> word last -> byte_color c ->
  delivers st q (wire16 first ++ wire16 last ++ wire_color c) rest ->
  cmdSetRangeRGBW st =
  (tt, let st1 := received q rest st in
       if (first <? ledCount st) && (last <? ledCount st) && (first <=? last)
       then exec (for_loop (Z.to_nat (last - first + 1)) first
                    (fun i => ledStrip_set_rgbw i
                                (scaled (globalBrightness st) c)) ;;
                  ledStrip_sync ;; sendResponse RESP_OK) st1
       else exec (sendError ERR_OUT_OF_RANGE) st1).
Proof.
  intros Hinit Hf Hl Hc Hd. destruct c as [cr cg cb cw]. unpack_wire.
  unfold cmdSetRangeRGBW. rewrite run_get, Hinit. cbn [negb].
  read_payload st q rest H H0 H1.
  rewrite run_applyBrightness, run_get. normalize_wire.
  cbn [globalBrightness ledCount set_rx set_clock].
  destruct (_ && _); apply run_unit; reflexivity.
Qed.

Lemma cmdSetAllRGBW_run st q rest c :
  stripInitialized st = true -> byte_color c ->
  delivers st q (wire_color c) rest ->
  cmdSetAllRGBW st =
  (tt, exec (for_loop (Z.to_nat (ledCount st)) 0
               (fun i => ledStrip_set_rgbw i (scaled (globalBrightness st) c)) ;;
             ledStrip_sync ;; sendResponse RESP_OK) (received q rest st)).
Proof.
  intros Hinit Hc Hd. destruct c as [cr cg cb cw]. unpack_wire.
  unfold cmdSetAllRGBW. rewrite run_get, Hinit. cbn [negb].
  read_payload st q rest H H0 H1.
  rewrite run_applyBrightness, run_get. normalize_wire.
  apply run_unit; reflexivity.
Qed.

Lemma cmdStreamStart_run st q rest count :
  stripInitialized st = true -> word count ->
  delivers st q (wire16 count) rest ->
  cmdStreamStart st =
  (tt, exec (modify (set_streamCount count) ;; modify (set_streamIndex 0) ;;
             modify (set_streamMode true) ;; sendResponse RESP_OK)
         (received q rest st)).
Proof.
  intros Hinit Hw Hd. unpack_wire.
  unfold cmdStreamStart. rewrite run_get, Hinit. cbn [negb].
  read_payload st q rest H H0 H1. normalize_wire. reflexivity.
Qed.

Lemma cmdStreamData_run st q rest c :
  stripInitialized st = true -> streamMode st = true -> byte_color c ->
  delivers st q (wire_color c) rest ->
  cmdStreamData st =
  (tt, let st1 := received q rest st in
       if (streamIndex st <? ledCount st) && (streamIndex st <? streamCount st)
       then exec (ledStrip_set_rgbw (streamIndex st)
                    (scaled (globalBrightness st) c) ;;
                  modify (set_streamIndex (u16 (streamIndex st + 1))) ;;
                  sendResponse RESP_OK) st1
       else exec (sendError ERR_OUT_OF_RANGE) st1).
Proof.
  intros Hinit Hmode Hc Hd. destruct c as [cr cg cb cw]. unpack_wire.
  unfold cmdStreamData. rewrite !run_get, Hinit, Hmode. cbn [negb orb].
  read_payload st q rest H H0 H1.
  rewrite run_applyBrightness, !run_get. normalize_wire.
  cbn [globalBrightness ledCount streamIndex streamCount set_rx set_clock].
  destruct (_ && _); reflexivity.
Qed.

Lemma gradient_byte c1 c2 steps i :
  byte_color c1 -> byte_color c2 -> 0 <= i <= steps ->
  byte_color (gradient c1 c2 steps i).
Proof.
  intros H1 H2 Hi. unfold gradient.
  destruct (Z.eqb_spec steps 0); [exact H1|].
  destruct H1 as (? & ? & ? & ?), H2 as (? & ? & ? & ?).
  repeat split; cbn [r g b w]; apply lerp_byte; solve [assumption | lia].
Qed.

Lemma cmdFillGradient_run st q rest first last c1 c2 :
  stripInitialized st = true -> word first -> word last ->
  byte_color c1 -> byte_color c2 ->
  delivers st q
    (wire16 first ++ wire16 last ++ wire_color c1 ++ wire_color c2) rest ->
  cmdFillGradient st =
  (tt, let st1 := received q rest st in
       if (first <? ledCount st) && (last <? ledCount st) && (first <=? last)
       then exec (modify (fun s => set_ledStrip
                    (paint (globalBrightness st)
                       ((fun i => (first + i, gradient c1 c2 (last - first) i))
                          <$> seqZ 0 (last - first + 1)) <$> ledStrip s) s) ;;
                  ledStrip_sync ;; sendResponse RESP_OK) st1
       else exec (sendError ERR_OUT_OF_RANGE) st1).
Proof.
  intros Hinit Hf Hl Hc1 Hc2 Hd.
  pose proof Hc1 as Hc1'. pose proof Hc2 as Hc2'.
  pose proof Hf as Hf'. pose proof Hl as Hl'. unfold word in Hf', Hl'.
  destruct c1 as [r1 g1 b1 w1], c2 as [r2 g2 b2 w2]. unpack_wire.
  unfold cmdFillGradient. rewrite run_get, Hinit. cbn [negb].
  read_payload st q rest H H0 H1.
  rewrite run_get. normalize_wire.
  cbn [globalBrightness ledCount set_rx set_clock].
  destruct (_ && _) eqn:Hrange; [|reflexivity].
  apply andb_prop in Hrange as [Hrange Hle]. apply andb_prop in Hrange as [Hlo Hhi].
  apply Z.ltb_lt in Hlo, Hhi. apply Z.leb_le in Hle.
  rewrite (u16_small (last - first)) by (unfold word; lia).
  apply run_unit. unfold exec. unfold bind at 1.
  erewrite (for_loop_paint gb0
              (fun k => (first + k,
                         gradient (mkRGBW r1 g1 b1 w1) (mkRGBW r2 g2 b2 w2)
                           (last - first) k))); [ | reflexivity | ].
  - replace (Z.of_nat (Z.to_nat (last - first + 1))) with (last - first + 1)
      by lia.
    reflexivity.
  - intros k st' Hk Hgb. cbn [fst snd].
    rewrite (u16_small (first + k)) by (unfold word; lia).
    unfold gradient. cbn [r g b w].
    destruct (Z.gtb_spec (last - first) 0), (Z.eqb_spec (last - first) 0);
      try lia.
    + rewrite !map_lerp by lia. cbn [mbind option_bind defined].
      rewrite run_applyBrightness, Hgb.
      rewrite !u8_small by (apply lerp_byte; solve [assumption | lia]).
      reflexivity.
    + cbn [defined]. rewrite run_applyBrightness, Hgb. reflexivity.
Qed.

(** * Bulk update *)

Lemma bulk_loop_run gb : forall groups cs i startTime st rest,
  Forall2 (fun q c => q.*2 = wire_color c) groups cs ->
  Forall byte_color cs ->
  globalBrightness st = gb -> startTime = clock st ->
  rx st = concat groups ++ rest ->
  paced (clock st) groups ->
  bulk_loop (length cs) i startTime 1000 st
  = (true,
     set_rx rest
       (set_clock (finished (clock st) groups)
          (set_ledStrip
             (paint gb (zip (seqZ i (Z.of_nat (length cs))) cs) <$> ledStrip st)
             st))).
Proof.
  intros groups cs i startTime st rest HF. revert i startTime st rest.
  induction HF as [|q c groups cs Hq HF IH];
    intros i startTime st rest Hcs Hgb -> Hrx Hpaced.
  - cbn. destruct st as [[s|] ? ? ? ? ? ? ? ? ? ? ? ?];
      cbn in *; subst; reflexivity.
  - apply Forall_cons_1 in Hcs as [Hc Hcs]. destruct Hpaced as [Hin Hpaced].
    cbn [length bulk_loop]. unfold bind at 1.
    cbn [concat] in Hrx. rewrite <- app_assoc in Hrx.
    erewrite wait_until_ok;
      [ | exact Hrx | rewrite <- (length_fmap snd), Hq; reflexivity | lia
        | exact Hin ].
    cbn [finished].
    pose proof (latest_in (clock st) q) as HL.
    generalize dependent (latest (clock st) q). intros now Hpaced HL.
    destruct c as [cr cg cb cw]. destruct Hc as (? & ? & ? & ?).
    unfold wire_color in Hq. cbn [r g b w] in *.
    explode q Hq. split_in_time. destruct_state st.
    repeat (erewrite run_read; [ | reflexivity | cbn; lia ]). squash.
    rewrite run_applyBrightness. normalize_wire.
    unfold bind at 1. cbn [ledStrip_set_rgbw modify]. unfold millis.
    rewrite run_get. squash.
    erewrite IH; [ | assumption | reflexivity | reflexivity | reflexivity
                   | exact Hpaced ].
    rewrite (seqZ_cons i) by lia.
    replace (Z.pred (Z.of_nat (S (length cs)))) with (Z.of_nat (length cs))
      by lia.
    replace (Z.succ i) with (i + 1) by lia.
    destruct strip0; reflexivity.
Qed.

Lemma cmdBulkUpdate_rejected st q rest count :
  stripInitialized st = true -> word count ->
  delivers st q (wire16 count) rest ->
  ledCount st < count ->
  cmdBulkUpdate st
  = (tt, exec (sendError ERR_OUT_OF_RANGE) (received q rest st)).
Proof.
  intros Hinit Hw Hd Hn. unpack_wire.
  unfold cmdBulkUpdate. rewrite run_get, Hinit. cbn [negb].
  read_payload st q rest H H0 H1.
  rewrite run_get. normalize_wire. cbn [ledCount set_rx set_clock].
  rewrite (proj2 (Z.gtb_gt _ _)) by lia. reflexivity.
Qed.

Lemma cmdBulkUpdate_run st q groups rest cs :
  stripInitialized st = true ->
  word (Z.of_nat (length cs)) -> Forall byte_color cs ->
  delivers st q (wire16 (Z.of_nat (length cs))) (concat groups ++ rest) ->
  Forall2 (fun q c => q.*2 = wire_color c) groups cs ->
  paced (latest (clock st) q) groups ->
  Z.of_nat (length cs) <= ledCount st ->
  cmdBulkUpdate st
  = (tt,
     exec (ledStrip_sync ;; sendResponse RESP_OK)
       (set_rx rest
          (set_clock (finished (latest (clock st) q) groups)
             (set_ledStrip
                (paint (globalBrightness st)
                   (zip (seqZ 0 (Z.of_nat (length cs))) cs) <$> ledStrip st)
                (exec (sendResponse RESP_OK) st))))).
Proof.
  intros Hinit Hw Hcs Hd HF Hpaced Hn. unpack_wire.
  unfold cmdBulkUpdate. rewrite run_get, Hinit. cbn [negb].
  unfold received.
  erewrite (run_waitForBytes q (concat groups ++ rest));
    [ | eassumption | rewrite <- (length_fmap snd), H0; reflexivity | lia
      | assumption ].
  pose proof (latest_in (clock st) q) as HL.
  generalize dependent (latest (clock st) q). intros now Hpaced HL.
  explode q H0. split_in_time. destruct_state st.
  repeat (erewrite run_read; [ | reflexivity | cbn; lia ]). squash.
  rewrite run_get. normalize_wire. cbn [ledCount set_rx set_clock].
  rewrite Z.gtb_ltb, (proj2 (Z.ltb_ge _ _)) by lia.
  unfold bind at 1. cbn [sendResponse Serial.write modify]. unfold millis.
  rewrite run_get. squash.
  rewrite Nat2Z.id. unfold bind at 1.
  erewrite (bulk_loop_run gb0);
    [ | exact HF | assumption | reflexivity | reflexivity | reflexivity
      | exact Hpaced ].
  apply run_unit. reflexivity.
Qed.

(** * From the whole payload of a bulk update to its groups *)

Lemma latest_max t now q : Z.max t (latest now q) = latest (Z.max t now) q.
Proof.
  induction q as [|[t' x] q IH]; [reflexivity|].
  rewrite !latest_cons, <- IH. lia.
Qed.

Lemma latest_app now q1 q2 :
  latest now (q1 ++ q2) = latest (latest now q1) q2.
Proof.
  induction q1 as [|[t x] q1 IH]; [reflexivity|].
  cbn [app]. rewrite !latest_cons, IH. apply latest_max.
Qed.

Lemma finished_latest groups : forall now,
  finished now groups = latest now (concat groups).
Proof.
  induction groups as [|q groups IH]; intros now; [reflexivity|].
  cbn [finished concat]. rewrite IH, latest_app. reflexivity.
Qed.

Lemma split_groups d cs : forall q,
  q.*2 = concat (wire_color <$> cs) -> in_time d q ->
  exists groups,
    q = concat groups /\
    Forall2 (fun q c => q.*2 = wire_color c) groups cs /\
    Forall (in_time d) groups.
Proof.
  induction cs as [|c cs IH]; intros q Hq Hin.
  - destruct q; [|discriminate]. exists []. repeat constructor.
  - cbn in Hq.
    destruct q as [|[t1 x1] [|[t2 x2] [|[t3 x3] [|[t4 x4] q]]]];
      try discriminate.
    cbn in Hq. injection Hq as ? ? ? ? Hq. subst.
    split_in_time.
    destruct (IH q Hq Hin) as (groups & -> & HF & Hall).
    exists ([(t1, r c); (t2, g c); (t3, b c); (t4, w c)] :: groups).
    split; [reflexivity|]. split.
    + constructor; [reflexivity|exact HF].
    + constructor; [|exact Hall]. repeat constructor; assumption.
Qed.

Lemma paced_in_time start groups : forall now,
  start <= now -> Forall (in_time (start + 1000)) groups -> paced now groups.
Proof.
  induction groups as [|q groups IH]; intros now Hnow Hall; [exact I|].
  apply Forall_cons_1 in Hall as [Hq Hall]. split.
  - eapply in_time_mono; [|exact Hq]. lia.
  - apply IH; [|exact Hall]. pose proof (latest_ge now q). lia.
Qed.

(** * Pixels after a run of writes *)

Lemma set_rgbw_length i c s :
  length (SK6812.pixels (SK6812.set_rgbw i c s)) = length (SK6812.pixels s).
Proof.
  unfold SK6812.set_rgbw. destruct (_ <? _); [|reflexivity].
  cbn. apply length_insert.
Qed.

Lemma set_rgbw_output i c s :
  SK6812.output (SK6812.set_rgbw i c s) = SK6812.output s.
Proof. unfold SK6812.set_rgbw. destruct (_ <? _); reflexivity. Qed.

Lemma set_rgbw_count i c s :
  SK6812.count_led (SK6812.set_rgbw i c s) = SK6812.count_led s.
Proof. unfold SK6812.count_led. rewrite set_rgbw_length. reflexivity. Qed.

Lemma set_rgbw_lookup_ne i c s j :
  Z.to_nat i <> j ->
  SK6812.pixels (SK6812.set_rgbw i c s) !! j = SK6812.pixels s !! j.
Proof.
  intros Hne. unfold SK6812.set_rgbw. destruct (_ <? _); [|reflexivity].
  cbn. apply list_lookup_insert_ne. exact Hne.
Qed.

Lemma set_rgbw_lookup_eq i c s :
  0 <= i < SK6812.count_led s ->
  SK6812.pixels (SK6812.set_rgbw i c s) !! Z.to_nat i = Some c.
Proof.
  intros [H0 Hi]. unfold SK6812.set_rgbw. rewrite (proj2 (Z.ltb_lt _ _)) by exact Hi.
  cbn. apply list_lookup_insert_eq. unfold SK6812.count_led in Hi. lia.
Qed.

Lemma paint_cons gb iw ws s :
  paint gb (iw :: ws) s = paint gb ws (SK6812.set_rgbw iw.1 (scaled gb iw.2) s).
Proof. reflexivity. Qed.

Lemma paint_count gb ws : forall s,
  SK6812.count_led (paint gb ws s) = SK6812.count_led s.
Proof.
  induction ws as [|iw ws IH]; intros s; [reflexivity|].
  rewrite paint_cons, IH. apply set_rgbw_count.
Qed.

Lemma paint_output gb ws : forall s,
  SK6812.output (paint gb ws s) = SK6812.output s.
Proof.
  induction ws as [|iw ws IH]; intros s; [reflexivity|].
  rewrite paint_cons, IH. apply set_rgbw_output.
Qed.

(** A pixel no write names keeps its colour. *)
Lemma paint_miss gb ws : forall s j,
  Forall (fun iw => Z.to_nat iw.1 <> j) ws ->
  SK6812.pixels (paint gb ws s) !! j = SK6812.pixels s !! j.
Proof.
  induction ws as [|iw ws IH]; intros s j Hall; [reflexivity|].
  apply Forall_cons_1 in Hall as [Hne Hall].
  rewrite paint_cons, IH by exact Hall. apply set_rgbw_lookup_ne. exact Hne.
Qed.

(** A pixel of the strip that one write names, and no other, holds the
    scaled colour of that write. *)
Lemma paint_hit gb ws : forall s i c,
  NoDup ws.*1 -> Forall (fun iw => 0 <= iw.1) ws ->
  (i, c) ∈ ws -> i < SK6812.count_led s ->
  SK6812.pixels (paint gb ws s) !! Z.to_nat i = Some (scaled gb c).
Proof.
  induction ws as [|iw ws IH]; intros s i c Hnd Hpos Hin Hi.
  - apply elem_of_nil in Hin. contradiction.
  - cbn [fmap list_fmap] in Hnd. apply list.NoDup_cons in Hnd as [Hfresh Hnd].
    apply Forall_cons_1 in Hpos as [Hpos0 Hpos].
    rewrite paint_cons. apply elem_of_cons in Hin as [<-|Hin].
    + cbn [fst snd] in *. rewrite paint_miss.
      * apply set_rgbw_lookup_eq. split; assumption.
      * apply list.Forall_forall. intros [j cj] Hj Heq. cbn [fst] in Heq.
        rewrite list.Forall_forall in Hpos. specialize (Hpos _ Hj). cbn in Hpos.
        assert (j = i) as -> by lia.
        apply Hfresh. apply list_elem_of_fmap. exists (i, cj). split; [reflexivity|assumption].
    + apply IH; [assumption..|]. rewrite set_rgbw_count. exact Hi.
Qed.

(** * Write requests: the code does what [outcome] says *)

Lemma seqZ_to_nat m n : seqZ m (Z.of_nat (Z.to_nat n)) = seqZ m n.
Proof. unfold seqZ. rewrite Nat2Z.id. reflexivity. Qed.

Lemma received_nil rest st : rx st = rest -> received [] rest st = st.
Proof. intros <-. destruct st; reflexivity. Qed.

Lemma exec_fill gb c n i (k : M unit) st :
  globalBrightness st = gb ->
  exec (for_loop (Z.to_nat n) i
          (fun j => ledStrip_set_rgbw j (scaled gb c)) ;; k) st
  = exec k (set_ledStrip
              (paint gb ((fun j => (j, c)) <$> seqZ i n) <$> ledStrip st) st).
Proof.
  intros Hgb. unfold exec. unfold bind at 1.
  rewrite (for_loop_fill gb) by exact Hgb. rewrite seqZ_to_nat. reflexivity.
Qed.

Lemma exec_clear gb n i (k : M unit) st :
  globalBrightness st = gb ->
  exec (for_loop (Z.to_nat n) i
          (fun j => ledStrip_set_rgbw j (mkRGBW 0 0 0 0)) ;; k) st
  = exec k (set_ledStrip
              (paint gb ((fun j => (j, mkRGBW 0 0 0 0)) <$> seqZ i n)
                 <$> ledStrip st) st).
Proof.
  intros Hgb. unfold exec. unfold bind at 1.
  rewrite (for_loop_paint gb (fun j => (j, mkRGBW 0 0 0 0))).
  - rewrite seqZ_to_nat. reflexivity.
  - exact Hgb.
  - intros j st' _ _. cbn [fst snd]. rewrite scaled_off. reflexivity.
Qed.

Ltac cases_state st :=
  destruct st as [[?s|] ?n ?pin ?init ?gb ?pos ?mode ?idx ?cnt ?rx ?clk ?tr ?mem].

Ltac same_state :=
  unfold outcome, received, exec; cbn; rewrite <- ?app_assoc; try reflexivity.

Lemma write_run st q rest req :
  stripInitialized st = true -> writes req = true -> well_formed req ->
  streaming st req ->
  delivers st q (payload req) rest ->
  in_range st req = true \/ (forall cs, req <> BulkUpdate cs) ->
  processCommand (opcode req) st = (tt, outcome req (received q rest st)).
Proof.
  intros Hinit Hwr Hwf Hstream Hd Hbulk.
  destruct req; try discriminate Hwr; cbn [well_formed payload streaming] in *.
  - (* set_pixel, RGBW *)
    destruct Hwf. change (processCommand _) with cmdSetPixelRGBW.
    rewrite (cmdSetPixelRGBW_run st q rest index c) by assumption.
    f_equal. cases_state st; same_state.
    all: destruct (_ <? _); reflexivity.
  - (* set_pixel, RGB *)
    destruct Hwf as (? & ? & ? & ?). change (processCommand _) with cmdSetPixelRGB.
    rewrite (cmdSetPixelRGB_run st q rest index cr cg cb) by assumption.
    f_equal. cases_state st; same_state.
    all: destruct (_ <? _); reflexivity.
  - (* set_pixel, W *)
    destruct Hwf. change (processCommand _) with cmdSetPixelW.
    rewrite (cmdSetPixelW_run st q rest index cw) by assumption.
    f_equal. cases_state st; same_state.
    all: destruct (_ <? _); reflexivity.
  - (* set_range *)
    destruct Hwf as (? & ? & ?). change (processCommand _) with cmdSetRangeRGBW.
    rewrite (cmdSetRangeRGBW_run st q rest first last c) by assumption.
    f_equal. cbv zeta. destruct (_ && _) eqn:Hr.
    + rewrite exec_fill by (destruct st; reflexivity).
      unfold outcome. cbn [in_range asked]. 
      replace (_ && _) with true by (destruct st; exact (eq_sym Hr)).
      cases_state st; same_state.
    + unfold outcome. cbn [in_range asked]. 
      replace (_ && _) with false by (destruct st; exact (eq_sym Hr)).
      cases_state st; same_state.
  - (* set_all *)
    change (processCommand _) with cmdSetAllRGBW.
    rewrite (cmdSetAllRGBW_run st q rest c) by assumption.
    f_equal. rewrite exec_fill by (destruct st; reflexivity).
    cases_state st; same_state.
  - (* clear_all *)
    destruct Hd as (Hrx & Hq & _). destruct q; [|discriminate]. cbn in Hrx.
    rewrite received_nil by exact Hrx.
    change (processCommand _) with cmdClearAll. unfold cmdClearAll.
    rewrite run_get, Hinit. cbn [negb]. rewrite run_get.
    apply run_unit.
    rewrite (exec_clear (globalBrightness st)) by reflexivity.
    cases_state st; same_state.
  - (* buffer_pixel *)
    destruct Hwf. change (processCommand _) with cmdBufferPixel.
    rewrite (cmdBufferPixel_run st q rest index c) by assumption.
    f_equal. cases_state st; same_state.
    all: destruct (_ <? _); reflexivity.
  - (* stream_data *)
    change (processCommand _) with cmdStreamData.
    rewrite (cmdStreamData_run st q rest c) by assumption.
    f_equal. cases_state st; same_state.
    all: destruct (_ && _); reflexivity.
  - (* bulk_update *)
    destruct Hbulk as [Hr|Hne]; [|exfalso; exact (Hne cs eq_refl)].
    destruct Hwf as [Hw Hcs]. cbn [in_range] in Hr. apply Z.leb_le in Hr.
    destruct Hd as (Hrx & Hq & Hin).
    unfold wire16 in Hq.
    destruct q as [|[t1 x1] [|[t2 x2] q]]; try discriminate.
    cbn in Hq. injection Hq as -> -> Hq.
    apply in_time_cons in Hin as [Ht1 Hin]. apply in_time_cons in Hin as [Ht2 Hin].
    destruct (split_groups _ _ _ Hq Hin) as (groups & -> & HF & Hall).
    change (processCommand _) with cmdBulkUpdate.
    rewrite (cmdBulkUpdate_run st
               [(t1, Z.of_nat (length cs) / 256); (t2, Z.of_nat (length cs) mod 256)]
               groups rest cs); try assumption.
    + f_equal. unfold received.
      change ((t1, Z.of_nat (length cs) / 256)
              :: (t2, Z.of_nat (length cs) mod 256) :: concat groups)
        with ([(t1, Z.of_nat (length cs) / 256);
               (t2, Z.of_nat (length cs) mod 256)] ++ concat groups).
      rewrite latest_app, <- finished_latest.
      unfold outcome. cbn [in_range]. rewrite (proj2 (Z.leb_le _ _)) by (destruct st; exact Hr).
      cases_state st; same_state.
    + split; [exact Hrx|]. split; [reflexivity|]. repeat constructor; assumption.
    + apply (paced_in_time (clock st)); [apply latest_ge|exact Hall].
  - (* fill_gradient *)
    destruct Hwf as (? & ? & ? & ?). change (processCommand _) with cmdFillGradient.
    rewrite (cmdFillGradient_run st q rest first last c1 c2) by assumption.
    f_equal. cases_state st; same_state.
    all: destruct (_ && _); reflexivity.
Qed.

(** * Initialisation *)

(** Once every pixel of a strip has been written with black, the strip is
    black, whatever the heap held. *)
Lemma paint_black gb n s :
  SK6812.count_led s = Z.of_nat n ->
  SK6812.pixels
    (paint gb ((fun j => (j, mkRGBW 0 0 0 0)) <$> seqZ 0 (Z.of_nat n)) s)
  = replicate n (mkRGBW 0 0 0 0).
Proof.
  intros Hn. apply list_eq. intros j.
  destruct (Nat.lt_ge_cases j n) as [Hj|Hj].
  - rewrite lookup_replicate_2 by exact Hj.
    pose proof (paint_hit gb
      ((fun j => (j, mkRGBW 0 0 0 0)) <$> seqZ 0 (Z.of_nat n)) s
      (Z.of_nat j) (mkRGBW 0 0 0 0)) as Hhit.
    rewrite Nat2Z.id, scaled_off in Hhit. apply Hhit.
    + rewrite <- list_fmap_compose. apply NoDup_fmap_2; [|apply NoDup_seqZ].
      intros x y Hxy. exact Hxy.
    + apply list.Forall_forall. intros [i c] Hi.
      apply list_elem_of_fmap in Hi as (k & [= -> ->] & Hk).
      apply elem_of_seqZ in Hk. cbn. lia.
    + apply list_elem_of_fmap. exists (Z.of_nat j). split; [reflexivity|].
      apply elem_of_seqZ. lia.
    + lia.
  - rewrite (lookup_ge_None_2 (replicate _ _)) by (rewrite length_replicate; lia).
    apply lookup_ge_None_2.
    pose proof (paint_count gb ((fun j => (j, mkRGBW 0 0 0 0)) <$> seqZ 0 (Z.of_nat n)) s) as Hc.
    unfold SK6812.count_led in *. lia.
Qed.

Lemma exec_modify {A} f (k : M A) st : exec (modify f ;; k) st = exec k (f st).
Proof. reflexivity. Qed.

Lemma exec_get {A B} (f : State -> B) (k : B -> M A) st :
  exec (x <- get f ;; k x) st = exec (k (f st)) st.
Proof. reflexivity. Qed.

Lemma initializeStrip_run count pin st :
  initializeStrip count pin st
  = (tt,
     let black := replicate (Z.to_nat count) (mkRGBW 0 0 0 0) in
     set_stripInitialized true
       (set_trace (trace st ++ [Commit black (Some pin)])
          (set_ledStrip (Some (SK6812.mk black (Some pin)))
             (set_ledPin pin (set_ledCount count st))))).
Proof.
  assert (Hblack :
    paint (globalBrightness st)
      ((fun j => (j, mkRGBW 0 0 0 0)) <$> seqZ 0 count)
      (SK6812.set_output pin (SK6812.new count (fresh_mem st)))
    = SK6812.mk (replicate (Z.to_nat count) (mkRGBW 0 0 0 0)) (Some pin)).
  { rewrite <- (seqZ_to_nat 0 count).
    set (s := SK6812.set_output pin (SK6812.new count (fresh_mem st))).
    pose proof (paint_black (globalBrightness st) (Z.to_nat count) s) as Hp.
    pose proof (paint_output (globalBrightness st)
      ((fun j => (j, mkRGBW 0 0 0 0)) <$> seqZ 0 (Z.of_nat (Z.to_nat count))) s)
      as Ho.
    destruct (paint _ _ s) as [px out]. cbn in Hp, Ho. rewrite Hp, Ho.
    - reflexivity.
    - unfold SK6812.count_led, s, SK6812.new. cbn.
      rewrite length_fmap, length_seq. reflexivity. }
  apply run_unit. unfold initializeStrip, ledStrip_set_output.
  rewrite !exec_modify, exec_get, exec_modify, exec_get, exec_modify.
  rewrite (exec_clear (globalBrightness st)) by reflexivity.
  destruct_state st.
  unfold exec, bind, ledStrip_sync, modify. cbn [snd].
  squash. cbn [fmap option_fmap option_map]. rewrite Hblack. reflexivity.
Qed.

(** * What a command leaves alone *)

Section Preserves.
Context {B : Type} (f : State -> B).

Lemma preserves_ret {A} (a : A) : preserves f (ret a).
Proof. intros st. reflexivity. Qed.

Lemma preserves_bind {A C} (m : M A) (k : A -> M C) :
  preserves f m -> (forall a, preserves f (k a)) -> preserves f (x <- m ;; k x).
Proof.
  intros Hm Hk st. unfold bind. specialize (Hm st).
  destruct (m st) as [a st']. rewrite Hk. exact Hm.
Qed.

Lemma preserves_get {A} (g : State -> A) : preserves f (get g).
Proof. intros st. reflexivity. Qed.

Lemma preserves_modify (g : State -> State) :
  (forall st, f (g st) = f st) -> preserves f (modify g).
Proof. intros Hg st. apply Hg. Qed.

Lemma preserves_if {A} (c : bool) (m1 m2 : M A) :
  preserves f m1 -> preserves f m2 -> preserves f (if c then m1 else m2).
Proof. destruct c; intros; assumption. Qed.

Lemma preserves_unless {A} (cmd c : Z) (m1 m2 : M A) :
  (cmd = c -> preserves f m1) -> preserves f m2 ->
  preserves f (if cmd =? c then m1 else m2).
Proof. intros H1 H2. destruct (Z.eqb_spec cmd c); auto. Qed.

Lemma preserves_defined {A} (v : option A) (k : A -> M unit) :
  (forall a, preserves f (k a)) -> preserves f (defined v k).
Proof. intros Hk. destruct v; [apply Hk|apply preserves_ret]. Qed.

Lemma preserves_for_loop body n : forall i,
  (forall j, preserves f (body j)) -> preserves f (for_loop n i body).
Proof.
  induction n as [|n IH]; intros i Hbody; cbn [for_loop].
  - apply preserves_ret.
  - apply preserves_bind; [apply Hbody|]. intros _. apply IH. exact Hbody.
Qed.

(** The fields the serial port, the clock and the strip have no part in. *)
Hypothesis f_rx : forall v st, f (set_rx v st) = f st.
Hypothesis f_clock : forall v st, f (set_clock v st) = f st.
Hypothesis f_trace : forall v st, f (set_trace v st) = f st.
Hypothesis f_ledStrip : forall v st, f (set_ledStrip v st) = f st.

Lemma preserves_read : preserves f Serial.read.
Proof.
  intros st. unfold Serial.read. destruct (rx st) as [|[t x] q']; [reflexivity|].
  destruct (t <=? clock st); [apply f_rx|reflexivity].
Qed.

Lemma preserves_write x : preserves f (Serial.write x).
Proof. apply preserves_modify. intros st. apply f_trace. Qed.

Lemma preserves_sendResponse x : preserves f (sendResponse x).
Proof. apply preserves_write. Qed.

Lemma preserves_sendError x : preserves f (sendError x).
Proof.
  apply preserves_bind; [apply preserves_write|]. intros _. apply preserves_write.
Qed.

Lemma preserves_wait_loop count budget : preserves f (wait_loop budget count).
Proof.
  induction budget as [|k IH]; intros st; cbn [wait_loop];
    destruct (_ <? _); try reflexivity.
  - apply (preserves_bind _ _ (preserves_sendError _)). intros _.
    apply preserves_ret.
  - rewrite IH. apply f_clock.
Qed.

Lemma preserves_wait_until count startTime timeout :
  preserves f (wait_until count startTime timeout).
Proof.
  apply preserves_bind; [apply preserves_get|]. intros now.
  apply preserves_wait_loop.
Qed.

Lemma preserves_waitForBytes count timeout :
  preserves f (waitForBytes count timeout).
Proof.
  apply preserves_bind; [apply preserves_get|]. intros now.
  apply preserves_wait_until.
Qed.

Lemma preserves_applyBrightness c : preserves f (applyBrightness c).
Proof.
  apply preserves_bind; [apply preserves_get|]. intros gb.
  apply preserves_if; apply preserves_ret.
Qed.

Lemma preserves_set_rgbw i c : preserves f (ledStrip_set_rgbw i c).
Proof. apply preserves_modify. intros st. apply f_ledStrip. Qed.

Lemma preserves_set_output pin : preserves f (ledStrip_set_output pin).
Proof. apply preserves_modify. intros st. apply f_ledStrip. Qed.

Lemma preserves_sync : preserves f ledStrip_sync.
Proof.
  apply preserves_modify. intros st. destruct (ledStrip st); [apply f_trace|reflexivity].
Qed.

End Preserves.

Ltac frame_tac := intros; reflexivity.

Ltac preserve_step :=
  lazymatch goal with
  | |- preserves _ (bind _ _) => apply preserves_bind; [|intros ?]
  | |- preserves _ (ret _) => apply preserves_ret
  | |- preserves _ (get _) => apply preserves_get
  | |- preserves _ millis => apply preserves_get
  | |- preserves _ (modify _) => apply preserves_modify; frame_tac
  | |- preserves _ Serial.read => apply preserves_read; frame_tac
  | |- preserves _ (Serial.write _) => apply preserves_write; frame_tac
  | |- preserves _ (sendResponse _) => apply preserves_sendResponse; frame_tac
  | |- preserves _ (sendError _) => apply preserves_sendError; frame_tac
  | |- preserves _ (waitForBytes _ _) => apply preserves_waitForBytes; frame_tac
  | |- preserves _ (wait_until _ _ _) => apply preserves_wait_until; frame_tac
  | |- preserves _ (applyBrightness _) => apply preserves_applyBrightness
  | |- preserves _ (ledStrip_set_rgbw _ _) => apply preserves_set_rgbw; frame_tac
  | |- preserves _ (ledStrip_set_output _) =>
      apply preserves_set_output; frame_tac
  | |- preserves _ ledStrip_sync => apply preserves_sync; frame_tac
  | |- preserves _ (for_loop _ _ _) => apply preserves_for_loop; intros ?
  | |- preserves _ (defined _ _) => apply preserves_defined; intros ?
  | |- preserves _ (if _ then _ else _) => apply preserves_if
  | |- preserves _ (let _ := _ in _) => cbv zeta
  end.

Ltac preserve := repeat preserve_step.

Ltac unfold_handlers :=
  unfold sendInfo, initializeStrip, cmdSetLedCount, cmdSetLedPin,
    cmdSetPixelRGBW, cmdSetPixelRGB, cmdSetPixelW, cmdSetRangeRGBW,
    cmdSetAllRGBW, cmdClearAll, cmdBufferStart, cmdBufferPixel, cmdBufferEnd,
    cmdStreamStart, cmdStreamData, cmdStreamEnd, cmdBulkUpdate,
    cmdFillGradient, cmdSetBrightness.

Lemma bulk_loop_session n : forall i startTime timeout,
  preserves session (bulk_loop n i startTime timeout).
Proof.
  induction n as [|n IH]; intros i startTime timeout; cbn [bulk_loop].
  - apply preserves_ret.
  - preserve. apply IH.
Qed.

(** No command but the three stream commands touches the stream session. *)
Lemma session_kept cmd :
  cmd <> CMD_STREAM_START -> cmd <> CMD_STREAM_DATA -> cmd <> CMD_STREAM_END ->
  preserves session (processCommand cmd).
Proof.
  intros H1 H2 H3. unfold processCommand.
  repeat lazymatch goal with
         | |- preserves _ (if _ =? _ then _ else _) =>
             apply preserves_unless; [intros Hc|]
         end.
  all: try (exfalso; congruence).
  all: unfold_handlers; preserve.
  apply bulk_loop_session.
Qed.

(** Stream data moves the cursor, and nothing else of the session. *)
Lemma stream_data_session :
  preserves (fun st => (streamMode st, streamCount st)) cmdStreamData.
Proof. unfold cmdStreamData. preserve. Qed.

(** * Reading off an outcome *)

Lemma pixel_nonneg st i :
  0 <= i ->
  pixel st i = (s ← ledStrip st; SK6812.pixels s !! Z.to_nat i).
Proof. intros Hi. unfold pixel. rewrite (proj2 (Z.ltb_ge _ _)) by lia. reflexivity. Qed.

Lemma pixel_same st st' : ledStrip st' = ledStrip st -> forall i, pixel st' i = pixel st i.
Proof. intros H i. unfold pixel. rewrite H. reflexivity. Qed.

(** After a run of writes to distinct indices: a pixel of the strip that
    is written holds the scaled colour, any other pixel is as before. *)
Lemma pixel_painted st st' gb ws i c :
  ledStrip st' = paint gb ws <$> ledStrip st ->
  NoDup ws.*1 -> Forall (fun iw => 0 <= iw.1) ws ->
  (i, c) ∈ ws -> i < capacity st ->
  pixel st' i = Some (scaled gb c).
Proof.
  intros Hst Hnd Hpos Hin Hi.
  assert (0 <= i) as Hi0.
  { rewrite list.Forall_forall in Hpos. apply (Hpos _ Hin). }
  rewrite pixel_nonneg by exact Hi0. rewrite Hst.
  unfold capacity in Hi. destruct (ledStrip st) as [s|]; cbn in *; [|lia].
  apply paint_hit; assumption.
Qed.

Lemma pixel_unpainted st st' gb ws i :
  ledStrip st' = paint gb ws <$> ledStrip st ->
  Forall (fun iw => 0 <= iw.1) ws -> i ∉ ws.*1 ->
  pixel st' i = pixel st i.
Proof.
  intros Hst Hpos Hout. unfold pixel. destruct (i <? 0) eqn:Hi; [reflexivity|].
  apply Z.ltb_ge in Hi. rewrite Hst.
  destruct (ledStrip st) as [s|]; cbn; [|reflexivity].
  apply paint_miss. apply list.Forall_forall. intros [j cj] Hj Heq.
  rewrite list.Forall_forall in Hpos. specialize (Hpos _ Hj). cbn in *.
  apply Hout. apply list_elem_of_fmap. exists (j, cj). split; [cbn; lia|exact Hj].
Qed.

Lemma outcome_accepted req st :
  in_range st req = true ->
  ledStrip (outcome req st)
  = paint (globalBrightness st) (asked st req) <$> ledStrip st /\
  trace (outcome req st) = trace st ++ answer req (outcome req st) /\
  rx (outcome req st) = rx st /\ clock (outcome req st) = clock st /\
  stripInitialized (outcome req st) = stripInitialized st /\
  ledCount (outcome req st) = ledCount st /\
  globalBrightness (outcome req st) = globalBrightness st.
Proof.
  intros Hr. unfold outcome. rewrite Hr.
  destruct req; cbn; repeat split; reflexivity.
Qed.

Lemma outcome_rejected req st :
  in_range st req = false ->
  outcome req st
  = set_trace (trace st ++ [Tx RESP_ERROR; Tx ERR_OUT_OF_RANGE]) st.
Proof. intros Hr. unfold outcome. rewrite Hr. reflexivity. Qed.

Lemma capacity_received q rest st : capacity (received q rest st) = capacity st.
Proof. reflexivity. Qed.

Lemma pixel_received q rest st i : pixel (received q rest st) i = pixel st i.
Proof. reflexivity. Qed.

Lemma indices_writes req :
  indices req <> [] -> writes req = true /\ forall cs, req <> BulkUpdate cs.
Proof. destruct req; cbn; intros H; try contradiction; split; congruence. Qed.

Lemma indices_streaming req st : indices req <> [] -> streaming st req.
Proof. destruct req; cbn; intros H; try contradiction; exact I. Qed.

Lemma indices_in_range st req index :
  index ∈ indices req -> ledCount st <= index -> in_range st req = false.
Proof.
  intros Hin Hn.
  destruct req; cbn in *; try (apply elem_of_nil in Hin; contradiction).
  all: repeat (apply elem_of_cons in Hin as [->|Hin]);
    try (apply elem_of_nil in Hin; contradiction).
  all: rewrite (proj2 (Z.ltb_ge _ _) Hn), ?andb_false_r; reflexivity.
Qed.

Lemma exec_bind {A B} (m : M A) (k : A -> M B) st a st' :
  m st = (a, st') -> exec (x <- m ;; k x) st = exec (k a) st'.
Proof. unfold exec, bind. intros ->. reflexivity. Qed.

(** * Reset and the initialisation guard *)

(** C8. From every state, the reset command sets the LED count to the
    default count (107), the pin to the default pin (6) and the global
    brightness to 255, leaves a freshly created strip of 107 black pixels
    (whatever the heap held), marks the store initialized, commits the
    cleared buffer and then acknowledges with OK. *)
Theorem reset_restores_defaults st :
  let st' := exec (processCommand CMD_RESET) st in
  let black := replicate 107 (mkRGBW 0 0 0 0) in
  ledCount st' = DEFAULT_LED_COUNT /\
  ledPin st' = DEFAULT_LED_PIN /\
  globalBrightness st' = 255 /\
  ledStrip st' = Some (SK6812.mk black (Some DEFAULT_LED_PIN)) /\
  stripInitialized st' = true /\
  trace st' = trace st ++ [Commit black (Some DEFAULT_LED_PIN); Tx RESP_OK].
Proof.
  intros st' black. subst st'.
  change (processCommand CMD_RESET)
    with (initializeStrip DEFAULT_LED_COUNT DEFAULT_LED_PIN ;;
          modify (set_globalBrightness 255) ;; sendResponse RESP_OK).
  rewrite (exec_bind _ _ _ _ _ (initializeStrip_run _ _ st)).
  destruct_state st. unfold exec. cbn. rewrite <- app_assoc.
  repeat split; reflexivity.
Qed.

(** C1, as amended. Every command that starts by testing the initialized
    flag (set_pixel in its three variants, set_range, set_all, clear_all,
    buffer_pixel, buffer_end, stream_start, stream_data, stream_end,
    bulk_update, fill_gradient, sync), processed while the store is
    uninitialized, answers with the NotInitialized error and changes nothing
    else: not the store, not the brightness, not the session state, and it
    reads no byte of its payload. *)
Theorem uninitialized_store_rejects cmd st :
  cmd ∈ guarded -> stripInitialized st = false ->
  processCommand cmd st
  = (tt, set_trace (trace st ++ [Tx RESP_ERROR; Tx ERR_NOT_INITIALIZED]) st).
Proof.
  intros Hcmd Hinit. unfold guarded in Hcmd.
  repeat (apply elem_of_cons in Hcmd as [->|Hcmd]);
    [ .. | apply elem_of_nil in Hcmd; contradiction ].
  all: apply run_unit; destruct_state st; cbv -[app];
    rewrite <- app_assoc; reflexivity.
Qed.

Lemma uninitialized_store_rejects_witness :
  processCommand CMD_SET_ALL_RGBW (power_on [(0, 1); (0, 2); (0, 3); (0, 4)]
                                     (fun _ => mkRGBW 0 0 0 0))
  = (tt, set_trace [Tx RESP_ERROR; Tx ERR_NOT_INITIALIZED]
           (power_on [(0, 1); (0, 2); (0, 3); (0, 4)]
              (fun _ => mkRGBW 0 0 0 0))).
Proof.
  apply (uninitialized_store_rejects CMD_SET_ALL_RGBW
           (power_on [(0, 1); (0, 2); (0, 3); (0, 4)]
              (fun _ => mkRGBW 0 0 0 0))).
  - unfold guarded. repeat constructor.
  - reflexivity.
Defined.

(** C1, as stated, fails: on a board whose store is not initialized,
    set_brightness (value 128 on the wire) answers OK and sets the
    brightness, and buffer_start answers OK. *)
Lemma uninitialized_store_brightness_counterexample :
  let st := power_on [(0, 128)] (fun _ => mkRGBW 0 0 0 0) in
  stripInitialized st = false /\
  globalBrightness st = 255 /\
  globalBrightness (exec (processCommand CMD_BRIGHTNESS) st) = 128 /\
  trace (exec (processCommand CMD_BRIGHTNESS) st) = [Tx RESP_OK] /\
  trace (exec (processCommand CMD_BUFFER_START) st) = [Tx RESP_OK].
Proof. vm_compute. repeat split; reflexivity. Qed.

(** Closed facts about concrete boards and requests. *)
Ltac computed := vm_compute; repeat split; first [reflexivity | discriminate].

(** The payload is in the receive buffer: it is delivered. *)
Ltac delivered :=
  split; [ vm_compute; reflexivity
         | split; [ reflexivity | repeat constructor; computed ] ].

Lemma sync_run st :
  stripInitialized st = true ->
  processCommand CMD_SYNC st
  = (tt, set_trace (trace st ++ frame st ++ [Tx RESP_OK]) st).
Proof.
  intros Hinit. apply run_unit. destruct_state st.
  destruct strip0; cbv -[app]; rewrite <- ?app_assoc; reflexivity.
Qed.

(** C4. With the store initialized and the payload arriving in time, every
    indexed write command (set_pixel in its three variants, set_range,
    buffer_pixel, fill_gradient) that names an index at or beyond the
    current LED count answers with the OutOfRange error and leaves the
    whole pixel store as it was: the index is rejected, not clamped. *)
Theorem out_of_range_rejected st q rest req index :
  stripInitialized st = true -> well_formed req ->
  index ∈ indices req -> ledCount st <= index ->
  delivers st q (payload req) rest ->
  let st' := exec (processCommand (opcode req)) st in
  trace st' = trace st ++ [Tx RESP_ERROR; Tx ERR_OUT_OF_RANGE] /\
  ledStrip st' = ledStrip st /\
  rx st' = rest.
Proof.
  intros Hinit Hwf Hin Hn Hd st'. subst st'.
  assert (indices req <> []) as Hne by (intros E; rewrite E in Hin; apply elem_of_nil in Hin; exact Hin).
  destruct (indices_writes req Hne) as [Hwr Hnb].
  unfold exec.
  rewrite (write_run st q rest req Hinit Hwr Hwf (indices_streaming req st Hne) Hd
             (or_intror Hnb)).
  cbn [snd]. rewrite outcome_rejected.
  - repeat split; reflexivity.
  - apply (indices_in_range _ req index Hin). exact Hn.
Qed.

Lemma out_of_range_rejected_witness :
  let req := FillGradient 100 107 (mkRGBW 255 0 0 0) (mkRGBW 0 0 255 0) in
  let st := board (payload req) in
  let st' := exec (processCommand (opcode req)) st in
  trace st' = trace st ++ [Tx RESP_ERROR; Tx ERR_OUT_OF_RANGE] /\
  ledStrip st' = ledStrip st /\
  rx st' = [].
Proof.
  intros req st.
  apply (out_of_range_rejected st ((fun x => (0, x)) <$> payload req) [] req 107).
  - reflexivity.
  - computed.
  - unfold req, indices. repeat constructor.
  - computed.
  - delivered.
Defined.

(** C7, as amended. With the store initialized and the payload arriving
    in time, for every index below the LED count, set_pixel (in each of
    its three variants) followed by sync is answered OK twice, each after
    a commit.  When the index lies within the strip as it was allocated,
    the pixel at that index then holds the input colour, channels absent
    from the variant being zero, scaled by the brightness
    ([floor (v * b / 256)], or [v] itself at b = 255); when it does not (the
    LED count was raised and the strip not created anew), nothing is
    stored and the strip is as it was.  Every other pixel is as it was. *)
Theorem set_pixel_then_sync st q rest req index color :
  stripInitialized st = true -> byte (globalBrightness st) ->
  set_pixel req = Some (index, color) -> well_formed req ->
  index < ledCount st ->
  delivers st q (payload req) rest ->
  let st' := exec (processCommand (opcode req) ;; processCommand CMD_SYNC) st in
  trace st'
  = trace st ++ frame st' ++ [Tx RESP_OK] ++ frame st' ++ [Tx RESP_OK] /\
  (index < capacity st ->
   pixel st' index = Some (dimmed_color (globalBrightness st) color)) /\
  (capacity st <= index -> ledStrip st' = ledStrip st) /\
  (forall j, j <> index -> pixel st' j = pixel st j).
Proof.
  intros Hinit Hgb Hreq Hwf Hn Hd st'. subst st'.
  assert (writes req = true /\ streaming st req /\ (forall cs, req <> BulkUpdate cs)
          /\ asked (received q rest st) req = [(index, color)]
          /\ in_range (received q rest st) req = true
          /\ word index /\ byte_color color
          /\ (forall s, answer req s = frame s ++ [Tx RESP_OK]))
    as (Hwr & Hs & Hnb & Hask & Hr & Hw & Hc & Hans).
  { destruct req; try discriminate Hreq; injection Hreq as <- <-;
      cbn in Hwf |- *; repeat split; try congruence;
      try (apply Z.ltb_lt; exact Hn);
      unfold word, byte_color, byte in *; cbn [r g b w] in *; lia. }
  rewrite (exec_bind _ _ _ _ _ (write_run st q rest req Hinit Hwr Hwf Hs Hd (or_intror Hnb))).
  destruct (outcome_accepted req (received q rest st) Hr)
    as (Hstrip & Htrace & _ & _ & Hinit' & _).
  unfold exec. rewrite sync_run by (rewrite Hinit'; exact Hinit). cbn [snd].
  rewrite Hask in Hstrip. rewrite Hans in Htrace.
  set (o := outcome req (received q rest st)) in *.
  assert (Hstrip' :
    ledStrip (set_trace (trace o ++ frame o ++ [Tx RESP_OK]) o)
    = paint (globalBrightness st) [(index, color)] <$> ledStrip st)
    by exact Hstrip.
  split; [|split; [|split]].
  - change (frame (set_trace (trace o ++ frame o ++ [Tx RESP_OK]) o))
      with (frame o).
    change (trace (set_trace (trace o ++ frame o ++ [Tx RESP_OK]) o))
      with (trace o ++ frame o ++ [Tx RESP_OK]).
    rewrite Htrace. change (trace (received q rest st)) with (trace st).
    rewrite <- !app_assoc. reflexivity.
  - intros Hcap. rewrite <- (scaled_dimmed _ _ Hgb Hc).
    apply (pixel_painted st _ _ _ index color Hstrip').
    + repeat constructor. intros Hin. apply elem_of_nil in Hin. exact Hin.
    + repeat constructor. cbn. unfold word in Hw. lia.
    + constructor.
    + exact Hcap.
  - intros Hcap. rewrite Hstrip'. unfold capacity in Hcap.
    destruct (ledStrip st) as [s|]; [|reflexivity].
    cbn [fmap option_fmap option_map from_option] in *. f_equal.
    unfold paint. cbn [foldl fst snd]. unfold SK6812.set_rgbw.
    rewrite (proj2 (Z.ltb_ge _ _) Hcap). reflexivity.
  - intros j Hj. apply (pixel_unpainted st _ _ _ j Hstrip').
    + repeat constructor. cbn. unfold word in Hw. lia.
    + cbn. intros Hin. apply elem_of_cons in Hin as [Hin|Hin];
        [contradiction | apply elem_of_nil in Hin; exact Hin].
Qed.

Lemma set_pixel_then_sync_witness :
  let req := SetPixelRGB 5 200 100 50 in
  let st := set_globalBrightness 128 (board (payload req)) in
  let st' := exec (processCommand (opcode req) ;; processCommand CMD_SYNC) st in
  trace st'
  = trace st ++ frame st' ++ [Tx RESP_OK] ++ frame st' ++ [Tx RESP_OK] /\
  pixel st' 5 = Some (dimmed_color 128 (mkRGBW 200 100 50 0)) /\
  (forall j, j <> 5 -> pixel st' j = pixel st j).
Proof.
  intros req st.
  destruct (set_pixel_then_sync st ((fun x => (0, x)) <$> payload req) []
              req 5 (mkRGBW 200 100 50 0))
    as (Htrace & Hin & _ & Hout).
  - reflexivity.
  - computed.
  - reflexivity.
  - computed.
  - computed.
  - delivered.
  - split; [exact Htrace|]. split; [apply Hin; computed|exact Hout].
Defined.

(** C7, as stated, fails: on a board that was told to drive 200 pixels
    and was not reinitialized, the strip has 107 pixels; set_pixel for
    index 150, below the LED count, and sync are both answered OK, and no
    pixel 150 holds the colour: there is none. *)
Lemma set_pixel_beyond_strip_counterexample :
  let st := exec (processCommand CMD_SET_LED_COUNT) grown in
  let req := SetPixelRGBW 150 (mkRGBW 1 2 3 4) in
  let st' := exec (processCommand (opcode req) ;; processCommand CMD_SYNC) st in
  stripInitialized st = true /\ ledCount st = 200 /\ capacity st = 107 /\
  rx st = (fun x => (0, x)) <$> payload req /\
  sent (trace st') = sent (trace st) ++ [RESP_OK; RESP_OK] /\
  pixel st' 150 = None /\
  ledStrip st' = ledStrip st.
Proof. vm_compute. repeat split; reflexivity. Qed.

(** C10, as amended. Stream_start, stream_data and stream_end are the only
    commands that modify the stream session: every command other than
    stream_start and stream_end, reset and init_strip included, leaves the
    active flag and the expected count as they were, and every command
    other than the three stream commands leaves the cursor as it was too
    (stream_data being the one that moves the cursor). *)
Theorem session_only_moved_by_stream_commands cmd st :
  cmd <> CMD_STREAM_START -> cmd <> CMD_STREAM_END ->
  let st' := exec (processCommand cmd) st in
  streamMode st' = streamMode st /\
  streamCount st' = streamCount st /\
  (cmd <> CMD_STREAM_DATA -> streamIndex st' = streamIndex st).
Proof.
  intros Hstart Hend st'. subst st'. unfold exec.
  destruct (Z.eq_dec cmd CMD_STREAM_DATA) as [->|Hdata].
  - pose proof (stream_data_session st) as Hs.
    change (processCommand CMD_STREAM_DATA) with cmdStreamData.
    injection Hs as Hmode Hcount. repeat split; [assumption..|].
    intros Hne. contradiction.
  - pose proof (session_kept cmd Hstart Hdata Hend st) as Hs.
    unfold session in Hs. injection Hs as Hmode Hindex Hcount.
    repeat split; [assumption..|]. intros _. assumption.
Qed.

Lemma session_only_moved_by_stream_commands_witness :
  let st' := exec (processCommand CMD_RESET) mid_stream in
  session mid_stream = (true, 2, 5) /\
  stripInitialized st' = true /\
  streamMode st' = true /\ streamCount st' = 5 /\ streamIndex st' = 2.
Proof.
  intros st'.
  destruct (session_only_moved_by_stream_commands CMD_RESET mid_stream)
    as (Hmode & Hcount & Hindex).
  - discriminate.
  - discriminate.
  - split; [reflexivity|]. split; [reflexivity|].
    split; [exact Hmode|]. split; [exact Hcount|].
    apply Hindex. discriminate.
Defined.

(** C10, as stated, fails: stream_data is neither stream_start nor
    stream_end, and it moves the cursor (here from 2 to 3). *)
Lemma stream_data_moves_cursor :
  let st' := exec (processCommand CMD_STREAM_DATA) mid_stream in
  session mid_stream = (true, 2, 5) /\
  session st' = (true, 3, 5) /\
  trace st' = trace mid_stream ++ [Tx RESP_OK].
Proof. vm_compute. repeat split; reflexivity. Qed.

(** * Runs of writes to consecutive indices *)

Lemma ramp_indices (f : Z -> RGBW) a n :
  ((fun i => (a + i, f i)) <$> seqZ 0 n).*1 = seqZ a n.
Proof.
  rewrite <- list_fmap_compose.
  change (fst ∘ (fun i => (a + i, f i))) with (Z.add a).
  rewrite fmap_add_seqZ, Z.add_0_r. reflexivity.
Qed.

Lemma ramp_nonneg (f : Z -> RGBW) a n :
  0 <= a -> Forall (fun iw => 0 <= iw.1) ((fun i => (a + i, f i)) <$> seqZ 0 n).
Proof.
  intros Ha. apply list.Forall_forall. intros [j c] Hj.
  apply list_elem_of_fmap in Hj as (k & [= -> ->] & Hk).
  apply elem_of_seqZ in Hk. cbn. lia.
Qed.

Lemma ramp_elem (f : Z -> RGBW) a n i :
  0 <= i < n -> (a + i, f i) ∈ (fun i => (a + i, f i)) <$> seqZ 0 n.
Proof.
  intros Hi. apply list_elem_of_fmap. exists i. split; [reflexivity|].
  apply elem_of_seqZ. lia.
Qed.

(** Beyond the end of the strip there is no pixel, before a run of writes
    and after it. *)
Lemma pixel_beyond st st' gb ws j :
  ledStrip st' = paint gb ws <$> ledStrip st ->
  capacity st <= j -> pixel st' j = pixel st j.
Proof.
  intros Hst Hj. unfold pixel. destruct (j <? 0) eqn:Hneg; [reflexivity|].
  apply Z.ltb_ge in Hneg. rewrite Hst. unfold capacity in Hj.
  destruct (ledStrip st) as [s|]; cbn in *; [|reflexivity].
  pose proof (paint_count gb ws s) as Hc. unfold SK6812.count_led in *.
  rewrite !lookup_ge_None_2 by lia. reflexivity.
Qed.

(** C5, as amended. With the store initialized and the payload arriving
    in time, for every range [first <= last] below the LED count and all
    colours A and B, fill_gradient leaves at each index [first + i]
    ([0 <= i <= last - first]) that lies within the strip as it was
    allocated the colour whose channels are
    [A + (B - A) * i / (last - first)], the division truncating and
    computed on the values as sent, with the brightness scaling applied
    once to the result.  With [first < last] every division of [map] has
    the divisor [last - first], which is not 0; with [first = last] the
    colour is A itself, whatever B is, and [map], which has no value for
    a range of length 0, is not asked.  Every other pixel is as before,
    and the frame is committed once before the OK. *)
Theorem fill_gradient_interpolates st q rest first last c1 c2 :
  stripInitialized st = true -> byte (globalBrightness st) ->
  well_formed (FillGradient first last c1 c2) ->
  first <= last < ledCount st ->
  delivers st q (payload (FillGradient first last c1 c2)) rest ->
  let gb := globalBrightness st in
  let steps := last - first in
  let st' := exec (processCommand CMD_FILL_GRADIENT) st in
  (forall i, 0 <= i <= steps -> first + i < capacity st ->
     pixel st' (first + i)
     = Some (dimmed_color gb (gradient c1 c2 steps i))) /\
  (first < last ->
   forall i a b, map i 0 steps a b = Some (a + Z.quot ((b - a) * i) steps)) /\
  (first = last -> first < capacity st ->
   pixel st' first = Some (dimmed_color gb c1)) /\
  (forall i a b, map i 0 0 a b = None) /\
  (forall j, ~ (first <= j <= last /\ j < capacity st) ->
     pixel st' j = pixel st j) /\
  trace st' = trace st ++ frame st' ++ [Tx RESP_OK] /\
  rx st' = rest.
Proof.
  intros Hinit Hgb Hwf Hrange Hd gb steps st'. subst gb steps st'.
  pose proof Hwf as (Hf & Hl & Hc1 & Hc2).
  assert (Hr : in_range (received q rest st) (FillGradient first last c1 c2) = true).
  { cbn. rewrite !(proj2 (Z.ltb_lt _ _)), (proj2 (Z.leb_le _ _)) by lia.
    reflexivity. }
  unfold exec.
  change CMD_FILL_GRADIENT with (opcode (FillGradient first last c1 c2)).
  rewrite (write_run st q rest (FillGradient first last c1 c2) Hinit eq_refl Hwf I Hd
             (or_introl Hr)).
  cbn [snd].
  destruct (outcome_accepted _ _ Hr) as (Hstrip & Htrace & Hrx & _).
  cbn [asked] in Hstrip.
  change (ledStrip (received q rest st)) with (ledStrip st) in Hstrip.
  change (globalBrightness (received q rest st)) with (globalBrightness st) in Hstrip.
  assert (Hpix : forall i, 0 <= i <= last - first -> first + i < capacity st ->
     pixel (outcome (FillGradient first last c1 c2) (received q rest st)) (first + i)
     = Some (dimmed_color (globalBrightness st) (gradient c1 c2 (last - first) i))).
  { intros i Hi Hcap.
    rewrite <- (scaled_dimmed _ _ Hgb) by (apply gradient_byte; assumption).
    apply (pixel_painted st _ _ _ _ _ Hstrip).
    - rewrite ramp_indices. apply NoDup_seqZ.
    - apply ramp_nonneg. unfold word in Hf. lia.
    - apply (ramp_elem (gradient c1 c2 (last - first))). lia.
    - exact Hcap. }
  split; [exact Hpix|].
  split; [intros Hlt i a b; rewrite map_lerp by lia; reflexivity|].
  split.
  { intros <- Hcap. specialize (Hpix 0 ltac:(lia)).
    rewrite Z.add_0_r, Z.sub_diag in Hpix. apply Hpix. exact Hcap. }
  split; [intros i a b; apply map_undefined|].
  split; [|split; [exact Htrace|exact Hrx]].
  intros j Hj.
  destruct (Z.le_gt_cases (capacity st) j) as [Hbeyond|Hwithin].
  - apply (pixel_beyond st _ _ _ j Hstrip Hbeyond).
  - apply (pixel_unpainted st _ _ _ _ Hstrip).
    + apply ramp_nonneg. unfold word in Hf. lia.
    + rewrite ramp_indices. intros Hin. apply elem_of_seqZ in Hin. lia.
Qed.

Lemma fill_gradient_interpolates_witness :
  let req := FillGradient 0 9 (mkRGBW 0 0 0 0) (mkRGBW 255 255 255 255) in
  let st := set_globalBrightness 128 (board (payload req)) in
  let st' := exec (processCommand CMD_FILL_GRADIENT) st in
  pixel st' 4 = Some (mkRGBW 56 56 56 56) /\
  pixel st' 9 = Some (mkRGBW 127 127 127 127) /\
  pixel st' 10 = pixel st 10 /\
  map 4 0 9 0 255 = Some 113 /\
  trace st' = trace st ++ frame st' ++ [Tx RESP_OK].
Proof.
  intros req st.
  destruct (fill_gradient_interpolates st ((fun x => (0, x)) <$> payload req)
              [] 0 9 (mkRGBW 0 0 0 0) (mkRGBW 255 255 255 255))
    as (Hin & Hmap & _ & _ & Hout & Htrace & _).
  - reflexivity.
  - computed.
  - computed.
  - computed.
  - delivered.
  - split; [apply (Hin 4); computed|]. split; [apply (Hin 9); computed|].
    split; [apply Hout; lia|].
    split; [apply (Hmap ltac:(lia) 4 0 255)|exact Htrace].
Defined.

(** C5, as stated, fails: on a board that was told to drive 200 pixels
    and was not reinitialized, the strip has 107 pixels; a gradient from
    105 to 110, a range below the LED count, is answered OK after one
    commit, pixels 105 and 106 hold their interpolated colours, and
    indices 107 to 110 hold nothing: there are no such pixels. *)
Lemma fill_gradient_beyond_strip_counterexample :
  let st := exec (processCommand CMD_SET_LED_COUNT) grown_gradient in
  let st' := exec (processCommand CMD_FILL_GRADIENT) st in
  stripInitialized st = true /\ ledCount st = 200 /\ capacity st = 107 /\
  sent (trace st') = sent (trace st) ++ [RESP_OK] /\
  pixel st' 105 = Some (mkRGBW 250 0 0 0) /\
  pixel st' 106 = Some (mkRGBW 200 0 50 0) /\
  pixel st' 107 = None /\
  pixel st' 110 = None.
Proof. vm_compute. repeat split; reflexivity. Qed.

Lemma zip_indices a (cs : list RGBW) :
  (zip (seqZ a (Z.of_nat (length cs))) cs).*1 = seqZ a (Z.of_nat (length cs)).
Proof. apply fst_zip. rewrite length_seqZ. lia. Qed.

Lemma zip_nonneg a (cs : list RGBW) :
  0 <= a ->
  Forall (fun iw => 0 <= iw.1) (zip (seqZ a (Z.of_nat (length cs))) cs).
Proof.
  intros Ha. apply list.Forall_forall. intros [j c] Hj.
  apply elem_of_zip_l in Hj. apply elem_of_seqZ in Hj. cbn. lia.
Qed.

Lemma zip_elem a (cs : list RGBW) i c :
  cs !! i = Some c ->
  (a + Z.of_nat i, c) ∈ zip (seqZ a (Z.of_nat (length cs))) cs.
Proof.
  intros Hi. apply list_elem_of_lookup. exists i.
  apply lookup_zip_with_Some. exists (a + Z.of_nat i), c.
  split; [reflexivity|]. split; [|exact Hi].
  apply lookup_seqZ. split; [reflexivity|].
  apply lookup_lt_Some in Hi. lia.
Qed.

(** C3. With the store initialized and the two bytes of the count arriving
    in time: a count above the LED count is answered with OutOfRange at
    once, every byte of the pixel payload still unread; a count within the
    LED count is acknowledged first, then the [count] colours are read one
    after the other, each given 1000 ms from the moment the one before it
    was stored, colour [i] is written at index [i] scaled by the brightness
    (and is found there when the count is within the strip), the buffer is
    committed once, and a second OK ends the command. *)
Theorem bulk_update_protocol st q groups rest cs :
  stripInitialized st = true -> byte (globalBrightness st) ->
  well_formed (BulkUpdate cs) ->
  delivers st q (wire16 (Z.of_nat (length cs))) (concat groups ++ rest) ->
  Forall2 (fun g c => g.*2 = wire_color c) groups cs ->
  let count := Z.of_nat (length cs) in
  let gb := globalBrightness st in
  let st' := exec (processCommand CMD_BULK_UPDATE) st in
  (ledCount st < count ->
     trace st' = trace st ++ [Tx RESP_ERROR; Tx ERR_OUT_OF_RANGE] /\
     rx st' = concat groups ++ rest /\
     ledStrip st' = ledStrip st) /\
  (count <= ledCount st -> paced (latest (clock st) q) groups ->
     trace st' = trace st ++ [Tx RESP_OK] ++ frame st' ++ [Tx RESP_OK] /\
     rx st' = rest /\
     ledStrip st' = paint gb (zip (seqZ 0 count) cs) <$> ledStrip st /\
     (count <= capacity st ->
      forall i c, cs !! i = Some c ->
        pixel st' (Z.of_nat i) = Some (dimmed_color gb c)) /\
     (forall j, count <= j -> pixel st' j = pixel st j)).
Proof.
  intros Hinit Hgb [Hw Hcs] Hd HF count gb st'. subst count gb st'.
  change (processCommand CMD_BULK_UPDATE) with cmdBulkUpdate. split.
  - intros Hn. unfold exec.
    rewrite (cmdBulkUpdate_rejected st q _ _ Hinit Hw Hd Hn). cbn [snd].
    destruct_state st. cbn. rewrite <- app_assoc. repeat split; reflexivity.
  - intros Hn Hpaced. unfold exec.
    rewrite (cmdBulkUpdate_run st q groups rest cs Hinit Hw Hcs Hd HF Hpaced Hn).
    cbn [snd].
    set (ws := zip (seqZ 0 (Z.of_nat (length cs))) cs).
    set (st' := exec _ _).
    assert (Hstrip : ledStrip st' = paint (globalBrightness st) ws <$> ledStrip st)
      by (destruct st as [[s|] ? ? ? ? ? ? ? ? ? ? ? ?]; reflexivity).
    assert (Htrace :
      trace st' = trace st ++ [Tx RESP_OK] ++ frame st' ++ [Tx RESP_OK]).
    { subst st'. destruct st as [[s|] ? ? ? ? ? ? ? ? ? ? ? ?];
        unfold exec; cbn; rewrite <- ?app_assoc; reflexivity. }
    assert (Hrx : rx st' = rest)
      by (destruct st as [[s|] ? ? ? ? ? ? ? ? ? ? ? ?]; reflexivity).
    repeat split; try assumption.
    + intros Hcap i c Hi.
      rewrite list.Forall_forall in Hcs.
      rewrite <- (scaled_dimmed _ _ Hgb)
        by (apply Hcs; apply list_elem_of_lookup; exists i; exact Hi).
      apply (pixel_painted st st' _ ws _ _ Hstrip).
      * unfold ws. rewrite zip_indices. apply NoDup_seqZ.
      * apply zip_nonneg. lia.
      * apply (zip_elem 0 cs i c Hi).
      * apply lookup_lt_Some in Hi. lia.
    + intros j Hj. apply (pixel_unpainted st st' _ ws _ Hstrip).
      * apply zip_nonneg. lia.
      * unfold ws. rewrite zip_indices. intros Hin.
        apply elem_of_seqZ in Hin. lia.
Qed.

Lemma bulk_update_protocol_witness :
  let cs := [mkRGBW 10 20 30 40; mkRGBW 50 60 70 80] in
  let st := slow_bulk in
  let st' := exec (processCommand CMD_BULK_UPDATE) st in
  trace st' = trace st ++ [Tx RESP_OK] ++ frame st' ++ [Tx RESP_OK] /\
  rx st' = [] /\
  ledStrip st' = paint 255 (zip (seqZ 0 2) cs) <$> ledStrip st /\
  (2 <= capacity st ->
   forall i c, cs !! i = Some c ->
     pixel st' (Z.of_nat i) = Some (dimmed_color 255 c)) /\
  (forall j, 2 <= j -> pixel st' j = pixel st j).
Proof.
  intros cs st.
  refine (proj2 (bulk_update_protocol st [(0, 0); (0, 2)]
           [[(1200, 10); (1200, 20); (1200, 30); (1200, 40)];
            [(2100, 50); (2100, 60); (2100, 70); (2100, 80)]] [] cs
           _ _ _ _ _) _ _).
  - reflexivity.
  - computed.
  - split; [computed | repeat constructor; computed].
  - delivered.
  - repeat constructor.
  - computed.
  - split; [repeat constructor; computed|].
    split; [repeat constructor; computed|]. exact I.
Defined.

(** * The main loop *)

Lemma exec_seq {A B} (m : M A) (k : M B) st :
  exec (m ;; k) st = exec k (exec m st).
Proof. unfold exec, bind. destruct (m st). reflexivity. Qed.

Lemma loop_run st t cmd q :
  rx st = (t, cmd) :: q -> t <= clock st -> byte cmd ->
  loop st = processCommand cmd (set_rx q st).
Proof.
  intros Hrx Ht Hcmd. unfold loop.
  change Serial.available with (get (fun st => arrived (clock st) (rx st))).
  rewrite run_get, Hrx. cbn [arrived].
  rewrite (proj2 (Z.leb_le _ _)) by exact Ht.
  pose proof (arrived_nonneg (clock st) q).
  rewrite (proj2 (Z.gtb_gt _ _)) by lia.
  rewrite (run_read t cmd q) by assumption.
  rewrite u8_small by exact Hcmd. reflexivity.
Qed.

Lemma received_buffered q rest st :
  in_time (clock st) q -> received q rest st = set_rx rest st.
Proof.
  intros Hin. unfold received. rewrite latest_buffered by exact Hin.
  destruct st; reflexivity.
Qed.

Lemma outcome_stream c st :
  in_range st (StreamData c) = true ->
  session (outcome (StreamData c) st)
  = (streamMode st, u16 (streamIndex st + 1), streamCount st).
Proof. intros Hr. unfold outcome. rewrite Hr. reflexivity. Qed.

(** A run of stream_data commands, all of them within the stream. *)
Lemma stream_data_run cs : forall st q rest,
  stripInitialized st = true -> streamMode st = true ->
  Forall byte_color cs ->
  rx st = q ++ rest -> q.*2 = frames (StreamData <$> cs) ->
  in_time (clock st) q ->
  0 <= streamIndex st ->
  streamIndex st + Z.of_nat (length cs) <= ledCount st ->
  streamIndex st + Z.of_nat (length cs) <= streamCount st ->
  streamCount st < 65536 ->
  let st' := exec (loops (length cs)) st in
  ledStrip st'
  = paint (globalBrightness st)
      (zip (seqZ (streamIndex st) (Z.of_nat (length cs))) cs) <$> ledStrip st /\
  trace st' = trace st ++ replicate (length cs) (Tx RESP_OK) /\
  rx st' = rest /\ clock st' = clock st /\
  session st' = (true, streamIndex st + Z.of_nat (length cs), streamCount st) /\
  stripInitialized st' = true /\
  ledCount st' = ledCount st /\
  globalBrightness st' = globalBrightness st.
Proof.
  induction cs as [|c cs IH];
    intros st q rest Hinit Hmode Hcs Hrx Hq Hin Hidx Hn Hcount Hword st';
    subst st'.
  - destruct q; [|discriminate]. cbn in Hrx. unfold exec. cbn.
    rewrite app_nil_r, Z.add_0_r.
    destruct st as [[s|] ? ? ? ? ? ? ? ? ? ? ? ?]; cbn in *; subst;
      repeat split; reflexivity.
  - apply Forall_cons_1 in Hcs as [Hc Hcs].
    cbn [length] in *. cbn [fmap list_fmap frames concat] in Hq.
    unfold frames in Hq. cbn in Hq.
    destruct q as [|[t0 x0] [|[t1 x1] [|[t2 x2] [|[t3 x3] [|[t4 x4] q]]]]];
      try discriminate.
    cbn in Hq. injection Hq as -> -> -> -> -> Hq.
    split_in_time.
    cbn [loops]. rewrite exec_seq.
    set (q1 := [(t1, r c); (t2, g c); (t3, b c); (t4, w c)]).
    set (st0 := set_rx (q1 ++ q ++ rest) st).
    assert (Hloop : exec loop st
                    = outcome (StreamData c) (set_rx (q ++ rest) st)).
    { unfold exec. rewrite (loop_run st t0 CMD_STREAM_DATA (q1 ++ q ++ rest));
        [ | exact Hrx | assumption | unfold byte, CMD_STREAM_DATA; lia ].
      change (processCommand CMD_STREAM_DATA (set_rx (q1 ++ q ++ rest) st))
        with (processCommand (opcode (StreamData c)) st0).
      rewrite (write_run st0 q1 (q ++ rest) (StreamData c)).
      - cbn [snd]. rewrite received_buffered.
        + destruct st; reflexivity.
        + repeat constructor; assumption.
      - exact Hinit.
      - reflexivity.
      - exact Hc.
      - exact Hmode.
      - split; [reflexivity|]. split; [reflexivity|].
        repeat constructor; cbn; lia.
      - right. intros cs' Heq. discriminate Heq. }
    rewrite Hloop. clear Hloop.
    set (s1 := set_rx (q ++ rest) st).
    assert (Hr : in_range s1 (StreamData c) = true).
    { cbn. rewrite !(proj2 (Z.ltb_lt _ _)) by lia. reflexivity. }
    destruct (outcome_accepted _ _ Hr)
      as (Hstrip & Htrace & Hrx1 & Hclk & Hinit1 & Hn1 & Hgb1).
    pose proof (outcome_stream c s1 Hr) as Hsess.
    cbn [session] in Hsess. injection Hsess as Hmode1 Hidx1 Hcount1.
    rewrite u16_small in Hidx1 by (unfold word; cbn; lia).
    change (streamIndex s1) with (streamIndex st) in *.
    change (streamCount s1) with (streamCount st) in *.
    change (streamMode s1) with (streamMode st) in *.
    change (ledStrip s1) with (ledStrip st) in *.
    change (globalBrightness s1) with (globalBrightness st) in *.
    change (ledCount s1) with (ledCount st) in *.
    change (stripInitialized s1) with (stripInitialized st) in *.
    change (clock s1) with (clock st) in *.
    change (trace s1) with (trace st) in *.
    change (rx s1) with (q ++ rest) in *.
    cbn [answer asked] in Htrace, Hstrip.
    destruct (IH (outcome (StreamData c) s1) q rest)
      as (Hstrip' & Htrace' & Hrx' & Hclk' & Hsess' & Hinit' & Hn' & Hgb').
    + congruence.
    + congruence.
    + exact Hcs.
    + exact Hrx1.
    + exact Hq.
    + rewrite Hclk. assumption.
    + lia.
    + lia.
    + lia.
    + lia.
    + repeat split; try congruence.
      * rewrite Hstrip', Hstrip, Hgb1, Hidx1.
        rewrite (seqZ_cons (streamIndex st)) by lia.
        replace (Z.pred (Z.of_nat (S (length cs)))) with (Z.of_nat (length cs))
          by lia.
        replace (Z.succ (streamIndex st)) with (streamIndex st + 1) by lia.
        destruct (ledStrip st); reflexivity.
      * rewrite Htrace', Htrace, <- app_assoc. reflexivity.
      * rewrite Hsess', Hidx1, Hcount1. do 2 f_equal. lia.
Qed.

Lemma frames_cons req reqs :
  frames (req :: reqs) = opcode req :: payload req ++ frames reqs.
Proof. reflexivity. Qed.

Lemma frames_app reqs1 reqs2 :
  frames (reqs1 ++ reqs2) = frames reqs1 ++ frames reqs2.
Proof. unfold frames. rewrite fmap_app, concat_app. reflexivity. Qed.

(** C6. With the store initialized and at least five pixels both in the
    LED count and in the strip: after stream_start with count 5, five
    stream_data commands write their colours (scaled) at indices 0, 1, 2, 3
    and 4, one write each and in the order of the calls, each answered
    with OK and none committing anything; a sixth stream_data before
    stream_end answers OutOfRange and writes nothing. *)
Theorem stream_of_five st q rest cs c6 :
  stripInitialized st = true -> byte (globalBrightness st) ->
  5 <= ledCount st -> 5 <= capacity st ->
  length cs = 5%nat -> Forall byte_color cs -> byte_color c6 ->
  rx st = q ++ rest ->
  q.*2 = frames (StreamStart 5 :: (StreamData <$> cs) ++ [StreamData c6]) ->
  in_time (clock st) q ->
  let gb := globalBrightness st in
  let st5 := exec (loops 6) st in
  let st6 := exec loop st5 in
  trace st5 = trace st ++ replicate 6 (Tx RESP_OK) /\
  ledStrip st5 = paint gb (zip (seqZ 0 5) cs) <$> ledStrip st /\
  (forall i c, cs !! i = Some c ->
     pixel st5 (Z.of_nat i) = Some (dimmed_color gb c)) /\
  (forall j, 5 <= j -> pixel st5 j = pixel st j) /\
  session st5 = (true, 5, 5) /\
  trace st6 = trace st5 ++ [Tx RESP_ERROR; Tx ERR_OUT_OF_RANGE] /\
  ledStrip st6 = ledStrip st5 /\
  session st6 = session st5.
Proof.
  intros Hinit Hgb Hn Hcap Hlen Hcs Hc6 Hrx Hq Hin gb st5 st6.
  subst gb st6 st5.
  (* the bytes of the three parts *)
  rewrite frames_cons, frames_app in Hq. cbn [payload opcode] in Hq.
  destruct q as [|[t0 x0] [|[t1 x1] [|[t2 x2] q]]]; try discriminate.
  cbn in Hq. injection Hq as -> -> -> Hq.
  apply fmap_app_inv in Hq as (qd & q6 & Hqd & Hq6 & ->).
  destruct q6 as [|[t3 x3] [|[t4 x4] [|[t5 x5] [|[t6 x6] [|[t7 x7] q6]]]]];
    try discriminate.
  destruct q6; [|discriminate].
  cbn in Hq6. injection Hq6 as <- <- <- <- <-. symmetry in Hqd.
  apply in_time_cons in Hin as [Ht0 Hin]. apply in_time_cons in Hin as [Ht1 Hin].
  apply in_time_cons in Hin as [Ht2 Hin].
  apply in_time_app in Hin as [Hind Hin6]. split_in_time.
  set (q6 := [(t3, _); (t4, r c6); (t5, g c6); (t6, b c6); (t7, w c6)]) in *.
  (* stream_start *)
  change (loops 6) with (loop ;; loops 5). rewrite exec_seq.
  set (s1 := exec loop st).
  assert (Hs1 : s1 = exec (modify (set_streamCount 5) ;;
                           modify (set_streamIndex 0) ;;
                           modify (set_streamMode true) ;;
                           sendResponse RESP_OK)
                      (set_rx (qd ++ q6 ++ rest) st)).
  { unfold s1, exec at 1.
    rewrite (loop_run st t0 CMD_STREAM_START
               ([(t1, 0); (t2, 5)] ++ (qd ++ q6) ++ rest));
      [ | exact Hrx | assumption | unfold byte, CMD_STREAM_START; lia ].
    change (processCommand CMD_STREAM_START) with cmdStreamStart.
    rewrite (cmdStreamStart_run _ [(t1, 0); (t2, 5)] ((qd ++ q6) ++ rest) 5).
    - cbn [snd]. rewrite received_buffered by (repeat constructor; assumption).
      rewrite <- app_assoc. destruct st; reflexivity.
    - exact Hinit.
    - unfold word. lia.
    - split; [reflexivity|]. split; [reflexivity|].
      repeat constructor; cbn; lia. }
  (* five stream_data *)
  replace (loops 5) with (loops (length cs)) by (rewrite Hlen; reflexivity).
  destruct (stream_data_run cs s1 qd (q6 ++ rest))
    as (Hstrip & Htrace & Hrx5 & Hclk & Hsess & Hinit5 & Hn5 & Hgb5).
  { rewrite Hs1. exact Hinit. }
  { rewrite Hs1. reflexivity. }
  { exact Hcs. }
  { rewrite Hs1. reflexivity. }
  { exact Hqd. }
  { rewrite Hs1. exact Hind. }
  { rewrite Hs1. cbn. lia. }
  { rewrite Hs1. cbn. rewrite Hlen. lia. }
  { rewrite Hs1. cbn. rewrite Hlen. lia. }
  { rewrite Hs1. cbn. lia. }
  set (s5 := exec (loops (length cs)) s1) in *.
  assert (Hidx5 : streamIndex s5 = 5 /\ streamCount s5 = 5 /\ streamMode s5 = true).
  { unfold session in Hsess. injection Hsess as Hm Hi Hc. rewrite Hm, Hi, Hc, Hs1.
    cbn. rewrite Hlen. repeat split. }
  destruct Hidx5 as (Hidx5 & Hcnt5 & Hmode5).
  assert (Hstrip5 :
    ledStrip s5 = paint (globalBrightness st) (zip (seqZ 0 5) cs) <$> ledStrip st).
  { rewrite Hstrip, Hs1, Hlen. reflexivity. }
  (* the sixth *)
  assert (Hs6 : exec loop s5
                = set_trace (trace s5 ++ [Tx RESP_ERROR; Tx ERR_OUT_OF_RANGE])
                    (set_rx rest s5)).
  { unfold exec at 1.
    rewrite (loop_run s5 t3 CMD_STREAM_DATA
               ([(t4, r c6); (t5, g c6); (t6, b c6); (t7, w c6)] ++ rest));
      [ | exact Hrx5 | | unfold byte, CMD_STREAM_DATA; lia ].
    - set (s5' := set_rx _ s5).
      change (processCommand CMD_STREAM_DATA s5')
        with (processCommand (opcode (StreamData c6)) s5').
      rewrite (write_run s5' [(t4, r c6); (t5, g c6); (t6, b c6); (t7, w c6)]
                 rest (StreamData c6)).
      + cbn [snd]. rewrite received_buffered.
        * rewrite outcome_rejected.
          -- destruct s5; reflexivity.
          -- cbn. rewrite Hidx5, Hcnt5. apply andb_false_r.
        * repeat constructor; cbn; rewrite Hclk, Hs1; assumption.
      + exact Hinit5.
      + reflexivity.
      + exact Hc6.
      + exact Hmode5.
      + split; [reflexivity|]. split; [reflexivity|].
        repeat constructor; cbn; rewrite Hclk, Hs1; cbn; lia.
      + right. intros cs' Heq. discriminate Heq.
    - rewrite Hclk, Hs1. assumption. }
  rewrite Hs6.
  repeat split.
  - rewrite Htrace, Hs1, Hlen. unfold exec. cbn. rewrite <- app_assoc.
    reflexivity.
  - exact Hstrip5.
  - intros i c Hi.
    rewrite list.Forall_forall in Hcs.
    rewrite <- (scaled_dimmed _ _ Hgb)
      by (apply Hcs; apply list_elem_of_lookup; exists i; exact Hi).
    apply (pixel_painted st s5 _ _ _ _ Hstrip5).
    + change 5 with (Z.of_nat 5). rewrite <- Hlen, zip_indices.
      apply NoDup_seqZ.
    + change 5 with (Z.of_nat 5). rewrite <- Hlen. apply zip_nonneg. lia.
    + change 5 with (Z.of_nat 5). rewrite <- Hlen.
      apply (zip_elem 0 cs i c Hi).
    + apply lookup_lt_Some in Hi. lia.
  - intros j Hj. apply (pixel_unpainted st s5 _ _ _ Hstrip5).
    + change 5 with (Z.of_nat 5). rewrite <- Hlen. apply zip_nonneg. lia.
    + change 5 with (Z.of_nat 5). rewrite <- Hlen, zip_indices.
      intros Hin. apply elem_of_seqZ in Hin. lia.
  - unfold session. rewrite Hidx5, Hcnt5, Hmode5. reflexivity.
Qed.

Lemma stream_of_five_witness :
  let cs := take 5 six_colours in
  let st := board (frames stream_of_six) in
  let st5 := exec (loops 6) st in
  let st6 := exec loop st5 in
  trace st5 = trace st ++ replicate 6 (Tx RESP_OK) /\
  ledStrip st5 = paint 255 (zip (seqZ 0 5) cs) <$> ledStrip st /\
  (forall i c, cs !! i = Some c ->
     pixel st5 (Z.of_nat i) = Some (dimmed_color 255 c)) /\
  (forall j, 5 <= j -> pixel st5 j = pixel st j) /\
  session st5 = (true, 5, 5) /\
  trace st6 = trace st5 ++ [Tx RESP_ERROR; Tx ERR_OUT_OF_RANGE] /\
  ledStrip st6 = ledStrip st5 /\
  session st6 = session st5.
Proof.
  intros cs st.
  apply (stream_of_five st ((fun x => (0, x)) <$> frames stream_of_six) []
           cs (mkRGBW 21 22 23 24)).
  - reflexivity.
  - computed.
  - computed.
  - computed.
  - reflexivity.
  - repeat constructor; computed.
  - computed.
  - vm_compute. reflexivity.
  - reflexivity.
  - repeat constructor; computed.
Defined.

Lemma within_in_range st req :
  within (ledCount st) req ->
  in_range st req = true /\ indices req <> [].
Proof.
  destruct req; cbn; intros H; try contradiction; split; try discriminate.
  all: rewrite ?(proj2 (Z.ltb_lt _ _)), ?(proj2 (Z.leb_le _ _)) by lia;
    reflexivity.
Qed.

(** C9. A successful set_led_count with a value above the number of
    pixels the strip was created with, not followed by init_strip, leaves
    the strip as it was and the LED count at the new value; from then on
    every indexed write command whose indices are below the new count is
    accepted, those at or beyond the capacity of the strip included: the
    checks look at the LED count only. *)
Theorem count_check_ignores_capacity st q rest n :
  stripInitialized st = true -> 0 < n <= 1000 -> capacity st < n ->
  delivers st q (payload (SetLedCount n)) rest ->
  let st1 := exec (processCommand CMD_SET_LED_COUNT) st in
  trace st1 = trace st ++ [Tx RESP_OK] /\
  ledCount st1 = n /\
  capacity st1 = capacity st /\
  forall req q' rest',
    well_formed req -> within n req ->
    delivers st1 q' (payload req) rest' ->
    let st2 := exec (processCommand (opcode req)) st1 in
    trace st2 = trace st1 ++ answer req st2 /\ rx st2 = rest'.
Proof.
  intros Hinit Hn Hcap Hd st1.
  assert (Hst1 : ledCount st1 = n /\ ledStrip st1 = ledStrip st /\
                 stripInitialized st1 = true /\
                 trace st1 = trace st ++ [Tx RESP_OK]).
  { subst st1. change (processCommand CMD_SET_LED_COUNT) with cmdSetLedCount.
    unfold exec.
    rewrite (cmdSetLedCount_run st q rest n); [ | unfold word; lia | exact Hd ].
    cbn [snd]. cbv zeta.
    rewrite (proj2 (Z.gtb_gt _ _)), (proj2 (Z.leb_le _ _)) by lia. cbn [andb].
    destruct_state st. repeat split; reflexivity. }
  clearbody st1.
  destruct Hst1 as (Hn1 & Hstrip1 & Hinit1 & Htrace1).
  split; [exact Htrace1|]. split; [exact Hn1|].
  split; [unfold capacity; rewrite Hstrip1; reflexivity|].
  intros req q' rest' Hwf Hin Hd' st2. subst st2.
  rewrite <- Hn1 in Hin. destruct (within_in_range st1 req Hin) as [Hr Hne].
  destruct (indices_writes req Hne) as [Hwr Hnb].
  unfold exec.
  rewrite (write_run st1 q' rest' req Hinit1 Hwr Hwf
             (indices_streaming req st1 Hne) Hd' (or_introl Hr)).
  cbn [snd].
  destruct (outcome_accepted req (received q' rest' st1) Hr)
    as (_ & Htr & Hrx & _).
  split; [exact Htr|exact Hrx].
Qed.

Lemma count_check_ignores_capacity_witness :
  let req := SetPixelRGBW 150 (mkRGBW 1 2 3 4) in
  let st1 := exec (processCommand CMD_SET_LED_COUNT) grown in
  let st2 := exec (processCommand (opcode req)) st1 in
  capacity grown = 107 /\ ledCount st1 = 200 /\ capacity st1 = 107 /\
  trace st1 = trace grown ++ [Tx RESP_OK] /\
  trace st2 = trace st1 ++ answer req st2 /\ rx st2 = [].
Proof.
  intros req st1 st2.
  destruct (count_check_ignores_capacity grown
              ((fun x => (0, x)) <$> payload (SetLedCount 200))
              ((fun x => (0, x)) <$> payload req) 200)
    as (Htrace & Hn & Hcap & Hacc).
  - reflexivity.
  - computed.
  - computed.
  - delivered.
  - destruct (Hacc req ((fun x => (0, x)) <$> payload req) []) as [Htr Hrx].
    + computed.
    + computed.
    + delivered.
    + split; [reflexivity|]. split; [exact Hn|]. split; [exact Hcap|].
      split; [exact Htrace|]. split; [exact Htr|exact Hrx].
Defined.

(** * Brightness *)

Lemma asked_byte st req :
  well_formed req -> in_range st req = true ->
  Forall (fun iw => byte_color iw.2) (asked st req).
Proof.
  assert (Hzero : byte_color (mkRGBW 0 0 0 0)) by (repeat split; cbn; lia).
  destruct req; cbn [well_formed in_range asked]; intros Hwf Hr;
    try apply Forall_nil_2.
  - destruct Hwf as [_ Hc]. apply Forall_singleton. exact Hc.
  - destruct Hwf as (_ & Hr' & Hg & Hb). apply Forall_singleton.
    repeat split; cbn; solve [apply Hr' | apply Hg | apply Hb | lia].
  - destruct Hwf as [_ Hw]. apply Forall_singleton.
    repeat split; cbn; solve [apply Hw | lia].
  - destruct Hwf as (_ & _ & Hc). apply Forall_fmap, list.Forall_forall.
    intros i _. exact Hc.
  - apply Forall_fmap, list.Forall_forall. intros i _. exact Hwf.
  - apply Forall_fmap, list.Forall_forall. intros i _. exact Hzero.
  - destruct Hwf as [_ Hc]. apply Forall_singleton. exact Hc.
  - apply Forall_singleton. exact Hwf.
  - destruct Hwf as [_ Hcs]. apply list.Forall_forall. intros [i c] Hin.
    apply elem_of_zip_r in Hin. rewrite list.Forall_forall in Hcs.
    apply Hcs. exact Hin.
  - destruct Hwf as (_ & _ & H1 & H2).
    apply andb_prop in Hr as [_ Hle]. apply Z.leb_le in Hle.
    apply Forall_fmap, list.Forall_forall. intros i Hi.
    apply elem_of_seqZ in Hi. cbn.
    apply gradient_byte; [exact H1 | exact H2 | lia].
Qed.

Lemma paint_store gb ws s :
  byte gb -> Forall (fun iw => byte_color iw.2) ws ->
  paint gb ws s = store gb ws s.
Proof.
  intros Hgb Hws. revert s. unfold paint, store.
  induction Hws as [|[i c] ws Hc _ IH]; intros s; [reflexivity|].
  cbn [foldl fst snd]. cbn [snd] in Hc.
  rewrite (scaled_dimmed gb c Hgb Hc). apply IH.
Qed.

(** C2. At brightness [gb], [applyBrightness] turns each channel [v] of a
    colour into [floor (v * gb / 256)], and into [v] itself at 255; so 255
    leaves 0, 127 and 255 as they are and 128 turns 255 into 127.  Every
    accepted write command stores, at the indices it writes, the colours it
    asks for dimmed in that way.  Setting the brightness changes the value
    in force and nothing of what the strip already holds. *)
Theorem brightness_scaling st q rest req :
  stripInitialized st = true -> byte (globalBrightness st) ->
  writes req = true -> well_formed req -> streaming st req ->
  in_range st req = true ->
  delivers st q (payload req) rest ->
  let gb := globalBrightness st in
  (forall c, byte_color c ->
     applyBrightness c st = (dimmed_color gb c, st)) /\
  (applyBrightness (mkRGBW 0 127 255 255) (set_globalBrightness 255 st)).1
  = mkRGBW 0 127 255 255 /\
  (applyBrightness (mkRGBW 255 255 255 255) (set_globalBrightness 128 st)).1
  = mkRGBW 127 127 127 127 /\
  (let st' := exec (processCommand (opcode req)) st in
   ledStrip st' = store gb (asked st req) <$> ledStrip st /\
   globalBrightness st' = gb) /\
  (forall value q' rest', byte value -> delivers st q' [value] rest' ->
     let st' := exec (processCommand CMD_BRIGHTNESS) st in
     globalBrightness st' = value /\ ledStrip st' = ledStrip st /\
     trace st' = trace st ++ [Tx RESP_OK]).
Proof.
  intros Hinit Hgb Hwr Hwf Hs Hr Hd gb.
  split.
  { intros c Hc. rewrite applyBrightness_eq.
    rewrite (scaled_dimmed _ c Hgb Hc). reflexivity. }
  split; [rewrite applyBrightness_eq; reflexivity|].
  split; [rewrite applyBrightness_eq; reflexivity|].
  split.
  - intros st'. subst st'. unfold exec.
    rewrite (write_run st q rest req Hinit Hwr Hwf Hs Hd (or_introl Hr)).
    cbn [snd].
    destruct (outcome_accepted req (received q rest st) Hr)
      as (Hstrip & _ & _ & _ & _ & _ & Hb).
    split; [|exact Hb].
    rewrite Hstrip.
    change (globalBrightness (received q rest st)) with gb.
    change (asked (received q rest st) req) with (asked st req).
    change (ledStrip (received q rest st)) with (ledStrip st).
    destruct (ledStrip st) as [s|]; [|reflexivity]. cbn [fmap option_fmap option_map].
    f_equal. apply paint_store; [exact Hgb|].
    apply asked_byte; assumption.
  - intros value q' rest' Hv Hd' st'. subst st'.
    change (processCommand CMD_BRIGHTNESS) with cmdSetBrightness.
    unfold exec. rewrite (cmdSetBrightness_run st q' rest' value Hv Hd').
    cbn [snd]. destruct_state st. repeat split; reflexivity.
Qed.

Lemma brightness_scaling_witness :
  let st' := exec (processCommand CMD_SET_ALL_RGBW) half_bright in
  ledStrip st'
  = store 128 ((fun i => (i, mkRGBW 255 127 0 255)) <$> seqZ 0 107)
      <$> ledStrip half_bright /\
  pixel st' 106 = Some (mkRGBW 127 63 0 127).
Proof.
  intros st'.
  destruct (brightness_scaling half_bright
              ((fun x => (0, x)) <$> payload (SetAll (mkRGBW 255 127 0 255)))
              [] (SetAll (mkRGBW 255 127 0 255)))
    as (_ & _ & _ & [Hstore _] & _).
  - reflexivity.
  - computed.
  - reflexivity.
  - computed.
  - exact I.
  - reflexivity.
  - delivered.
  - split; [exact Hstore|]. vm_compute. reflexivity.
Defined.

(** * Waiting for a payload that does not come *)

Lemma arrived_mono now now' q : now <= now' -> arrived now q <= arrived now' q.
Proof.
  intros Hle. induction q as [|[t x] q IH]; cbn [arrived]; [lia|].
  pose proof (arrived_nonneg now' q).
  destruct (Z.leb_spec t now), (Z.leb_spec t now'); lia.
Qed.

Lemma wait_loop_late budget : forall st count,
  arrived (clock st + Z.of_nat budget) (rx st) < count ->
  wait_loop budget count st = (false, timed_out (Z.of_nat budget) st).
Proof.
  induction budget as [|k IH]; intros st count Hlate; cbn [wait_loop].
  - rewrite Z.add_0_r in Hlate. rewrite (proj2 (Z.ltb_lt _ _) Hlate).
    unfold timed_out. rewrite Z.add_0_r, set_clock_id.
    destruct_state st. cbv -[app]. rewrite <- app_assoc. reflexivity.
  - pose proof (arrived_mono (clock st) (clock st + Z.of_nat (S k)) (rx st)
                  ltac:(lia)) as Hm.
    rewrite (proj2 (Z.ltb_lt _ _)) by lia.
    rewrite IH.
    + unfold timed_out. destruct_state st. squash.
      replace (clk0 + 1 + Z.of_nat k) with (clk0 + Z.of_nat (S k)) by lia.
      reflexivity.
    + cbn [clock rx set_clock].
      replace (clock st + 1 + Z.of_nat k) with (clock st + Z.of_nat (S k))
        by lia.
      destruct st; exact Hlate.
Qed.

Lemma wait_loop_first budget : forall st count,
  count <= arrived (clock st + Z.of_nat budget) (rx st) ->
  exists t, clock st <= t <= clock st + Z.of_nat budget /\
            wait_loop budget count st = (true, set_clock t st) /\
            count <= arrived t (rx st) /\
            forall t', clock st <= t' < t -> arrived t' (rx st) < count.
Proof.
  induction budget as [|k IH]; intros st count Hthere; cbn [wait_loop];
    destruct (Z.ltb_spec (arrived (clock st) (rx st)) count) as [Hlt|Hge].
  - rewrite Z.add_0_r in Hthere. lia.
  - exists (clock st). rewrite set_clock_id.
    repeat split; lia.
  - assert (Hc : clock (set_clock (clock st + 1) st) = clock st + 1)
      by (destruct st; reflexivity).
    assert (Hr : rx (set_clock (clock st + 1) st) = rx st)
      by (destruct st; reflexivity).
    assert (Hs : forall t, set_clock t (set_clock (clock st + 1) st)
                           = set_clock t st)
      by (intros t; destruct st; reflexivity).
    destruct (IH (set_clock (clock st + 1) st) count)
      as (t & Ht & Hrun & Hat & Hbefore).
    + rewrite Hc, Hr.
      replace (clock st + 1 + Z.of_nat k) with (clock st + Z.of_nat (S k))
        by lia.
      exact Hthere.
    + rewrite Hc in Ht. rewrite Hr in Hat. rewrite Hs in Hrun.
      exists t. split; [lia|]. split; [exact Hrun|]. split; [exact Hat|].
      intros t' Ht'. destruct (Z.eq_dec t' (clock st)) as [->|Hne]; [exact Hlt|].
      specialize (Hbefore t'). rewrite Hc, Hr in Hbefore. apply Hbefore. lia.
  - exists (clock st). rewrite set_clock_id.
    repeat split; lia.
Qed.

Lemma waitForBytes_budget count timeout st :
  waitForBytes count timeout st
  = wait_loop (Z.to_nat (timeout + 1)) count st.
Proof.
  unfold waitForBytes, wait_until, millis, bind, get.
  replace (clock st + timeout + 1 - clock st) with (timeout + 1) by lia.
  reflexivity.
Qed.

Lemma waitForBytes_late count timeout st :
  0 <= timeout ->
  arrived (clock st + timeout + 1) (rx st) < count ->
  waitForBytes count timeout st = (false, timed_out (timeout + 1) st).
Proof.
  intros Ht Hlate. rewrite waitForBytes_budget, wait_loop_late.
  - rewrite Z2Nat.id by lia. reflexivity.
  - rewrite Z2Nat.id by lia. rewrite Z.add_assoc. exact Hlate.
Qed.

(** X1. [waitForBytes] gives up exactly when fewer than [count] bytes are
    there once [millis() - startTime] has passed [timeout]: it then sends
    the Timeout error and returns [false], with the clock one millisecond
    past the timeout.  Otherwise it returns [true] at the first millisecond
    at which [count] bytes are there and sends nothing.  In both cases it
    reads nothing from the port. *)
Theorem waitForBytes_decides st count timeout :
  0 <= timeout ->
  let deadline := clock st + timeout + 1 in
  (arrived deadline (rx st) < count ->
   waitForBytes count timeout st = (false, timed_out (timeout + 1) st)) /\
  (count <= arrived deadline (rx st) ->
   exists t, clock st <= t <= deadline /\
     waitForBytes count timeout st = (true, set_clock t st) /\
     count <= arrived t (rx st) /\
     forall t', clock st <= t' < t -> arrived t' (rx st) < count).
Proof.
  intros Ht deadline. subst deadline. split.
  - apply waitForBytes_late. exact Ht.
  - intros Hthere. rewrite waitForBytes_budget.
    destruct (wait_loop_first (Z.to_nat (timeout + 1)) st count)
      as (t & Hrange & Hrun & Hat & Hbefore).
    + rewrite Z2Nat.id by lia. rewrite Z.add_assoc. exact Hthere.
    + rewrite Z2Nat.id in Hrange by lia.
      exists t. split; [lia|]. split; [exact Hrun|].
      split; [exact Hat|exact Hbefore].
Qed.

Lemma waitForBytes_decides_witness :
  waitForBytes 3 1000 starved = (false, timed_out 1001 starved) /\
  rx (timed_out 1001 starved) = [(0, 0); (0, 5); (1500, 200)] /\
  fst (waitForBytes 2 1000 starved) = true.
Proof.
  pose proof (waitForBytes_decides starved 3 1000 ltac:(lia)) as [Hlate _].
  split; [apply Hlate; computed|].
  split; [reflexivity|]. vm_compute. reflexivity.
Defined.

Ltac dispatch :=
  unfold processCommand;
  repeat match goal with
         | |- context [?a =? ?b] =>
             let v := eval vm_compute in (a =? b) in
             change (a =? b) with v
         end;
  cbv iota.

(** X2. Every command with a payload, the payload of which is not
    complete 1001 ms after the command byte was read, answers with the
    Timeout error and does nothing else: the bytes that did arrive stay in
    the receive buffer, and no global of the sketch changes. *)
Theorem payload_timeout cmd n st :
  (cmd, n) ∈ payload_sizes ->
  (cmd ∈ guarded -> stripInitialized st = true) ->
  (cmd = CMD_STREAM_DATA -> streamMode st = true) ->
  arrived (clock st + 1001) (rx st) < n ->
  processCommand cmd st = (tt, timed_out 1001 st).
Proof.
  intros Hcmd Hinit Hmode Hlate. unfold payload_sizes in Hcmd.
  assert (Hw : waitForBytes n 1000 st = (false, timed_out 1001 st))
    by (apply (waitForBytes_late n 1000 st); [lia|];
        replace (clock st + 1000 + 1) with (clock st + 1001) by lia;
        exact Hlate).
  repeat (apply elem_of_cons in Hcmd as [[= -> ->]|Hcmd]);
    [ .. | apply elem_of_nil in Hcmd; contradiction ].
  all: try (assert (Hi : stripInitialized st = true)
              by (apply Hinit; unfold guarded; repeat constructor)).
  all: try (assert (Hm : streamMode st = true) by (apply Hmode; reflexivity)).
  all: dispatch; unfold_handlers; rewrite ?run_get, ?Hi, ?Hm; cbn [negb orb];
    unfold bind at 1; rewrite Hw; reflexivity.
Qed.

Lemma payload_timeout_witness :
  processCommand CMD_SET_PIXEL_RGBW starved = (tt, timed_out 1001 starved).
Proof.
  apply (payload_timeout CMD_SET_PIXEL_RGBW 6 starved).
  - unfold payload_sizes. repeat constructor.
  - intros _. reflexivity.
  - intros H. discriminate H.
  - computed.
Defined.

(** * Configuration commands *)

(** X3. set_led_count takes a count from 1 to 1000: it stores it as the
    LED count and answers OK.  A count of 0, or above 1000, is answered
    with the InvalidParam error and the LED count stays as it was.  Either
    way nothing else changes; the strip in particular is not reallocated. *)
Theorem set_led_count_validates st q rest count :
  word count -> delivers st q (wire16 count) rest ->
  (0 < count <= 1000 ->
   processCommand CMD_SET_LED_COUNT st
   = (tt, set_trace (trace st ++ [Tx RESP_OK])
            (set_ledCount count (received q rest st)))) /\
  (count = 0 \/ 1000 < count ->
   processCommand CMD_SET_LED_COUNT st
   = (tt, set_trace (trace st ++ [Tx RESP_ERROR; Tx ERR_INVALID_PARAM])
            (received q rest st))).
Proof.
  intros Hw Hd. change (processCommand CMD_SET_LED_COUNT) with cmdSetLedCount.
  rewrite (cmdSetLedCount_run st q rest count Hw Hd). cbv zeta.
  split; intros Hc.
  - rewrite (proj2 (Z.gtb_gt _ _)), (proj2 (Z.leb_le _ _)) by lia.
    destruct_state st. reflexivity.
  - replace ((count >? 0) && (count <=? 1000)) with false.
    + destruct_state st. cbv -[app]. rewrite <- app_assoc. reflexivity.
    + symmetry. apply andb_false_iff. unfold word in Hw.
      destruct Hc as [->|Hc]; [left; reflexivity|right].
      apply Z.leb_gt. exact Hc.
Qed.

Lemma set_led_count_validates_witness :
  let st := board (wire16 1001) in
  processCommand CMD_SET_LED_COUNT st
  = (tt, set_trace (trace st ++ [Tx RESP_ERROR; Tx ERR_INVALID_PARAM])
           (received ((fun x => (0, x)) <$> wire16 1001) [] st)).
Proof.
  intros st.
  apply (set_led_count_validates st ((fun x => (0, x)) <$> wire16 1001) [] 1001).
  - computed.
  - delivered.
  - right. lia.
Defined.

Lemma cmdSetLedPin_run st q rest pin :
  byte pin -> delivers st q [pin] rest ->
  cmdSetLedPin st =
  (tt, let st1 := received q rest st in
       if pin <? 20
       then exec (modify (set_ledPin pin) ;; sendResponse RESP_OK) st1
       else exec (sendError ERR_INVALID_PARAM) st1).
Proof.
  intros Hw Hd. unpack_wire. unfold cmdSetLedPin.
  read_payload st q rest H H0 H1. normalize_wire.
  destruct (_ <? _); reflexivity.
Qed.

(** X4. set_led_pin takes a pin below 20: it stores it as the pin and
    answers OK.  A pin of 20 or more is answered with the InvalidParam
    error.  Either way the strip is left as it is, the pin it drives
    included: a new pin is used from the next (re)initialisation on. *)
Theorem set_led_pin_validates st q rest pin :
  byte pin -> delivers st q [pin] rest ->
  let st' := exec (processCommand CMD_SET_LED_PIN) st in
  ledStrip st' = ledStrip st /\
  (pin < 20 ->
   processCommand CMD_SET_LED_PIN st
   = (tt, set_trace (trace st ++ [Tx RESP_OK])
            (set_ledPin pin (received q rest st)))) /\
  (20 <= pin ->
   processCommand CMD_SET_LED_PIN st
   = (tt, set_trace (trace st ++ [Tx RESP_ERROR; Tx ERR_INVALID_PARAM])
            (received q rest st))).
Proof.
  intros Hw Hd st'. subst st'. unfold exec.
  change (processCommand CMD_SET_LED_PIN) with cmdSetLedPin.
  rewrite (cmdSetLedPin_run st q rest pin Hw Hd). cbv zeta. cbn [snd].
  split; [destruct (pin <? 20); destruct_state st; reflexivity|].
  split; intros Hc.
  - rewrite (proj2 (Z.ltb_lt _ _)) by lia. destruct_state st. reflexivity.
  - rewrite (proj2 (Z.ltb_ge _ _)) by lia.
    destruct_state st. cbv -[app]. rewrite <- app_assoc. reflexivity.
Qed.

Lemma set_led_pin_validates_witness :
  let st' := exec (processCommand CMD_SET_LED_PIN) (repinned 9) in
  ledPin st' = 9 /\
  SK6812.output <$> ledStrip st' = Some (Some 6) /\
  trace st' = trace (repinned 9) ++ [Tx RESP_OK].
Proof.
  intros st'.
  destruct (set_led_pin_validates (repinned 9) [(0, 9)] [] 9)
    as (Hstrip & Hok & _).
  - computed.
  - delivered.
  - subst st'. unfold exec. rewrite Hok by lia. cbn [snd].
    repeat split; reflexivity.
Defined.

Lemma init_strip_run st :
  processCommand CMD_INIT_STRIP st
  = (tt,
     let dark := replicate (Z.to_nat (ledCount st)) black in
     set_trace (trace st ++ [Commit dark (Some (ledPin st)); Tx RESP_OK])
       (set_stripInitialized true
          (set_ledStrip (Some (SK6812.mk dark (Some (ledPin st)))) st))).
Proof.
  apply run_unit.
  change (processCommand CMD_INIT_STRIP)
    with (n <- get ledCount ;; pin <- get ledPin ;;
          initializeStrip n pin ;; sendResponse RESP_OK).
  rewrite !exec_get.
  rewrite (exec_bind _ _ _ _ _ (initializeStrip_run _ _ st)).
  destruct_state st. unfold exec. cbn. rewrite <- app_assoc. reflexivity.
Qed.

(** X5. init_strip creates a new strip from the LED count and pin in
    force: that many black pixels, on that pin, whatever the heap held.
    It commits the black frame, marks the store initialized and answers
    OK.  Unlike reset it keeps the LED count, the pin and the brightness;
    the stream session is untouched. *)
Theorem init_strip_uses_configuration st :
  let st' := exec (processCommand CMD_INIT_STRIP) st in
  let dark := replicate (Z.to_nat (ledCount st)) black in
  ledStrip st' = Some (SK6812.mk dark (Some (ledPin st))) /\
  stripInitialized st' = true /\
  ledCount st' = ledCount st /\ ledPin st' = ledPin st /\
  globalBrightness st' = globalBrightness st /\
  session st' = session st /\
  rx st' = rx st /\
  trace st' = trace st ++ [Commit dark (Some (ledPin st)); Tx RESP_OK].
Proof.
  intros st' dark. subst st' dark. unfold exec.
  rewrite init_strip_run. destruct_state st. repeat split; reflexivity.
Qed.

Lemma replicate_lookup_Z {A} (x : A) n i :
  0 <= i < n -> replicate (Z.to_nat n) x !! Z.to_nat i = Some x.
Proof. intros Hi. apply lookup_replicate_2. lia. Qed.

(** X6. A valid set_led_count followed by init_strip leaves a strip of
    exactly the new count: every index below it holds a black pixel, no
    index from it on exists, and count and capacity agree again. *)
Theorem resize_then_init st q rest n :
  0 < n <= 1000 -> delivers st q (wire16 n) rest ->
  let st' := exec (processCommand CMD_SET_LED_COUNT ;;
                   processCommand CMD_INIT_STRIP) st in
  ledCount st' = n /\ capacity st' = n /\
  (forall i, 0 <= i < n -> pixel st' i = Some black) /\
  (forall i, n <= i -> pixel st' i = None) /\
  trace st'
  = trace st ++ [Tx RESP_OK; Commit (replicate (Z.to_nat n) black)
                                    (Some (ledPin st)); Tx RESP_OK].
Proof.
  intros Hn Hd st'.
  set (dark := replicate (Z.to_nat n) black).
  set (st1 := set_trace (trace st ++ [Tx RESP_OK])
                (set_ledCount n (received q rest st))).
  assert (Hst : st' = set_trace (trace st1 ++ [Commit dark (Some (ledPin st));
                                               Tx RESP_OK])
                        (set_stripInitialized true
                           (set_ledStrip
                              (Some (SK6812.mk dark (Some (ledPin st)))) st1))).
  { subst st'. rewrite exec_seq.
    change (processCommand CMD_SET_LED_COUNT) with cmdSetLedCount.
    unfold exec.
    rewrite (cmdSetLedCount_run st q rest n); [ | unfold word; lia | exact Hd ].
    cbn [snd]. cbv zeta.
    rewrite (proj2 (Z.gtb_gt _ _)), (proj2 (Z.leb_le _ _)) by lia. cbn [andb].
    rewrite init_strip_run. cbn [snd].
    destruct_state st. reflexivity. }
  clearbody st'. subst st'.
  split; [reflexivity|].
  split.
  { unfold capacity. cbn. unfold SK6812.count_led. cbn.
    unfold dark. rewrite length_replicate. lia. }
  split.
  { intros i Hi. rewrite pixel_nonneg by lia. cbn.
    apply replicate_lookup_Z. exact Hi. }
  split.
  { intros i Hi. rewrite pixel_nonneg by lia. cbn.
    apply lookup_ge_None_2. unfold dark. rewrite length_replicate. lia. }
  cbn. rewrite <- app_assoc. reflexivity.
Qed.

Lemma resize_then_init_witness :
  let st' := exec (processCommand CMD_SET_LED_COUNT ;;
                   processCommand CMD_INIT_STRIP) (board (wire16 200)) in
  ledCount st' = 200 /\ capacity st' = 200 /\
  pixel st' 199 = Some black /\ pixel st' 200 = None.
Proof.
  intros st'.
  destruct (resize_then_init (board (wire16 200))
              ((fun x => (0, x)) <$> wire16 200) [] 200)
    as (Hn & Hcap & Hin & Hout & _).
  - lia.
  - delivered.
  - split; [exact Hn|]. split; [exact Hcap|].
    split; [apply Hin; lia|apply Hout; lia].
Defined.

(** * Information and unknown commands *)

Lemma info_bytes n :
  word n ->
  u8 (Z.land (Z.shiftr n 8) 255) = n / 256 /\ u8 (Z.land n 255) = n mod 256.
Proof.
  intros Hn. pose proof (wire16_bytes n Hn) as [Hhi Hlo].
  change 255 with (Z.ones 8). rewrite !Z.land_ones by lia.
  rewrite Z.shiftr_div_pow2 by lia. change (2 ^ 8) with 256.
  unfold byte in *. unfold u8.
  rewrite !Z.mod_mod by lia. rewrite Z.mod_small by lia.
  split; reflexivity.
Qed.

(** X7. get_info answers with seven bytes: the Info marker, the protocol
    version 11, the LED count as two bytes, high byte first (the layout
    in which set_led_count receives it), the pin, 1 or 0 for the
    initialized flag, and the brightness.  It changes nothing. *)
Theorem get_info_reply st :
  word (ledCount st) -> byte (ledPin st) -> byte (globalBrightness st) ->
  processCommand CMD_GET_INFO st
  = (tt, set_trace
           (trace st ++
            (Tx <$> [RESP_INFO; PROTOCOL_VERSION] ++ wire16 (ledCount st) ++
                    [ledPin st; if stripInitialized st then 1 else 0;
                     globalBrightness st])) st).
Proof.
  intros Hn Hpin Hgb. change (processCommand CMD_GET_INFO) with sendInfo.
  apply run_unit. unfold sendInfo. rewrite !exec_get.
  destruct (info_bytes _ Hn) as [Hhi Hlo].
  unfold exec, bind, Serial.write, modify. cbn [snd].
  change 0xFF with 255. rewrite Hhi, Hlo.
  rewrite (u8_small (ledPin st)), (u8_small (globalBrightness st))
    by assumption.
  destruct_state st. squash. unfold wire16. cbn [fmap list_fmap app].
  rewrite <- !app_assoc. cbn [app].
  destruct init0; reflexivity.
Qed.

Lemma get_info_reply_witness :
  sent (trace (exec (processCommand CMD_GET_INFO) (board [])))
  = [RESP_INFO; 11; 0; 107; 6; 1; 255] /\
  be16 0 107 = 107.
Proof.
  split; [|reflexivity]. unfold exec.
  rewrite (get_info_reply (board [])); [reflexivity|computed..].
Defined.

Ltac not_listed H :=
  repeat (apply elem_of_cons in H as [H|H]; [discriminate H|]);
  apply elem_of_nil in H; exact H.

(** X8. A byte that is no command is answered with the UnknownCommand
    byte 0xFF alone; nothing is read from the port and nothing changes. *)
Theorem unknown_command cmd st :
  cmd ∉ commands ->
  processCommand cmd st = (tt, set_trace (trace st ++ [Tx RESP_UNKNOWN_CMD]) st).
Proof.
  intros Hcmd. unfold processCommand.
  repeat match goal with
         | |- context [cmd =? ?c] =>
             destruct (Z.eqb_spec cmd c) as [->|_];
               [exfalso; apply Hcmd; unfold commands; repeat constructor|]
         end.
  reflexivity.
Qed.

Lemma unknown_command_witness :
  processCommand RESP_OK (board [CMD_PING])
  = (tt, set_trace (trace (board [CMD_PING]) ++ [Tx RESP_UNKNOWN_CMD])
           (board [CMD_PING])).
Proof.
  apply (unknown_command RESP_OK (board [CMD_PING])).
  intros H. unfold commands in H. not_listed H.
Defined.

(** * Sixteen-bit values on the wire *)

(** X9. The decoding [(Serial.read() << 8) | Serial.read()] into a
    [uint16_t] and the two-byte layout of the host are inverse to each
    other, over the whole 16-bit range: for a high byte of 128 or more the
    shift overflows the 16-bit [int] into a negative number, and the
    decoded value is still [256 * hi + lo]. *)
Theorem index_wire_round_trip :
  (forall x, word x -> be16 (x / 256) (x mod 256) = x) /\
  (forall hi lo, byte hi -> byte lo ->
     be16 hi lo = 256 * hi + lo /\ wire16 (be16 hi lo) = [hi; lo]) /\
  (forall hi, 128 <= hi < 256 -> int16 (Z.shiftl hi 8) = 256 * hi - 65536).
Proof.
  split; [exact be16_wire16|]. split.
  - intros hi lo Hhi Hlo. rewrite (be16_spec hi lo Hhi Hlo).
    split; [reflexivity|]. unfold wire16, byte in *.
    f_equal; [|f_equal]; Z.div_mod_to_equations; lia.
  - intros hi Hhi. unfold int16. rewrite Z.shiftl_mul_pow2 by lia.
    change (2 ^ 8) with 256.
    replace (hi * 256 + 32768) with ((hi * 256 - 32768) + 1 * 65536) by lia.
    rewrite Z.mod_add by lia. rewrite Z.mod_small by lia. lia.
Qed.

(** * Opening and closing a stream *)

(** X10. stream_start takes every 16-bit count: it is not compared with
    the LED count.  It stores the count, sets the cursor to 0 (also when a
    session is already open), marks the session active and answers OK;
    it writes no pixel and commits nothing. *)
Theorem stream_start_opens st q rest count :
  stripInitialized st = true -> word count ->
  delivers st q (wire16 count) rest ->
  processCommand CMD_STREAM_START st
  = (tt, set_trace (trace st ++ [Tx RESP_OK])
           (set_streamMode true
              (set_streamIndex 0
                 (set_streamCount count (received q rest st))))).
Proof.
  intros Hinit Hw Hd. change (processCommand CMD_STREAM_START) with cmdStreamStart.
  rewrite (cmdStreamStart_run st q rest count Hinit Hw Hd).
  destruct_state st. reflexivity.
Qed.

Lemma stream_start_opens_witness :
  let st' := exec (processCommand CMD_STREAM_START) (board (wire16 5000)) in
  ledCount st' = 107 /\ session st' = (true, 0, 5000) /\
  trace st' = trace (board (wire16 5000)) ++ [Tx RESP_OK].
Proof.
  intros st'. subst st'. unfold exec.
  rewrite (stream_start_opens (board (wire16 5000))
             ((fun x => (0, x)) <$> wire16 5000) [] 5000).
  - repeat split; reflexivity.
  - reflexivity.
  - computed.
  - delivered.
Defined.

Lemma stream_data_closed st :
  stripInitialized st = false \/ streamMode st = false ->
  processCommand CMD_STREAM_DATA st
  = (tt, set_trace (trace st ++ [Tx RESP_ERROR; Tx ERR_NOT_INITIALIZED]) st).
Proof.
  intros H. change (processCommand CMD_STREAM_DATA) with cmdStreamData.
  apply run_unit. unfold cmdStreamData. rewrite !exec_get.
  replace (negb (stripInitialized st) || negb (streamMode st)) with true
    by (destruct H as [-> | ->]; [reflexivity|apply eq_sym, orb_true_r]).
  destruct_state st. cbv -[app]. rewrite <- app_assoc. reflexivity.
Qed.

(** X11. stream_end commits the buffer as it is, closes the session
    (inactive, cursor 0, count 0) and answers OK.  With no session open,
    stream_data is answered with the NotInitialized error, store
    initialized or not, and reads none of the bytes that follow it. *)
Theorem stream_end_closes st :
  stripInitialized st = true ->
  let st1 := exec (processCommand CMD_STREAM_END) st in
  session st1 = (false, 0, 0) /\
  ledStrip st1 = ledStrip st /\ rx st1 = rx st /\
  trace st1 = trace st ++ frame st ++ [Tx RESP_OK] /\
  (forall s, streamMode s = false ->
     processCommand CMD_STREAM_DATA s
     = (tt, set_trace (trace s ++ [Tx RESP_ERROR; Tx ERR_NOT_INITIALIZED]) s)) /\
  trace (exec (processCommand CMD_STREAM_DATA) st1)
  = trace st1 ++ [Tx RESP_ERROR; Tx ERR_NOT_INITIALIZED].
Proof.
  intros Hinit st1.
  assert (Hst1 : st1 = set_trace (trace st ++ frame st ++ [Tx RESP_OK])
                         (set_streamCount 0
                            (set_streamIndex 0 (set_streamMode false st)))).
  { subst st1. change (processCommand CMD_STREAM_END) with cmdStreamEnd.
    unfold cmdStreamEnd. rewrite exec_get, Hinit. cbn [negb].
    destruct_state st. destruct strip0; cbv -[app]; rewrite <- ?app_assoc;
      reflexivity. }
  clearbody st1. subst st1.
  split; [reflexivity|]. split; [reflexivity|]. split; [reflexivity|].
  split; [reflexivity|].
  split; [intros s Hs; apply stream_data_closed; right; exact Hs|].
  unfold exec. rewrite stream_data_closed by (right; reflexivity).
  reflexivity.
Qed.

Lemma stream_end_closes_witness :
  let st1 := exec (processCommand CMD_STREAM_END) mid_stream in
  session mid_stream = (true, 2, 5) /\ session st1 = (false, 0, 0) /\
  rx st1 = rx mid_stream /\
  trace (exec (processCommand CMD_STREAM_DATA) st1)
  = trace st1 ++ [Tx RESP_ERROR; Tx ERR_NOT_INITIALIZED].
Proof.
  intros st1.
  destruct (stream_end_closes mid_stream) as (Hs & _ & Hrx & _ & _ & Herr).
  - reflexivity.
  - split; [reflexivity|]. split; [exact Hs|]. split; [exact Hrx|exact Herr].
Defined.

(** * Buffer mode *)

Lemma loops_app n m st :
  exec (loops (n + m)) st = exec (loops m) (exec (loops n) st).
Proof.
  revert st. induction n as [|n IH]; intros st; [reflexivity|].
  cbn [Nat.add loops]. rewrite !exec_seq. apply IH.
Qed.

Lemma buffer_pixels_run ws : forall st q rest,
  stripInitialized st = true ->
  Forall (fun iw => word iw.1 /\ byte_color iw.2 /\ iw.1 < ledCount st) ws ->
  rx st = q ++ rest ->
  q.*2 = frames ((fun iw => BufferPixel iw.1 iw.2) <$> ws) ->
  in_time (clock st) q ->
  exec (loops (length ws)) st
  = set_rx rest
      (set_trace (trace st ++ replicate (length ws) (Tx RESP_OK))
         (set_ledStrip (paint (globalBrightness st) ws <$> ledStrip st) st)).
Proof.
  induction ws as [|[i c] ws IH]; intros st q rest Hinit Hws Hrx Hq Hin.
  - destruct q; [|discriminate]. cbn in Hrx. unfold exec. cbn.
    rewrite app_nil_r.
    destruct st as [[s|] ? ? ? ? ? ? ? ? ? ? ? ?]; cbn in *; subst; reflexivity.
  - apply Forall_cons_1 in Hws as [(Hi & Hc & Hlt) Hws]. cbn [fst snd] in *.
    cbn [fmap list_fmap] in Hq. rewrite frames_cons in Hq.
    cbn [opcode payload wire16 wire_color app] in Hq.
    destruct q as [|[t0 x0] [|[t1 x1] [|[t2 x2] [|[t3 x3] [|[t4 x4]
                    [|[t5 x5] [|[t6 x6] q]]]]]]]; try discriminate.
    cbn in Hq. injection Hq as -> -> -> -> -> -> -> Hq.
    split_in_time.
    cbn [length loops]. rewrite exec_seq.
    set (q1 := [(t1, i / 256); (t2, i mod 256);
                (t3, r c); (t4, g c); (t5, b c); (t6, w c)]).
    set (st0 := set_rx (q1 ++ q ++ rest) st).
    assert (Hr : in_range (set_rx (q ++ rest) st) (BufferPixel i c) = true)
      by (cbn; apply Z.ltb_lt; destruct st; exact Hlt).
    assert (Hloop : exec loop st
                    = outcome (BufferPixel i c) (set_rx (q ++ rest) st)).
    { unfold exec. rewrite (loop_run st t0 CMD_BUFFER_PIXEL (q1 ++ q ++ rest));
        [ | exact Hrx | assumption | unfold byte, CMD_BUFFER_PIXEL; lia ].
      change (processCommand CMD_BUFFER_PIXEL (set_rx (q1 ++ q ++ rest) st))
        with (processCommand (opcode (BufferPixel i c)) st0).
      rewrite (write_run st0 q1 (q ++ rest) (BufferPixel i c)).
      - cbn [snd]. rewrite received_buffered.
        + destruct st; reflexivity.
        + repeat constructor; assumption.
      - exact Hinit.
      - reflexivity.
      - split; assumption.
      - exact I.
      - split; [reflexivity|]. split; [reflexivity|].
        repeat constructor; cbn; lia.
      - right. intros cs' Heq. discriminate Heq. }
    rewrite Hloop. unfold outcome. rewrite Hr. cbn [answer asked].
    rewrite (IH _ q rest).
    + destruct st as [[s|] ? ? ? ? ? ? ? ? ? ? ? ?]; cbn;
        rewrite <- app_assoc; reflexivity.
    + exact Hinit.
    + eapply List.Forall_impl; [|exact Hws]. intros iw Hiw. exact Hiw.
    + destruct st; reflexivity.
    + exact Hq.
    + destruct st; assumption.
Qed.

(** X12. Buffer mode, through the main loop: buffer_start, a
    buffer_pixel for each of the pixels [ws] (indices below the LED
    count) and buffer_end are each answered with OK, and the strip is
    committed once, by buffer_end, with all the pixels written. *)
Theorem buffered_frame st ws q rest :
  stripInitialized st = true ->
  Forall (fun iw => word iw.1 /\ byte_color iw.2 /\ iw.1 < ledCount st) ws ->
  rx st = q ++ rest -> q.*2 = frames (buffered ws) -> in_time (clock st) q ->
  let st' := exec (loops (1 + length ws + 1)) st in
  ledStrip st' = paint (globalBrightness st) ws <$> ledStrip st /\
  trace st'
  = trace st ++ replicate (1 + length ws) (Tx RESP_OK) ++ frame st' ++
    [Tx RESP_OK] /\
  rx st' = rest.
Proof.
  intros Hinit Hws Hrx Hq Hin st'.
  unfold buffered in Hq. rewrite frames_cons, frames_app in Hq.
  cbn [opcode payload app] in Hq.
  destruct q as [|[t0 x0] q]; [discriminate|].
  cbn in Hq. injection Hq as -> Hq.
  apply fmap_app_inv in Hq as (qp & qe & Hqp & Hqe & ->).
  destruct qe as [|[te xe] [|? ?]]; try discriminate.
  cbn in Hqe. injection Hqe as <-.
  apply in_time_cons in Hin as [Ht0 Hin].
  apply in_time_app in Hin as [Hinp Hine].
  apply in_time_cons in Hine as [Hte _].
  assert (Hst : st'
    = set_rx rest
        (set_trace
           (trace st ++ replicate (1 + length ws) (Tx RESP_OK) ++
            frame (set_ledStrip
                     (paint (globalBrightness st) ws <$> ledStrip st) st) ++
            [Tx RESP_OK])
           (set_cmdBufferPos 0
              (set_ledStrip
                 (paint (globalBrightness st) ws <$> ledStrip st) st)))).
  { subst st'. cbn [Nat.add loops]. rewrite exec_seq, loops_app.
    assert (Hstart : exec loop st
      = set_trace (trace st ++ [Tx RESP_OK])
          (set_cmdBufferPos 0 (set_rx (qp ++ (te, CMD_BUFFER_END) :: rest) st))).
    { unfold exec.
      rewrite (loop_run st t0 CMD_BUFFER_START
                 (qp ++ (te, CMD_BUFFER_END) :: rest));
        [ | rewrite Hrx; cbn [app]; rewrite <- app_assoc; reflexivity
          | assumption
          | unfold byte, CMD_BUFFER_START; lia ].
      destruct st; reflexivity. }
    rewrite Hstart.
    rewrite (buffer_pixels_run ws _ qp ((te, CMD_BUFFER_END) :: rest));
      [ | exact Hinit
        | eapply List.Forall_impl; [|exact Hws]; intros iw Hiw; exact Hiw
        | destruct st; reflexivity | symmetry; exact Hqp
        | destruct st; assumption ].
    cbn [loops]. rewrite exec_seq. unfold exec at 2.
    erewrite loop_run;
      [ | destruct st; reflexivity | destruct st; assumption
        | unfold byte, CMD_BUFFER_END; lia ].
    change (processCommand CMD_BUFFER_END) with cmdBufferEnd.
    unfold cmdBufferEnd. rewrite run_get.
    destruct st as [[s|] ? ? ? ? ? ? ? ? ? ? ? ?]; cbn in Hinit; subst;
      cbv -[app paint replicate length]; rewrite <- ?app_assoc; reflexivity. }
  clearbody st'. subst st'.
  split; [reflexivity|]. split; [|reflexivity].
  destruct st as [[s|] ? ? ? ? ? ? ? ? ? ? ? ?]; reflexivity.
Qed.

Lemma buffered_frame_witness :
  let st := board (frames (buffered two_pixels)) in
  let st' := exec (loops 4) st in
  ledStrip st' = paint 255 two_pixels <$> ledStrip st /\
  trace st'
  = trace st ++ replicate 3 (Tx RESP_OK) ++ frame st' ++ [Tx RESP_OK] /\
  rx st' = [].
Proof.
  intros st.
  apply (buffered_frame st two_pixels
           ((fun x => (0, x)) <$> frames (buffered two_pixels)) []).
  - reflexivity.
  - repeat constructor; computed.
  - vm_compute. reflexivity.
  - reflexivity.
  - repeat constructor; computed.
Defined.

(** * A bulk update that is cut short *)

Lemma bulk_loop_app n m : forall i startTime st,
  startTime = clock st ->
  bulk_loop (n + m) i startTime 1000 st
  = (ok <- bulk_loop n i startTime 1000 ;;
     if ok then now <- millis ;; bulk_loop m (i + Z.of_nat n) now 1000
     else ret false) st.
Proof.
  induction n as [|n IH]; intros i startTime st ->.
  - cbn [Nat.add bulk_loop]. unfold bind, ret, millis, get.
    rewrite Z.add_0_r. reflexivity.
  - cbn [Nat.add bulk_loop]. unfold bind in *.
    destruct (wait_until 4 (clock st) 1000 st) as [[|] st1]; [|reflexivity].
    destruct (Serial.read st1) as [cr st2].
    destruct (Serial.read st2) as [cg st3].
    destruct (Serial.read st3) as [cb st4].
    destruct (Serial.read st4) as [cw st5].
    destruct (applyBrightness _ st5) as [color st6].
    destruct (ledStrip_set_rgbw i color st6) as [[] st7].
    unfold millis, get. rewrite IH by reflexivity.
    replace (i + 1 + Z.of_nat n) with (i + Z.of_nat (S n)) by lia.
    reflexivity.
Qed.

Lemma bulk_loop_starved gb groups cs m i startTime st rest :
  Forall2 (fun q c => q.*2 = wire_color c) groups cs ->
  Forall byte_color cs ->
  globalBrightness st = gb -> startTime = clock st ->
  rx st = concat groups ++ rest ->
  paced (clock st) groups ->
  arrived (finished (clock st) groups + 1001) rest < 4 ->
  bulk_loop (length cs + S m) i startTime 1000 st
  = (false,
     timed_out 1001
       (set_rx rest
          (set_clock (finished (clock st) groups)
             (set_ledStrip
                (paint gb (zip (seqZ i (Z.of_nat (length cs))) cs)
                   <$> ledStrip st)
                st)))).
Proof.
  intros HF Hcs Hgb -> Hrx Hpaced Hlate.
  rewrite bulk_loop_app by reflexivity. unfold bind at 1.
  rewrite (bulk_loop_run gb groups cs i (clock st) st rest)
    by (assumption || reflexivity).
  unfold millis. rewrite run_get. cbn [bulk_loop]. unfold bind at 1.
  set (st1 := set_rx rest _).
  change (wait_until 4 (clock st1) 1000 st1) with (waitForBytes 4 1000 st1).
  rewrite waitForBytes_late; [reflexivity|lia|].
  replace (clock st1 + 1000 + 1) with (finished (clock st) groups + 1001)
    by (unfold st1; destruct st; cbn; lia).
  unfold st1. destruct st; exact Hlate.
Qed.

(** X13. A bulk update whose count was accepted and whose pixels stop
    coming: the pixels that did arrive in time are in the buffer (scaled,
    at their indices); 1001 ms after the last of them the engine sends the
    Timeout error, after the OK it sent at the start; it commits nothing
    and sends no final OK, and the bytes of an incomplete pixel stay in the
    receive buffer. *)
Theorem bulk_update_cut_short st q groups rest cs count :
  stripInitialized st = true -> word count -> Forall byte_color cs ->
  delivers st q (wire16 count) (concat groups ++ rest) ->
  Forall2 (fun g c => g.*2 = wire_color c) groups cs ->
  paced (latest (clock st) q) groups ->
  Z.of_nat (length cs) < count <= ledCount st ->
  arrived (finished (latest (clock st) q) groups + 1001) rest < 4 ->
  let st' := exec (processCommand CMD_BULK_UPDATE) st in
  trace st' = trace st ++ [Tx RESP_OK; Tx RESP_ERROR; Tx ERR_TIMEOUT] /\
  ledStrip st'
  = paint (globalBrightness st) (zip (seqZ 0 (Z.of_nat (length cs))) cs)
      <$> ledStrip st /\
  rx st' = rest /\
  clock st' = finished (latest (clock st) q) groups + 1001.
Proof.
  intros Hinit Hw Hcs Hd HF Hpaced Hn Hlate st'.
  assert (Hst : st'
    = timed_out 1001
        (set_rx rest
           (set_clock (finished (latest (clock st) q) groups)
              (set_ledStrip
                 (paint (globalBrightness st)
                    (zip (seqZ 0 (Z.of_nat (length cs))) cs) <$> ledStrip st)
                 (set_trace (trace st ++ [Tx RESP_OK]) st))))).
  { subst st'. change (processCommand CMD_BULK_UPDATE) with cmdBulkUpdate.
    unfold exec. unpack_wire.
    unfold cmdBulkUpdate. rewrite run_get, Hinit. cbn [negb].
    erewrite (run_waitForBytes q (concat groups ++ rest));
      [ | eassumption | rewrite <- (length_fmap snd), H0; reflexivity | lia
        | assumption ].
    pose proof (latest_in (clock st) q) as HL.
    generalize dependent (latest (clock st) q). intros now Hpaced Hlate HL.
    explode q H0. split_in_time. destruct_state st.
    repeat (erewrite run_read; [ | reflexivity | cbn; lia ]). squash.
    rewrite run_get. normalize_wire. cbn [ledCount set_rx set_clock].
    rewrite Z.gtb_ltb, (proj2 (Z.ltb_ge _ _)) by lia.
    unfold bind at 1. cbn [sendResponse Serial.write modify]. unfold millis.
    rewrite run_get. squash.
    replace (Z.to_nat count)
      with (length cs + S (Z.to_nat count - length cs - 1))%nat by lia.
    unfold bind at 1.
    erewrite (bulk_loop_starved gb0 groups cs);
      [ | exact HF | assumption | reflexivity | reflexivity | reflexivity
        | exact Hpaced | exact Hlate ].
    reflexivity. }
  clearbody st'. subst st'.
  destruct st as [[s|] ? ? ? ? ? ? ? ? ? ? ? ?];
    cbn; rewrite <- ?app_assoc; repeat split; reflexivity.
Qed.

Lemma bulk_update_cut_short_witness :
  let st' := exec (processCommand CMD_BULK_UPDATE) cut_short in
  trace st' = trace cut_short ++ [Tx RESP_OK; Tx RESP_ERROR; Tx ERR_TIMEOUT] /\
  ledStrip st'
  = paint 255 [(0, mkRGBW 10 20 30 40)] <$> ledStrip cut_short /\
  rx st' = [(0, 50)] /\
  clock st' = clock cut_short + 1001.
Proof.
  intros st'.
  apply (bulk_update_cut_short cut_short [(0, 0); (0, 3)]
           [[(0, 10); (0, 20); (0, 30); (0, 40)]] [(0, 50)]
           [mkRGBW 10 20 30 40] 3).
  - reflexivity.
  - computed.
  - repeat constructor; computed.
  - delivered.
  - repeat constructor.
  - split; [repeat constructor; computed|exact I].
  - computed.
  - computed.
Defined.

(** * One colour on many pixels *)

Lemma fill_indices (c : RGBW) a n :
  ((fun i => (i, c)) <$> seqZ a n).*1 = seqZ a n.
Proof.
  rewrite <- list_fmap_compose. apply list_fmap_id.
Qed.

Lemma fill_nonneg (c : RGBW) a n :
  0 <= a -> Forall (fun iw => 0 <= iw.1) ((fun i => (i, c)) <$> seqZ a n).
Proof.
  intros Ha. apply list.Forall_forall. intros [j cj] Hj.
  apply list_elem_of_fmap in Hj as (k & [= -> ->] & Hk).
  apply elem_of_seqZ in Hk. cbn. lia.
Qed.

Lemma fill_elem (c : RGBW) a n i :
  a <= i < a + n -> (i, c) ∈ (fun i => (i, c)) <$> seqZ a n.
Proof.
  intros Hi. apply list_elem_of_fmap. exists i. split; [reflexivity|].
  apply elem_of_seqZ. exact Hi.
Qed.

(** What a fill of [n] pixels from [a] on leaves in the strip. *)
Lemma filled st st' gb c a n :
  ledStrip st' = paint gb ((fun i => (i, c)) <$> seqZ a n) <$> ledStrip st ->
  0 <= a ->
  (forall i, a <= i < a + n -> i < capacity st ->
     pixel st' i = Some (scaled gb c)) /\
  (forall i, ~ a <= i < a + n -> pixel st' i = pixel st i).
Proof.
  intros Hstrip Ha. split.
  - intros i Hi Hcap. apply (pixel_painted st st' gb _ i c Hstrip).
    + rewrite fill_indices. apply NoDup_seqZ.
    + apply fill_nonneg. exact Ha.
    + apply fill_elem. exact Hi.
    + exact Hcap.
  - intros i Hi. apply (pixel_unpainted st st' gb _ i Hstrip).
    + apply fill_nonneg. exact Ha.
    + rewrite fill_indices. intros Hin. apply elem_of_seqZ in Hin. lia.
Qed.

(** X14. set_all writes its colour, scaled by the brightness, to every
    index below the LED count (as far as the strip reaches), leaves the
    pixels from the LED count on as they are, commits once and answers
    OK. *)
Theorem set_all_fills st q rest c :
  stripInitialized st = true -> byte (globalBrightness st) ->
  byte_color c -> delivers st q (wire_color c) rest ->
  let st' := exec (processCommand CMD_SET_ALL_RGBW) st in
  (forall i, 0 <= i < ledCount st -> i < capacity st ->
     pixel st' i = Some (dimmed_color (globalBrightness st) c)) /\
  (forall i, ledCount st <= i -> pixel st' i = pixel st i) /\
  trace st' = trace st ++ frame st' ++ [Tx RESP_OK] /\
  rx st' = rest.
Proof.
  intros Hinit Hgb Hc Hd st'. subst st'. unfold exec.
  change CMD_SET_ALL_RGBW with (opcode (SetAll c)).
  rewrite (write_run st q rest (SetAll c) Hinit eq_refl Hc I Hd
             (or_introl eq_refl)).
  cbn [snd].
  destruct (outcome_accepted (SetAll c) (received q rest st) eq_refl)
    as (Hstrip & Htrace & Hrx & _).
  cbn [asked] in Hstrip.
  change (ledStrip (received q rest st)) with (ledStrip st) in Hstrip.
  change (globalBrightness (received q rest st))
    with (globalBrightness st) in Hstrip.
  change (ledCount (received q rest st)) with (ledCount st) in Hstrip.
  destruct (filled st _ _ c 0 (ledCount st) Hstrip ltac:(lia)) as [Hin Hout].
  split; [|split; [|split]].
  - intros i Hi Hcap. rewrite <- (scaled_dimmed _ _ Hgb Hc).
    apply Hin; [lia|exact Hcap].
  - intros i Hi. apply Hout. lia.
  - exact Htrace.
  - exact Hrx.
Qed.

Lemma set_all_fills_witness :
  let st := half_bright in
  let st' := exec (processCommand CMD_SET_ALL_RGBW) st in
  pixel st' 0 = Some (dimmed_color 128 (mkRGBW 255 127 0 255)) /\
  pixel st' 106 = Some (dimmed_color 128 (mkRGBW 255 127 0 255)) /\
  pixel st' 107 = pixel st 107 /\
  trace st' = trace st ++ frame st' ++ [Tx RESP_OK].
Proof.
  intros st.
  destruct (set_all_fills st
              ((fun x => (0, x)) <$> wire_color (mkRGBW 255 127 0 255)) []
              (mkRGBW 255 127 0 255))
    as (Hin & Hout & Htrace & _).
  - reflexivity.
  - computed.
  - computed.
  - delivered.
  - split; [apply Hin; computed|]. split; [apply Hin; computed|].
    split; [apply Hout; computed|exact Htrace].
Defined.

(** X15. clear_all takes no payload and writes black to every index
    below the LED count, whatever the brightness is; it leaves the pixels
    from the LED count on as they are, commits once and answers OK. *)
Theorem clear_all_blacks_out st :
  stripInitialized st = true ->
  let st' := exec (processCommand CMD_CLEAR_ALL) st in
  (forall i, 0 <= i < ledCount st -> i < capacity st ->
     pixel st' i = Some black) /\
  (forall i, ledCount st <= i -> pixel st' i = pixel st i) /\
  trace st' = trace st ++ frame st' ++ [Tx RESP_OK] /\
  rx st' = rx st /\ clock st' = clock st.
Proof.
  intros Hinit st'. subst st'. unfold exec.
  change CMD_CLEAR_ALL with (opcode ClearAll).
  rewrite (write_run st [] (rx st) ClearAll Hinit eq_refl I I);
    [ | split; [reflexivity|split; [reflexivity|constructor]]
      | left; reflexivity ].
  cbn [snd]. rewrite received_nil by reflexivity.
  destruct (outcome_accepted ClearAll st eq_refl)
    as (Hstrip & Htrace & Hrx & Hclk & _).
  cbn [asked] in Hstrip.
  destruct (filled st _ _ (mkRGBW 0 0 0 0) 0 (ledCount st) Hstrip ltac:(lia))
    as [Hin Hout].
  split; [|split; [|split; [|split]]].
  - intros i Hi Hcap. unfold black.
    rewrite <- (scaled_off (globalBrightness st)).
    apply Hin; [lia|exact Hcap].
  - intros i Hi. apply Hout. lia.
  - exact Htrace.
  - exact Hrx.
  - exact Hclk.
Qed.

Lemma clear_all_blacks_out_witness :
  let st := set_globalBrightness 128 (exec (processCommand CMD_SET_ALL_RGBW)
                                        half_bright) in
  let st' := exec (processCommand CMD_CLEAR_ALL) st in
  pixel st 5 = Some (mkRGBW 127 63 0 127) /\ pixel st' 5 = Some black.
Proof.
  intros st.
  destruct (clear_all_blacks_out st) as (Hin & _).
  - reflexivity.
  - split; [reflexivity|]. apply Hin; computed.
Defined.

(** X16. set_range with [first <= last], both below the LED count, writes
    its colour, scaled by the brightness, to every index from [first] to
    [last], both included, as far as the strip reaches; it leaves every
    other pixel as it is, commits once and answers OK. *)
Theorem set_range_fills st q rest first last c :
  stripInitialized st = true -> byte (globalBrightness st) ->
  well_formed (SetRange first last c) ->
  first <= last < ledCount st ->
  delivers st q (payload (SetRange first last c)) rest ->
  let st' := exec (processCommand CMD_SET_RANGE_RGBW) st in
  (forall i, first <= i <= last -> i < capacity st ->
     pixel st' i = Some (dimmed_color (globalBrightness st) c)) /\
  (forall j, ~ (first <= j <= last /\ j < capacity st) ->
     pixel st' j = pixel st j) /\
  trace st' = trace st ++ frame st' ++ [Tx RESP_OK] /\
  rx st' = rest.
Proof.
  intros Hinit Hgb Hwf Hrange Hd st'. subst st'. unfold exec.
  pose proof Hwf as (Hf & Hl & Hc).
  assert (Hr : in_range (received q rest st) (SetRange first last c) = true).
  { cbn. rewrite !(proj2 (Z.ltb_lt _ _)), (proj2 (Z.leb_le _ _)) by lia.
    reflexivity. }
  change CMD_SET_RANGE_RGBW with (opcode (SetRange first last c)).
  rewrite (write_run st q rest (SetRange first last c) Hinit eq_refl Hwf I Hd
             (or_introl Hr)).
  cbn [snd].
  destruct (outcome_accepted _ _ Hr) as (Hstrip & Htrace & Hrx & _).
  cbn [asked] in Hstrip.
  change (ledStrip (received q rest st)) with (ledStrip st) in Hstrip.
  change (globalBrightness (received q rest st))
    with (globalBrightness st) in Hstrip.
  unfold word in Hf.
  destruct (filled st _ _ c first (last - first + 1) Hstrip ltac:(lia))
    as [Hin Hout].
  split; [|split; [|split]].
  - intros i Hi Hcap. rewrite <- (scaled_dimmed _ _ Hgb Hc).
    apply Hin; [lia|exact Hcap].
  - intros j Hj.
    destruct (Z.le_gt_cases (capacity st) j) as [Hbeyond|Hwithin].
    + apply (pixel_beyond st _ _ _ j Hstrip Hbeyond).
    + apply Hout. lia.
  - exact Htrace.
  - exact Hrx.
Qed.

Lemma set_range_fills_witness :
  let req := SetRange 3 5 (mkRGBW 200 100 50 0) in
  let st := set_globalBrightness 128 (board (payload req)) in
  let st' := exec (processCommand CMD_SET_RANGE_RGBW) st in
  pixel st' 3 = Some (mkRGBW 100 50 25 0) /\
  pixel st' 5 = Some (mkRGBW 100 50 25 0) /\
  pixel st' 2 = pixel st 2 /\ pixel st' 6 = pixel st 6.
Proof.
  intros req st.
  destruct (set_range_fills st ((fun x => (0, x)) <$> payload req) [] 3 5
              (mkRGBW 200 100 50 0))
    as (Hin & Hout & _).
  - reflexivity.
  - computed.
  - computed.
  - computed.
  - delivered.
  - split; [apply (Hin 3); computed|]. split; [apply (Hin 5); computed|].
    split; apply Hout; lia.
Defined.

(** X17. set_range and fill_gradient with a first index above the last
    are answered with the OutOfRange error, also when both indices are
    below the LED count; the range is not swapped and nothing is
    written. *)
Theorem reversed_range_rejected st q rest req first last :
  stripInitialized st = true -> well_formed req ->
  indices req = [first; last] -> last < first ->
  delivers st q (payload req) rest ->
  let st' := exec (processCommand (opcode req)) st in
  trace st' = trace st ++ [Tx RESP_ERROR; Tx ERR_OUT_OF_RANGE] /\
  ledStrip st' = ledStrip st /\
  rx st' = rest.
Proof.
  intros Hinit Hwf Hidx Hrev Hd st'. subst st'.
  assert (Hne : indices req <> []) by (rewrite Hidx; discriminate).
  destruct (indices_writes req Hne) as [Hwr Hnb].
  unfold exec.
  rewrite (write_run st q rest req Hinit Hwr Hwf (indices_streaming req st Hne)
             Hd (or_intror Hnb)).
  cbn [snd]. rewrite outcome_rejected.
  - repeat split; reflexivity.
  - destruct req; try discriminate Hidx; injection Hidx as -> ->; cbn;
      rewrite (proj2 (Z.leb_gt _ _) Hrev); apply andb_false_r.
Qed.

Lemma reversed_range_rejected_witness :
  let req := SetRange 9 4 (mkRGBW 1 2 3 4) in
  let st := board (payload req) in
  let st' := exec (processCommand (opcode req)) st in
  trace st' = trace st ++ [Tx RESP_ERROR; Tx ERR_OUT_OF_RANGE] /\
  ledStrip st' = ledStrip st /\
  rx st' = [].
Proof.
  intros req st.
  apply (reversed_range_rejected st ((fun x => (0, x)) <$> payload req) []
           req 9 4).
  - reflexivity.
  - computed.
  - reflexivity.
  - lia.
  - delivered.
Defined.

(** * What the commands leave alone, continued *)

Lemma bulk_loop_brightness n : forall i startTime timeout,
  preserves globalBrightness (bulk_loop n i startTime timeout).
Proof.
  induction n as [|n IH]; intros i startTime timeout; cbn [bulk_loop].
  - apply preserves_ret.
  - preserve. apply IH.
Qed.

Ltac by_command H :=
  unfold processCommand;
  repeat lazymatch goal with
         | |- preserves _ (if _ =? _ then _ else _) =>
             apply preserves_unless; [intros H|]
         end.

(** X18. The global brightness is changed by set_brightness and by reset
    (which puts it back to 255) and by no other command: init_strip, in
    particular, keeps it. *)
Theorem brightness_kept cmd st :
  cmd <> CMD_RESET -> cmd <> CMD_BRIGHTNESS ->
  globalBrightness (exec (processCommand cmd) st) = globalBrightness st.
Proof.
  intros H1 H2. revert st.
  change (preserves globalBrightness (processCommand cmd)).
  by_command Hc.
  all: try (exfalso; congruence).
  all: unfold_handlers; preserve.
  apply bulk_loop_brightness.
Qed.

Lemma brightness_kept_witness :
  globalBrightness (exec (processCommand CMD_INIT_STRIP) half_bright) = 128.
Proof.
  rewrite (brightness_kept CMD_INIT_STRIP half_bright); [reflexivity|..];
    discriminate.
Defined.

(** X19. The pixels of the strip are changed by the ten write commands,
    by reset and by init_strip, and by no other command: ping, get_info,
    set_led_count, set_led_pin, buffer_start, buffer_end, stream_start,
    stream_end, sync, set_brightness and unknown bytes leave the strip
    exactly as it is. *)
Theorem pixels_kept cmd st :
  cmd ∉ repainting ->
  ledStrip (exec (processCommand cmd) st) = ledStrip st.
Proof.
  intros Hcmd. revert st.
  change (preserves ledStrip (processCommand cmd)).
  by_command Hc.
  all: try solve [exfalso; apply Hcmd; rewrite Hc; unfold repainting;
                  repeat constructor].
  all: unfold_handlers; preserve.
Qed.

Lemma pixels_kept_witness :
  ledStrip (exec (processCommand CMD_BRIGHTNESS) (repinned 7))
  = ledStrip (repinned 7).
Proof.
  apply (pixels_kept CMD_BRIGHTNESS (repinned 7)).
  intros H. unfold repainting in H. not_listed H.
Defined.

Lemma shape_set_rgbw i c : preserves shape (ledStrip_set_rgbw i c).
Proof.
  intros st. unfold shape, allocated, capacity, ledStrip_set_rgbw, modify.
  cbn [snd]. destruct st as [[s|] ? ? ? ? ? ? ? ? ? ? ? ?]; cbn; [|reflexivity].
  rewrite set_rgbw_count, set_rgbw_output. reflexivity.
Qed.

Lemma bulk_loop_shape n : forall i startTime timeout,
  preserves shape (bulk_loop n i startTime timeout).
Proof.
  induction n as [|n IH]; intros i startTime timeout; cbn [bulk_loop].
  - apply preserves_ret.
  - preserve; [apply shape_set_rgbw|apply IH].
Qed.

Lemma shape_kept cmd :
  cmd <> CMD_RESET -> cmd <> CMD_INIT_STRIP ->
  preserves shape (processCommand cmd).
Proof.
  intros H1 H2. by_command Hc.
  all: try (exfalso; congruence).
  all: unfold_handlers; preserve.
  all: try apply shape_set_rgbw.
  apply bulk_loop_shape.
Qed.

(** X20. The strip is created by reset and init_strip and by no other
    command: whether there is a strip, the number of pixels it has and the
    pin it drives stay as they are through every other command, the write
    commands, set_led_count and set_led_pin included. *)
Theorem strip_shape_kept cmd st :
  cmd <> CMD_RESET -> cmd <> CMD_INIT_STRIP ->
  let st' := exec (processCommand cmd) st in
  allocated st' = allocated st /\ capacity st' = capacity st /\
  (s ← ledStrip st'; SK6812.output s) = (s ← ledStrip st; SK6812.output s).
Proof.
  intros H1 H2 st'. pose proof (shape_kept cmd H1 H2 st) as Hs.
  unfold shape in Hs. injection Hs as Ha Hc Ho. repeat split; assumption.
Qed.

Lemma strip_shape_kept_witness :
  let st' := exec (processCommand CMD_SET_LED_PIN) (repinned 7) in
  ledPin st' = 7 /\ allocated st' = true /\ capacity st' = 107 /\
  (s ← ledStrip st'; SK6812.output s) = Some 6.
Proof.
  intros st'.
  destruct (strip_shape_kept CMD_SET_LED_PIN (repinned 7))
    as (Ha & Hc & Ho); [discriminate..|].
  split; [reflexivity|]. split; [exact Ha|]. split; [exact Hc|exact Ho].
Defined.

Lemma bulk_loop_configuration n : forall i startTime timeout,
  preserves (fun st => (ledCount st, ledPin st))
    (bulk_loop n i startTime timeout).
Proof.
  induction n as [|n IH]; intros i startTime timeout; cbn [bulk_loop].
  - apply preserves_ret.
  - preserve. apply IH.
Qed.

(** X21. The LED count and the pin are changed by set_led_count,
    set_led_pin and reset, and by no other command; init_strip reads
    them and stores them back unchanged. *)
Theorem configuration_kept cmd st :
  cmd <> CMD_RESET -> cmd <> CMD_SET_LED_COUNT -> cmd <> CMD_SET_LED_PIN ->
  let st' := exec (processCommand cmd) st in
  ledCount st' = ledCount st /\ ledPin st' = ledPin st.
Proof.
  intros H1 H2 H3 st'. subst st'.
  destruct (Z.eq_dec cmd CMD_INIT_STRIP) as [->|H4].
  { unfold exec. rewrite init_strip_run. destruct st; split; reflexivity. }
  enough (Hp : preserves (fun st => (ledCount st, ledPin st))
                 (processCommand cmd)).
  { specialize (Hp st). injection Hp as Hn Hpin. split; assumption. }
  by_command Hc.
  all: try (exfalso; congruence).
  all: unfold_handlers; preserve.
  apply bulk_loop_configuration.
Qed.

Lemma configuration_kept_witness :
  let st' := exec (processCommand CMD_INIT_STRIP) (board []) in
  ledCount st' = 107 /\ ledPin st' = 6.
Proof.
  intros st'.
  destruct (configuration_kept CMD_INIT_STRIP (board []))
    as [Hn Hpin]; [discriminate..|].
  split; [exact Hn|exact Hpin].
Defined.

Lemma bulk_loop_initialized n : forall i startTime timeout,
  preserves stripInitialized (bulk_loop n i startTime timeout).
Proof.
  induction n as [|n IH]; intros i startTime timeout; cbn [bulk_loop].
  - apply preserves_ret.
  - preserve. apply IH.
Qed.

Lemma initialized_kept cmd :
  cmd <> CMD_RESET -> cmd <> CMD_INIT_STRIP ->
  preserves stripInitialized (processCommand cmd).
Proof.
  intros H1 H2. by_command Hc.
  all: try (exfalso; congruence).
  all: unfold_handlers; preserve.
  apply bulk_loop_initialized.
Qed.

Lemma reset_run st :
  processCommand CMD_RESET st
  = (tt,
     let dark := replicate (Z.to_nat DEFAULT_LED_COUNT) black in
     set_trace (trace st ++ [Commit dark (Some DEFAULT_LED_PIN); Tx RESP_OK])
       (set_globalBrightness 255
          (set_stripInitialized true
             (set_ledStrip (Some (SK6812.mk dark (Some DEFAULT_LED_PIN)))
                (set_ledPin DEFAULT_LED_PIN
                   (set_ledCount DEFAULT_LED_COUNT st)))))).
Proof.
  apply run_unit.
  change (processCommand CMD_RESET)
    with (initializeStrip DEFAULT_LED_COUNT DEFAULT_LED_PIN ;;
          modify (set_globalBrightness 255) ;; sendResponse RESP_OK).
  rewrite (exec_bind _ _ _ _ _ (initializeStrip_run _ _ st)).
  destruct_state st. unfold exec. cbn. rewrite <- app_assoc. reflexivity.
Qed.

Lemma safe_step cmd st :
  strip_safe st ->
  strip_safe (exec (processCommand cmd) st) /\
  (stripInitialized st = true ->
   stripInitialized (exec (processCommand cmd) st) = true).
Proof.
  intros Hsafe. unfold strip_safe, exec.
  destruct (Z.eq_dec cmd CMD_RESET) as [->|H1].
  { rewrite reset_run. cbn [snd]. cbv zeta.
    split; intros _; destruct st; reflexivity. }
  destruct (Z.eq_dec cmd CMD_INIT_STRIP) as [->|H2].
  { rewrite init_strip_run. cbn [snd]. cbv zeta.
    split; intros _; destruct st; reflexivity. }
  pose proof (shape_kept cmd H1 H2 st) as Hs.
  pose proof (initialized_kept cmd H1 H2 st) as Hi.
  unfold shape in Hs. injection Hs as Ha _ _.
  rewrite Ha, Hi. split; [exact Hsafe|intros H; exact H].
Qed.

(** X22. The initialized flag never lies about the strip: that
    [stripInitialized] being set means that [ledStrip] points to a strip
    holds at power-up and when the board comes out of [setup], and every
    command keeps it; no command clears the flag once it is set. *)
Theorem strip_stays_safe cmd st :
  strip_safe st ->
  let st' := exec (processCommand cmd) st in
  strip_safe st' /\
  (stripInitialized st = true -> stripInitialized st' = true) /\
  (forall wire mem, strip_safe (power_on wire mem) /\
                    strip_safe (exec setup (power_on wire mem))).
Proof.
  intros Hsafe st'. destruct (safe_step cmd st Hsafe) as [Hs Hi].
  split; [exact Hs|]. split; [exact Hi|].
  intros wire mem. split; [intros H; discriminate H|].
  intros _. vm_compute. reflexivity.
Qed.

Lemma strip_stays_safe_witness :
  let st' := exec (processCommand CMD_SET_PIXEL_W) (power_on [] (fun _ => black)) in
  strip_safe st' /\ allocated st' = false.
Proof.
  intros st'.
  destruct (strip_stays_safe CMD_SET_PIXEL_W (power_on [] (fun _ => black)))
    as (Hsafe & _).
  - intros H. discriminate H.
  - split; [exact Hsafe|reflexivity].
Defined.

(** * Every command is answered *)

Lemma extends_ret {A} (a : A) : extends (ret a).
Proof. intros st. exists []. cbn. rewrite app_nil_r. reflexivity. Qed.

Lemma extends_bind {A B} (m : M A) (k : A -> M B) :
  extends m -> (forall a, extends (k a)) -> extends (x <- m ;; k x).
Proof.
  intros Hm Hk st. unfold bind. destruct (Hm st) as [e1 H1].
  destruct (m st) as [a st1]. destruct (Hk a st1) as [e2 H2].
  exists (e1 ++ e2). cbn [snd] in *. rewrite H2, H1, app_assoc. reflexivity.
Qed.

Lemma extends_get {A} (g : State -> A) : extends (get g).
Proof. intros st. exists []. cbn. rewrite app_nil_r. reflexivity. Qed.

Lemma extends_modify (g : State -> State) :
  (forall st, trace (g st) = trace st) -> extends (modify g).
Proof. intros Hg st. exists []. cbn. rewrite Hg, app_nil_r. reflexivity. Qed.

Lemma extends_if {A} (c : bool) (m1 m2 : M A) :
  extends m1 -> extends m2 -> extends (if c then m1 else m2).
Proof. destruct c; intros; assumption. Qed.

Lemma extends_defined {A} (v : option A) (k : A -> M unit) :
  (forall a, extends (k a)) -> extends (defined v k).
Proof. intros Hk. destruct v; [apply Hk|apply extends_ret]. Qed.

Lemma extends_for_loop body n : forall i,
  (forall j, extends (body j)) -> extends (for_loop n i body).
Proof.
  induction n as [|n IH]; intros i Hbody; cbn [for_loop].
  - apply extends_ret.
  - apply extends_bind; [apply Hbody|]. intros _. apply IH. exact Hbody.
Qed.

Lemma extends_read : extends Serial.read.
Proof.
  intros st. exists []. unfold Serial.read.
  destruct (rx st) as [|[t x] q']; [cbn; rewrite app_nil_r; reflexivity|].
  destruct (t <=? clock st); cbn; rewrite app_nil_r; reflexivity.
Qed.

Lemma extends_write x : extends (Serial.write x).
Proof. intros st. exists [Tx (u8 x)]. reflexivity. Qed.

Lemma extends_sendError x : extends (sendError x).
Proof.
  apply extends_bind; [apply extends_write|]. intros _. apply extends_write.
Qed.

Lemma replies_write x : replies (Serial.write x).
Proof. intros st. exists [Tx (u8 x)], (u8 x). split; [reflexivity|constructor]. Qed.

Lemma replies_bind_l {A B} (m : M A) (k : A -> M B) :
  replies m -> (forall a, extends (k a)) -> replies (x <- m ;; k x).
Proof.
  intros Hm Hk st. unfold bind. destruct (Hm st) as (e1 & x & H1 & Hx).
  destruct (m st) as [a st1]. destruct (Hk a st1) as [e2 H2].
  exists (e1 ++ e2), x. cbn [snd] in *. rewrite H2, H1, app_assoc.
  split; [reflexivity|]. apply elem_of_app. left. exact Hx.
Qed.

Lemma replies_bind_r {A B} (m : M A) (k : A -> M B) :
  extends m -> (forall a, replies (k a)) -> replies (x <- m ;; k x).
Proof.
  intros Hm Hk st. unfold bind. destruct (Hm st) as [e1 H1].
  destruct (m st) as [a st1]. destruct (Hk a st1) as (e2 & x & H2 & Hx).
  exists (e1 ++ e2), x. cbn [snd] in *. rewrite H2, H1, app_assoc.
  split; [reflexivity|]. apply elem_of_app. right. exact Hx.
Qed.

Lemma replies_if {A} (c : bool) (m1 m2 : M A) :
  replies m1 -> replies m2 -> replies (if c then m1 else m2).
Proof. destruct c; intros; assumption. Qed.

Lemma replies_sendError x : replies (sendError x).
Proof.
  apply replies_bind_r; [apply extends_write|]. intros _. apply replies_write.
Qed.

(** The shape of every handler with a payload: wait, and act if the
    payload is there. *)
Lemma replies_guard (m : M bool) (k : M unit) :
  replies_unless m -> replies k ->
  replies (ok <- m ;; if ok then k else ret tt).
Proof.
  intros Hm Hk st. unfold bind. destruct (Hm st) as (e1 & H1 & Hf).
  destruct (m st) as [[|] st1]; cbn [fst snd] in *.
  - destruct (Hk st1) as (e2 & x & H2 & Hx).
    exists (e1 ++ e2), x. rewrite H2, H1, app_assoc.
    split; [reflexivity|]. apply elem_of_app. right. exact Hx.
  - destruct (Hf eq_refl) as [x Hx]. exists e1, x. split; assumption.
Qed.

Lemma wait_loop_unless count budget : replies_unless (wait_loop budget count).
Proof.
  induction budget as [|k IH]; intros st; cbn [wait_loop];
    destruct (_ <? _).
  - exists [Tx (u8 RESP_ERROR); Tx (u8 ERR_TIMEOUT)].
    split; [cbn; rewrite <- app_assoc; reflexivity|].
    intros _. exists (u8 RESP_ERROR). constructor.
  - exists []. cbn. rewrite app_nil_r. split; [reflexivity|discriminate].
  - destruct (IH (set_clock (clock st + 1) st)) as (e & He & Hf).
    exists e. split; [rewrite He; destruct st; reflexivity|exact Hf].
  - exists []. cbn. rewrite app_nil_r. split; [reflexivity|discriminate].
Qed.

Lemma waitForBytes_unless count timeout :
  replies_unless (waitForBytes count timeout).
Proof. intros st. apply wait_loop_unless. Qed.

Lemma extends_unless (m : M bool) : replies_unless m -> extends m.
Proof. intros H st. destruct (H st) as (e & He & _). exists e. exact He. Qed.

Lemma extends_applyBrightness c : extends (applyBrightness c).
Proof.
  apply extends_bind; [apply extends_get|]. intros gb.
  apply extends_if; apply extends_ret.
Qed.

Lemma extends_sync : extends ledStrip_sync.
Proof.
  intros st. unfold ledStrip_sync, modify. cbn [snd].
  destruct (ledStrip st) as [s|].
  - eexists. reflexivity.
  - exists []. rewrite app_nil_r. reflexivity.
Qed.

Ltac extend_step :=
  lazymatch goal with
  | |- extends (bind _ _) => apply extends_bind; [|intros ?]
  | |- extends (ret _) => apply extends_ret
  | |- extends (get _) => apply extends_get
  | |- extends millis => apply extends_get
  | |- extends (modify _) => apply extends_modify; intros; reflexivity
  | |- extends Serial.read => apply extends_read
  | |- extends (Serial.write _) => apply extends_write
  | |- extends (sendResponse _) => apply extends_write
  | |- extends (sendError _) => apply extends_sendError
  | |- extends (waitForBytes _ _) =>
      apply extends_unless, waitForBytes_unless
  | |- extends (wait_until _ _ _) =>
      apply extends_bind; [apply extends_get|intros ?];
      apply extends_unless, wait_loop_unless
  | |- extends (applyBrightness _) => apply extends_applyBrightness
  | |- extends (ledStrip_set_rgbw _ _) =>
      apply extends_modify; intros; reflexivity
  | |- extends (ledStrip_set_output _) =>
      apply extends_modify; intros; reflexivity
  | |- extends ledStrip_sync => apply extends_sync
  | |- extends (for_loop _ _ _) => apply extends_for_loop; intros ?
  | |- extends (defined _ _) => apply extends_defined; intros ?
  | |- extends (if _ then _ else _) => apply extends_if
  | |- extends (let _ := _ in _) => cbv zeta
  end.

Ltac extend := repeat extend_step.

Lemma extends_bulk_loop n : forall i startTime timeout,
  extends (bulk_loop n i startTime timeout).
Proof.
  induction n as [|n IH]; intros i startTime timeout; cbn [bulk_loop].
  - apply extends_ret.
  - extend. apply IH.
Qed.

Ltac reply_step :=
  lazymatch goal with
  | |- replies (bind (waitForBytes _ _) _) =>
      apply replies_guard; [apply waitForBytes_unless|]
  | |- replies (bind (sendResponse _) _) =>
      apply replies_bind_l; [apply replies_write|intros ?]
  | |- replies (bind _ _) => apply replies_bind_r; [extend|intros ?]
  | |- replies (if _ then _ else _) => apply replies_if
  | |- replies (sendResponse _) => apply replies_write
  | |- replies (Serial.write _) => apply replies_write
  | |- replies (sendError _) => apply replies_sendError
  | |- replies (let _ := _ in _) => cbv zeta
  end.

Ltac reply := repeat reply_step.

Lemma replies_unless_cmd {A} (cmd c : Z) (m1 m2 : M A) :
  replies m1 -> replies m2 -> replies (if cmd =? c then m1 else m2).
Proof. intros H1 H2. destruct (cmd =? c); assumption. Qed.

(** X23. Every command byte is answered: whatever the state and whatever
    is or is not on the wire, [processCommand] returns having sent at
    least one byte to the host, and what it has sent or committed before
    stays as it was. *)
Theorem every_command_answers cmd st :
  exists evs x,
    trace (exec (processCommand cmd) st) = trace st ++ evs /\ Tx x ∈ evs.
Proof.
  revert st. change (replies (processCommand cmd)).
  unfold processCommand.
  repeat lazymatch goal with
         | |- replies (if _ =? _ then _ else _) => apply replies_unless_cmd
         end.
  all: unfold_handlers; reply.
  all: extend.
  all: try apply extends_bulk_loop.
Qed.

(** * Brightness never brightens *)

(** X24. [applyBrightness] never makes a channel brighter: each channel
    of the result is between 0 and the channel it comes from; below 255
    every channel that is not 0 gets strictly smaller (254 is not almost
    full: it turns 255 into 253), and brightness 0 turns every colour
    into black. *)
Theorem brightness_never_brightens st c :
  byte (globalBrightness st) -> byte_color c ->
  let gb := globalBrightness st in
  let c' := (applyBrightness c st).1 in
  Forall2 (fun v' v => 0 <= v' <= v /\
                       (gb < 255 -> 0 < v -> v' < v) /\
                       (gb = 0 -> v' = 0))
    (channels c') (channels c).
Proof.
  intros Hgb Hc gb c'. subst c'. rewrite applyBrightness_eq. cbn [fst].
  rewrite (scaled_dimmed _ c Hgb Hc). fold gb.
  destruct Hc as (Hr & Hg & Hb & Hw). unfold byte in *.
  assert (Hone : forall v, 0 <= v < 256 ->
            0 <= dimmed gb v <= v /\
            (gb < 255 -> 0 < v -> dimmed gb v < v) /\
            (gb = 0 -> dimmed gb v = 0)).
  { intros v Hv. unfold dimmed. fold gb in Hgb.
    destruct (Z.eqb_spec gb 255) as [->|Hne]; [lia|].
    assert (0 <= v * gb / 256 <= v).
    { split; [apply Z.div_pos; nia|]. apply Z.div_le_upper_bound; nia. }
    split; [assumption|]. split.
    - intros _ Hpos. apply Z.div_lt_upper_bound; nia.
    - intros ->. rewrite Z.mul_0_r. reflexivity. }
  unfold channels, dimmed_color. cbn [r g b w].
  repeat constructor; apply Hone; assumption.
Qed.

Lemma brightness_never_brightens_witness :
  let st := set_globalBrightness 254 (board []) in
  let c := mkRGBW 255 1 0 128 in
  (applyBrightness c st).1 = mkRGBW 253 0 0 127 /\
  Forall2 (fun v' v => 0 <= v' <= v /\
                       (254 < 255 -> 0 < v -> v' < v) /\
                       (254 = 0 -> v' = 0))
    (channels (applyBrightness c st).1) (channels c).
Proof.
  intros st c. split; [reflexivity|].
  apply (brightness_never_brightens st c); computed.
Defined.

(** * The cursor of a stream *)

Lemma keeps_of_preserves {A} (m : M A) : preserves session m -> keeps_cursor m.
Proof.
  intros Hm st Hok. specialize (Hm st). unfold session in Hm.
  injection Hm as _ Hi Hc. unfold cursor_ok. rewrite Hi, Hc. exact Hok.
Qed.

Lemma keeps_bind {A B} (m : M A) (k : A -> M B) :
  keeps_cursor m -> (forall a, keeps_cursor (k a)) ->
  keeps_cursor (x <- m ;; k x).
Proof.
  intros Hm Hk st Hok. unfold bind. specialize (Hm st Hok).
  destruct (m st) as [a st1]. apply Hk. exact Hm.
Qed.

Lemma keeps_if {A} (c : bool) (m1 m2 : M A) :
  keeps_cursor m1 -> keeps_cursor m2 -> keeps_cursor (if c then m1 else m2).
Proof. destruct c; intros; assumption. Qed.

Ltac keep_step :=
  lazymatch goal with
  | |- keeps_cursor (bind (get streamIndex) _) => fail
  | |- keeps_cursor (bind (modify _) _) => fail
  | |- keeps_cursor (bind _ _) =>
      apply keeps_bind; [apply keeps_of_preserves; preserve|intros ?]
  | |- keeps_cursor (if _ then _ else _) => apply keeps_if
  | |- keeps_cursor (sendError _) => apply keeps_of_preserves; preserve
  | |- keeps_cursor (ret _) => apply keeps_of_preserves; preserve
  end.

Lemma be16_word hi lo : 0 <= be16 hi lo < 65536.
Proof. unfold be16, u16. apply Z.mod_pos_bound. lia. Qed.

Lemma cmdStreamStart_keeps : keeps_cursor cmdStreamStart.
Proof.
  unfold cmdStreamStart. repeat keep_step.
  intros st _. pose proof (be16_word a1 a2).
  destruct st; unfold cursor_ok; cbn. lia.
Qed.

Lemma cmdStreamData_keeps : keeps_cursor cmdStreamData.
Proof.
  unfold cmdStreamData. repeat keep_step.
  intros st Hok. rewrite !run_get.
  destruct (Z.ltb_spec (streamIndex st) (ledCount st)) as [Hn|Hn];
    [destruct (Z.ltb_spec (streamIndex st) (streamCount st)) as [Ht|Ht]|];
    cbn [andb].
  - unfold cursor_ok in *. destruct st; cbn in *.
    rewrite u16_small by (unfold word; lia). lia.
  - apply (keeps_of_preserves (sendError ERR_OUT_OF_RANGE)); [preserve|exact Hok].
  - apply (keeps_of_preserves (sendError ERR_OUT_OF_RANGE)); [preserve|exact Hok].
Qed.

Lemma cmdStreamEnd_keeps : keeps_cursor cmdStreamEnd.
Proof.
  unfold cmdStreamEnd. repeat keep_step.
  intros st _. unfold cursor_ok.
  destruct st as [[s|] ? ? ? ? ? ? ? ? ? ? ? ?]; cbn; lia.
Qed.

(** X25. The cursor of a stream never passes the count the stream was
    opened with: [0 <= streamIndex <= streamCount < 65536] holds at
    power-up and is kept by every command, whatever is on the wire; the
    increment of the cursor never wraps around. *)
Theorem cursor_stays_within_count cmd st :
  cursor_ok st ->
  cursor_ok (exec (processCommand cmd) st) /\
  (forall wire mem, cursor_ok (power_on wire mem)).
Proof.
  intros Hok. split; [|intros wire mem; unfold cursor_ok; cbn; lia].
  destruct (Z.eq_dec cmd CMD_STREAM_START) as [->|H1];
    [exact (cmdStreamStart_keeps st Hok)|].
  destruct (Z.eq_dec cmd CMD_STREAM_DATA) as [->|H2];
    [exact (cmdStreamData_keeps st Hok)|].
  destruct (Z.eq_dec cmd CMD_STREAM_END) as [->|H3];
    [exact (cmdStreamEnd_keeps st Hok)|].
  exact (keeps_of_preserves _ (session_kept cmd H1 H2 H3) st Hok).
Qed.

Lemma cursor_stays_within_count_witness :
  cursor_ok mid_stream /\
  cursor_ok (exec (processCommand CMD_STREAM_DATA) mid_stream) /\
  streamIndex (exec (processCommand CMD_STREAM_DATA) mid_stream) = 3.
Proof.
  assert (Hok : cursor_ok mid_stream) by computed.
  destruct (cursor_stays_within_count CMD_STREAM_DATA mid_stream Hok)
    as [Hafter _].
  split; [exact Hok|]. split; [exact Hafter|reflexivity].
Defined.

(** * Power-up *)

(** X26. [setup], run on a board that has just been powered up, leaves a
    strip of 107 black pixels on pin 6, whatever the heap held, and marks
    it initialized.  On the way it commits seven frames: all black, then
    three times pixel 0 at white 50 followed by all black again, 50 ms
    apart; it sends nothing to the host and reads nothing. *)
Theorem setup_blinks wire mem :
  let st := exec setup (power_on wire mem) in
  let dark := replicate 107 black in
  let lit := <[0%nat := mkRGBW 0 0 0 50]> dark in
  stripInitialized st = true /\
  ledStrip st = Some (SK6812.mk dark (Some DEFAULT_LED_PIN)) /\
  commits (trace st) = [dark; lit; dark; lit; dark; lit; dark] /\
  sent (trace st) = [] /\
  clock st = 300 /\ rx st = wire /\
  ledCount st = DEFAULT_LED_COUNT /\ globalBrightness st = 255 /\
  session st = (false, 0, 0).
Proof.
  intros st dark lit. subst st dark lit.
  unfold setup. rewrite !exec_get.
  rewrite (exec_bind _ _ _ _ _ (initializeStrip_run _ _ _)).
  vm_compute. repeat split; reflexivity.
Qed.

(** * The two ends of a gradient *)

Lemma lerp_ends a b steps :
  steps <> 0 -> lerp a b 0 steps = a /\ lerp a b steps steps = b.
Proof.
  intros Hs. unfold lerp. rewrite Z.mul_0_r, Z.quot_0_l by exact Hs.
  rewrite Z.quot_mul by exact Hs. lia.
Qed.

(** X27. A gradient over more than one pixel starts on colour A and ends
    on colour B exactly (each scaled by the brightness), and every channel
    of every pixel in between lies between the two ends: the truncating
    interpolation neither overshoots nor drifts.  This is said of the
    pixels of the range that lie within the strip as it was allocated. *)
Theorem gradient_hits_both_ends st q rest first last c1 c2 :
  stripInitialized st = true -> byte (globalBrightness st) ->
  well_formed (FillGradient first last c1 c2) ->
  first < last < ledCount st ->
  delivers st q (payload (FillGradient first last c1 c2)) rest ->
  let gb := globalBrightness st in
  let st' := exec (processCommand CMD_FILL_GRADIENT) st in
  (first < capacity st -> pixel st' first = Some (dimmed_color gb c1)) /\
  (last < capacity st -> pixel st' last = Some (dimmed_color gb c2)) /\
  forall i, 0 <= i <= last - first -> first + i < capacity st ->
    exists c, pixel st' (first + i) = Some (dimmed_color gb c) /\
      Forall2 (fun v ab => Z.min ab.1 ab.2 <= v <= Z.max ab.1 ab.2)
        (channels c) (zip (channels c1) (channels c2)).
Proof.
  intros Hinit Hgb Hwf Hrange Hd gb st'. subst gb st'.
  pose proof Hwf as (Hf & Hl & Hc1 & Hc2).
  assert (Hr : in_range (received q rest st) (FillGradient first last c1 c2)
               = true).
  { cbn. rewrite !(proj2 (Z.ltb_lt _ _)), (proj2 (Z.leb_le _ _)) by lia.
    reflexivity. }
  unfold exec.
  change CMD_FILL_GRADIENT with (opcode (FillGradient first last c1 c2)).
  rewrite (write_run st q rest (FillGradient first last c1 c2) Hinit eq_refl
             Hwf I Hd (or_introl Hr)).
  cbn [snd].
  destruct (outcome_accepted _ _ Hr) as (Hstrip & _).
  cbn [asked] in Hstrip.
  change (ledStrip (received q rest st)) with (ledStrip st) in Hstrip.
  change (globalBrightness (received q rest st))
    with (globalBrightness st) in Hstrip.
  set (steps := last - first) in *.
  assert (Hpix : forall i, 0 <= i <= steps -> first + i < capacity st ->
     pixel (outcome (FillGradient first last c1 c2) (received q rest st))
       (first + i)
     = Some (dimmed_color (globalBrightness st) (gradient c1 c2 steps i))).
  { intros i Hi Hcap.
    rewrite <- (scaled_dimmed _ _ Hgb) by (apply gradient_byte; assumption).
    apply (pixel_painted st _ _ _ _ _ Hstrip).
    - rewrite ramp_indices. apply NoDup_seqZ.
    - apply ramp_nonneg. unfold word in Hf. lia.
    - apply (ramp_elem (gradient c1 c2 steps)). lia.
    - exact Hcap. }
  assert (Hs : steps <> 0) by (unfold steps; lia).
  assert (Hends : gradient c1 c2 steps 0 = c1 /\
                  gradient c1 c2 steps steps = c2).
  { unfold gradient. rewrite (proj2 (Z.eqb_neq _ _) Hs).
    destruct c1 as [r1 g1 b1 w1], c2 as [r2 g2 b2 w2]. cbn [r g b w].
    destruct (lerp_ends r1 r2 steps Hs) as [-> ->].
    destruct (lerp_ends g1 g2 steps Hs) as [-> ->].
    destruct (lerp_ends b1 b2 steps Hs) as [-> ->].
    destruct (lerp_ends w1 w2 steps Hs) as [-> ->].
    split; reflexivity. }
  destruct Hends as [H0 H1].
  split; [|split].
  - intros Hcap. pose proof (Hpix 0 ltac:(unfold steps; lia)) as H.
    rewrite Z.add_0_r, H0 in H. apply H. exact Hcap.
  - intros Hcap. pose proof (Hpix steps ltac:(unfold steps; lia)) as H.
    rewrite H1 in H. replace (first + steps) with last in H
      by (unfold steps; lia).
    apply H. exact Hcap.
  - intros i Hi Hcap. exists (gradient c1 c2 steps i).
    split; [apply Hpix; assumption|].
    unfold gradient. rewrite (proj2 (Z.eqb_neq _ _) Hs).
    unfold channels. cbn [r g b w zip zip_with fst snd].
    repeat constructor; cbn [fst snd]; apply lerp_between; lia.
Qed.

Lemma gradient_hits_both_ends_witness :
  let req := FillGradient 2 9 (mkRGBW 255 0 10 0) (mkRGBW 0 255 200 0) in
  let st := board (payload req) in
  let st' := exec (processCommand CMD_FILL_GRADIENT) st in
  pixel st' 2 = Some (mkRGBW 255 0 10 0) /\
  pixel st' 9 = Some (mkRGBW 0 255 200 0).
Proof.
  intros req st.
  destruct (gradient_hits_both_ends st ((fun x => (0, x)) <$> payload req) []
              2 9 (mkRGBW 255 0 10 0) (mkRGBW 0 255 200 0))
    as (Hfirst & Hlast & _).
  - reflexivity.
  - computed.
  - computed.
  - computed.
  - delivered.
  - split; [apply Hfirst; computed|apply Hlast; computed].
Defined.
